(** * gnn_reco.data.sqlite_dataconverter: the SQLite conversion pipeline

    A shallow embedding of [SQLiteDataConverter] (file
    [src/gnn_reco/data/sqlite_dataconverter.py]) and of the library calls it
    relies on (numpy's [array_split], pandas' [DataFrame], [to_sql] and
    [read_sql] over SQLite), followed by the properties of the identifier
    allocation, of the worker loop and of the merge of the temporary
    databases. *)

From Stdlib Require Import ZArith List Ascii String Bool Lia DecimalString DecimalNat.
Import ListNotations.
Local Open Scope string_scope.
Local Open Scope Z_scope.
Local Open Scope list_scope.

(* ================================================================== *)
(** ** Python exceptions and fallible results *)

Inductive error : Type :=
| ValueError          (* numpy: number of sections must be larger than 0 *)
| IndexError          (* index out of range *)
| KeyError            (* missing dictionary key *)
| UnboundLocalError   (* local variable referenced before assignment *)
| OperationalError    (* sqlite3 / sqlalchemy: statement refused *)
| DatabaseError       (* pandas.read_sql: query failed *)
| OSError.            (* a file that cannot be opened *)

Inductive result (A : Type) : Type :=
| Ok (a : A)
| Err (e : error).
Arguments Ok {A} a.
Arguments Err {A} e.

Definition result_bind {A B} (r : result A) (f : A -> result B) : result B :=
  match r with
  | Ok a => f a
  | Err e => Err e
  end.

(* ================================================================== *)
(** ** numpy: [arange] and [array_split] *)

(** [np.arange(a, b, 1)] and its slices: the integers [start, stop). *)
Record ndrange : Type := { start : Z; stop : Z }.

Definition np_arange (a b : Z) : ndrange := {| start := a; stop := Z.max a b |}.

Definition range_len (r : ndrange) : Z := stop r - start r.

(** [r[st:en]] for non-negative [st] and [en], clipped to the length. *)
Definition range_slice (r : ndrange) (st en : Z) : ndrange :=
  let n := range_len r in
  let st' := Z.min st n in
  let en' := Z.max st' (Z.min en n) in
  {| start := start r + st'; stop := start r + en' |}.

(** [r[k]] for a counter [k >= 0]; IndexError past the end. *)
Definition range_item (r : ndrange) (k : nat) : result Z :=
  if Z.of_nat k <? range_len r then Ok (start r + Z.of_nat k) else Err IndexError.

Definition in_range (x : Z) (r : ndrange) : Prop := start r <= x < stop r.

(** What [array_split] needs of an array: its length along axis 0 and
    slicing.  Instances: ranges of integers and plain sequences. *)
Class Sliceable (T : Type) : Type := {
  size : T -> Z;
  slice : T -> Z -> Z -> T
}.

#[global] Instance ndrange_Sliceable : Sliceable ndrange :=
  {| size := range_len; slice := range_slice |}.

#[global] Instance list_Sliceable {A : Type} : Sliceable (list A) :=
  {| size := fun l => Z.of_nat (List.length l);
     slice := fun l st en =>
                firstn (Z.to_nat en - Z.to_nat st)%nat (skipn (Z.to_nat st) l) |}.

Fixpoint cumsum_from (acc : Z) (l : list Z) : list Z :=
  match l with
  | [] => []
  | x :: l' => (acc + x) :: cumsum_from (acc + x) l'
  end.

Definition cumsum (l : list Z) : list Z := cumsum_from 0 l.

(** numpy/lib/shape_base.py, [array_split] with an integer number of
    sections:
<<
    Neach_section, extras = divmod(Ntotal, Nsections)
    section_sizes = ([0] + extras * [Neach_section+1] +
                     (Nsections-extras) * [Neach_section])
    div_points = _nx.array(section_sizes, dtype=_nx.intp).cumsum()
>> *)
Definition section_sizes (Ntotal Nsections : Z) : list Z :=
  let Neach_section := Ntotal / Nsections in
  let extras := Ntotal mod Nsections in
  [0] ++ repeat (Neach_section + 1) (Z.to_nat extras)
      ++ repeat Neach_section (Z.to_nat (Nsections - extras)).

Definition array_split {T : Type} `{Sliceable T} (ary : T) (Nsections : Z)
  : result (list T) :=
  if Nsections <=? 0 then Err ValueError
  else
    let div_points := cumsum (section_sizes (size ary) Nsections) in
    Ok (map (fun i => slice ary (nth i div_points 0) (nth (S i) div_points 0))
            (seq 0 (Z.to_nat Nsections))).

(** Python's [str] of a non-negative integer. *)
Definition str (n : nat) : string := NilEmpty.string_of_uint (Nat.to_uint n).

(* ================================================================== *)
(** ** Python values and the extractors' dictionaries *)

(** Scalar cells.  Numbers stand for Python's ints and floats alike (no
    arithmetic is done on them); [PyNone] also stands for pandas' missing
    value. *)
Inductive pyval : Type :=
| PyNone
| PyNum (z : Z)
| PyStr (s : string).

Fixpoint assoc {V : Type} (k : string) (l : list (string * V)) : option V :=
  match l with
  | [] => None
  | (k', v) :: l' => if String.eqb k k' then Some v else assoc k l'
  end.

Fixpoint index_of (k : string) (l : list string) : option nat :=
  match l with
  | [] => None
  | k' :: l' => if String.eqb k k' then Some O
                else option_map S (index_of k l')
  end.

Definition mem (k : string) (l : list string) : bool :=
  match index_of k l with Some _ => true | None => false end.

(** What an extractor returns for one frame: a dict whose values are all
    scalars (truth, RetroReco) or all lists with one entry per pulse
    (features).  Keys are in insertion order; dicts mixing scalars and
    lists are not modelled. *)
Inductive extraction : Type :=
| Scalars (items : list (string * pyval))
| Lists (items : list (string * list pyval)).

Definition keys (e : extraction) : list string :=
  match e with
  | Scalars items => map fst items
  | Lists items => map fst items
  end.

(** [len(d)] of a dict. *)
Definition dict_len (e : extraction) : nat := List.length (keys e).

(* ================================================================== *)
(** ** pandas: DataFrame *)

Record DataFrame : Type := {
  columns : list string;
  data : list (list pyval)      (* one list per row, aligned with [columns] *)
}.

(** [pd.DataFrame()] *)
Definition pd_DataFrame : DataFrame := {| columns := []; data := [] |}.

(** [len(df)]: the number of rows. *)
Definition len (df : DataFrame) : nat := List.length (data df).

(** The value of a row in column [c]; missing when the frame has no such
    column. *)
Definition cell (cols : list string) (row : list pyval) (c : string) : pyval :=
  match index_of c cols with
  | Some i => nth i row PyNone
  | None => PyNone
  end.

(** Rows re-aligned to another list of columns. *)
Definition reindex (cols : list string) (df : DataFrame) : list (list pyval) :=
  map (fun row => map (cell (columns df) row) cols) (data df).

Fixpoint insert_sorted (c : string) (l : list string) : list string :=
  match l with
  | [] => [c]
  | c' :: l' => if String.leb c c' then c :: l else c' :: insert_sorted c l'
  end.

Definition sorted (l : list string) : list string :=
  fold_right insert_sorted [] l.

Definition union (a b : list string) : list string :=
  nodup string_dec (a ++ b).

(** [a.append(b, ignore_index=True, sort=True)]: the rows of [a] then those
    of [b], over the sorted union of the columns. *)
Definition df_append (a b : DataFrame) : DataFrame :=
  let cols := sorted (union (columns a) (columns b)) in
  {| columns := cols; data := reindex cols a ++ reindex cols b |}.

Fixpoint set_nth {A : Type} (i : nat) (v : A) (l : list A) : list A :=
  match l, i with
  | [], _ => []
  | _ :: l', O => v :: l'
  | x :: l', S i' => x :: set_nth i' v l'
  end.

(** [df[c] = v] for a scalar [v]: overwrite the column, or add it last. *)
Definition set_column (df : DataFrame) (c : string) (v : pyval) : DataFrame :=
  match index_of c (columns df) with
  | Some i => {| columns := columns df; data := map (set_nth i v) (data df) |}
  | None => {| columns := columns df ++ [c];
               data := map (fun row => row ++ [v]) (data df) |}
  end.

(** [pd.DataFrame(extraction.values()).T] with [columns = extraction.keys()]:
    one row for a non-empty dict of scalars; for a dict of lists, as many
    rows as the longest list, shorter ones padded with missing values. *)
Definition frame_of (e : extraction) : DataFrame :=
  match e with
  | Scalars [] => pd_DataFrame
  | Scalars items => {| columns := map fst items; data := [map snd items] |}
  | Lists [] => pd_DataFrame
  | Lists items =>
      let n := fold_right Nat.max O (map (fun kv => List.length (snd kv)) items) in
      {| columns := map fst items;
         data := map (fun i => map (fun kv => nth i (snd kv) PyNone) items)
                     (seq 0 n) |}
  end.

(* ================================================================== *)
(** ** SQLite databases, as written and read through pandas *)

(** The model keeps what the converter relies on.  Names are compared as
    they are written; SQLite compares the names of tables and columns
    without regard to the case of the letters, so that the model stands
    for databases none of whose names differ in case only.  Declared
    constraints and types are recorded, as they are what [_create_table]
    writes: the rows of a table are kept as they are inserted, whereas
    SQLite refuses a row with a null in a NOT NULL column or with a key
    the table has already (IntegrityError), stores a number of a FLOAT
    column as a floating-point number, and returns the rows of a table
    with an INTEGER PRIMARY KEY in the order of the key. *)

(** A column's declaration.  The first three are the ones [_create_table]
    writes; [INFERRED] is the type pandas chooses when [to_sql] creates the
    table itself.  Declared constraints are recorded, not enforced on the
    rows that are inserted. *)
Inductive sqldecl : Type :=
| INTEGER_PRIMARY_KEY_NOT_NULL
| NOT_NULL
| FLOAT
| INFERRED.

Record table : Type := {
  coldefs : list (string * sqldecl);
  rows : list (list pyval)
}.

(** An index: its name, its table and the indexed column. *)
Record index : Type := {
  index_name : string;
  index_table : string;
  index_column : string
}.

Record database : Type := {
  tables : list (string * table);     (* in creation order *)
  indexes : list index
}.

Definition empty_db : database := {| tables := []; indexes := [] |}.

Definition table_names (db : database) : list string := map fst (tables db).

Definition has_table (name : string) (db : database) : bool :=
  mem name (table_names db).

Fixpoint has_dup (l : list string) : bool :=
  match l with
  | [] => false
  | c :: l' => mem c l' || has_dup l'
  end.

Fixpoint replace_assoc {V : Type} (k : string) (v : V) (l : list (string * V))
  : list (string * V) :=
  match l with
  | [] => []
  | (k', v') :: l' => if String.eqb k k' then (k', v) :: l'
                      else (k', v') :: replace_assoc k v l'
  end.

(** [CREATE TABLE name (coldefs)]: refused when the table exists or a
    column name is repeated. *)
Definition sql_create_table (name : string) (defs : list (string * sqldecl))
  (db : database) : result database :=
  if has_table name db then Err OperationalError
  else if has_dup (map fst defs) then Err OperationalError
  else Ok {| tables := tables db ++ [(name, {| coldefs := defs; rows := [] |})];
             indexes := indexes db |}.

(** [CREATE INDEX iname ON tname (col)]: refused when the index exists or
    the table or its column does not. *)
Definition sql_create_index (iname tname col : string) (db : database)
  : result database :=
  if mem iname (map index_name (indexes db)) then Err OperationalError
  else match assoc tname (tables db) with
       | None => Err OperationalError
       | Some t =>
           if mem col (map fst (coldefs t))
           then Ok {| tables := tables db;
                      indexes := indexes db ++
                        [{| index_name := iname; index_table := tname;
                            index_column := col |}] |}
           else Err OperationalError
       end.

(** [pd.read_sql('select * from name', con)] *)
Definition read_sql (name : string) (db : database) : result DataFrame :=
  match assoc name (tables db) with
  | Some t => Ok {| columns := map fst (coldefs t); data := rows t |}
  | None => Err DatabaseError
  end.

(** [pd.read_sql('select * from name limit 1', con)] *)
Definition read_sql_limit_1 (name : string) (db : database) : result DataFrame :=
  match assoc name (tables db) with
  | Some t => Ok {| columns := map fst (coldefs t); data := firstn 1 (rows t) |}
  | None => Err DatabaseError
  end.

(** [df.to_sql(name, engine, index=False, if_exists='append')].  A missing
    table is created from the frame's columns (SQLite refuses a table
    without columns) and then filled.  For a table that exists a frame
    without rows inserts nothing; otherwise the rows are inserted by column
    name: columns of the table that the frame lacks stay null, a column of
    the frame that the table lacks is refused by SQLite (no such column)
    and nothing is inserted. *)
Definition to_sql (df : DataFrame) (name : string) (db : database)
  : result database :=
  match assoc name (tables db) with
  | None =>
      match columns df with
      | [] => Err OperationalError
      | _ => Ok {| tables := tables db ++
                     [(name, {| coldefs := map (fun c => (c, INFERRED)) (columns df);
                                rows := data df |})];
                   indexes := indexes db |}
      end
  | Some t =>
      let cols := map fst (coldefs t) in
      match data df with
      | [] => Ok db
      | _ =>
          if forallb (fun c => mem c cols) (columns df)
          then Ok {| tables := replace_assoc name
                                 {| coldefs := coldefs t;
                                    rows := rows t ++ reindex cols df |}
                                 (tables db);
                     indexes := indexes db |}
          else Err OperationalError
      end
  end.

(* ================================================================== *)
(** ** The converter's process: files on disk, exceptions, crashes *)

(** The two places the converter writes to: the directory of temporary
    databases, [outdir/db_name/tmp] (file name and content, in the order
    [glob] lists them), and the final database
    [outdir/db_name/data/db_name.db]. *)
Record filesystem : Type := {
  tmp : list (string * database);
  final : database
}.

Inductive outcome (A : Type) : Type :=
| Done (a : A)          (* returned *)
| Raised (e : error)    (* an exception left the function *)
| Crashed.              (* the process was killed *)
Arguments Done {A} a.
Arguments Raised {A} e.
Arguments Crashed {A}.

(** A computation runs on the file system.  [kill] is how many writes the
    process still performs before it is killed, [None] when it is never
    killed. *)
Definition process (A : Type) : Type :=
  option nat -> filesystem -> filesystem * option nat * outcome A.

Definition ret {A} (a : A) : process A := fun kill fs => (fs, kill, Done a).

Definition raise {A} (e : error) : process A := fun kill fs => (fs, kill, Raised e).

Definition bind {A B} (m : process A) (f : A -> process B) : process B :=
  fun kill fs =>
    match m kill fs with
    | (fs', kill', Done a) => f a kill' fs'
    | (fs', kill', Raised e) => (fs', kill', Raised e)
    | (fs', kill', Crashed) => (fs', kill', Crashed)
    end.

Notation "x <- m ;; k" := (bind m (fun x => k))
  (at level 61, m at next level, right associativity).
Notation "m ;;; k" := (bind m (fun _ => k))
  (at level 61, right associativity).

Definition lift {A} (r : result A) : process A :=
  match r with
  | Ok a => ret a
  | Err e => raise e
  end.

(** One write: the process dies before it if its time is up. *)
Definition write (f : filesystem -> result filesystem) : process unit :=
  fun kill fs =>
    match kill with
    | Some O => (fs, kill, Crashed)
    | _ =>
        let kill' := option_map Nat.pred kill in
        match f fs with
        | Ok fs' => (fs', kill', Done tt)
        | Err e => (fs, kill', Raised e)
        end
    end.

Definition write_final (f : database -> result database) : process unit :=
  write (fun fs => result_bind (f (final fs))
                     (fun d => Ok {| tmp := tmp fs; final := d |})).

Definition put_assoc {V : Type} (k : string) (v : V) (l : list (string * V))
  : list (string * V) :=
  match assoc k l with
  | Some _ => replace_assoc k v l
  | None => l ++ [(k, v)]
  end.

(** The database behind a file name of the temporary directory;
    connecting to a file that does not exist gives an empty database. *)
Definition open_db (file : string) (dir : list (string * database)) : database :=
  match assoc file dir with
  | Some d => d
  | None => empty_db
  end.

(** A write to a temporary database; it creates the file if need be. *)
Definition write_tmp (file : string) (f : database -> result database)
  : process unit :=
  write (fun fs =>
           result_bind (f (open_db file (tmp fs)))
             (fun d => Ok {| tmp := put_assoc file d (tmp fs); final := final fs |})).

(** [glob(os.path.join(path_tmp, '*.db'))], reduced to the file names. *)
Definition glob_tmp : process (list string) :=
  fun kill fs => (fs, kill, Done (map fst (tmp fs))).

(** [sqlite3.connect(path_tmp + '/' + db_file)] for reading. *)
Definition connect_tmp (db_file : string) : process database :=
  fun kill fs => (fs, kill, Done (open_db db_file (tmp fs))).

(** [os.system('rm -r ' + path_tmp)], taken as one step that removes the
    directory: the code does not look at the status of [rm], and a path
    that the shell would split is not modelled. *)
Definition rm_tmp : process unit :=
  write (fun fs => Ok {| tmp := []; final := final fs |}).

Fixpoint for_each {A} (l : list A) (body : A -> process unit) : process unit :=
  match l with
  | [] => ret tt
  | x :: l' => body x ;;; for_each l' body
  end.

Fixpoint fold_process {A S} (l : list A) (body : S -> A -> process S) (s : S)
  : process S :=
  match l with
  | [] => ret s
  | x :: l' => s' <- body s x ;; fold_process l' body s'
  end.

(** The run with no crash. *)
Definition run {A} (m : process A) (fs : filesystem) : filesystem * outcome A :=
  let '(fs', _, out) := m None fs in (fs', out).

(* ================================================================== *)
(** ** SQLiteDataConverter *)

(** The member variables the code below reads.  [outdir] and [db_name]
    only name the two places of [filesystem] and are left out, as are the
    [database] and [tmp_path] arguments that carry them around. *)
Record SQLiteDataConverter : Type := {
  _pulsemap : string;
  _workers : Z;
  _max_dict_size : Z
}.

(** The three dicts [self._extractors(frame)] returns for a frame. *)
Record frame : Type := {
  truths : extraction;
  features : extraction;
  retros : extraction
}.

(** One call of [i3_file.pop_physics()]: it raises, or returns something
    Python's [if] takes for false, or returns a frame, on which the
    extractors return their dicts or raise. *)
Inductive pop_result : Type :=
| PopRaises
| PopFalsy
| PopFrame (extracted : result frame).

(** An I3 file, given by what reading it yields: [dataio.I3File] raises,
    or [more()] holds as long as records are left. *)
Inductive i3file : Type :=
| Unreadable
| I3File (records : list pop_result).

(** The list [_process_files] builds for each worker. *)
Record settings : Type := {
  input_files : list i3file;
  id : string;
  gcd_files : list string;
  event_no_list : ndrange;
  max_dict_size : Z
}.

(** [_process_files], lines 59-75: the settings of the workers. *)
Definition _process_files_settings (self : SQLiteDataConverter)
  (i3_files : list i3file) (gcd_files : list string) : result (list settings) :=
  let workers := Z.min (_workers self) (Z.of_nat (List.length i3_files)) in
  result_bind (array_split (np_arange 0 99999999) workers) (fun event_nos =>
  result_bind (array_split i3_files workers) (fun file_list =>
  result_bind (array_split gcd_files workers) (fun gcd_file_list =>
  Ok (map (fun i =>
             {| input_files := nth i file_list [];
                id := str i;
                gcd_files := nth i gcd_file_list [];
                event_no_list := nth i event_nos (np_arange 0 0);
                max_dict_size := _max_dict_size self |})
          (seq 0 (Z.to_nat workers)))))).

Definition apply_event_no (extraction : extraction) (event_no_list : ndrange)
  (event_counter : nat) : result DataFrame :=
  let out := frame_of extraction in
  result_bind (range_item event_no_list event_counter) (fun event_no =>
  Ok (set_column out "event_no" (PyNum event_no))).

(** [features['dom_x'] != None] is false only for the scalar [None]. *)
Definition is_empty (features : extraction) : result bool :=
  match features with
  | Scalars items =>
      match assoc "dom_x" items with
      | None => Err KeyError
      | Some PyNone => Ok true
      | Some _ => Ok false
      end
  | Lists items =>
      match assoc "dom_x" items with
      | None => Err KeyError
      | Some _ => Ok false
      end
  end.

Definition shard_name (id : string) (output_count : nat) : string :=
  ("worker-" ++ id ++ "-" ++ str output_count ++ ".db")%string.

Definition save_to_sql (feature_big truth_big retro_big : DataFrame)
  (id : string) (output_count : nat) (pulsemap : string) : process unit :=
  let engine := shard_name id output_count in
  write_tmp engine (to_sql truth_big "truth") ;;;
  (if (0 <? len retro_big)%nat
   then write_tmp engine (to_sql retro_big "RetroReco")
   else ret tt) ;;;
  write_tmp engine (to_sql feature_big pulsemap).

(** The local variables of [_parallel_extraction]. *)
Record locals : Type := {
  event_counter : nat;
  feature_big : DataFrame;
  truth_big : DataFrame;
  retro_big : DataFrame;
  file_counter : nat;
  output_count : nat;
  gcd_count : nat
}.

Definition initial_locals : locals :=
  {| event_counter := 0; feature_big := pd_DataFrame; truth_big := pd_DataFrame;
     retro_big := pd_DataFrame; file_counter := 0; output_count := 0;
     gcd_count := 0 |}.

(** Lines 122-131: the rows of one frame go to the buffers. *)
Definition buffer_frame (s : settings) (fr : frame) (l : locals) : result locals :=
  result_bind (apply_event_no (truths fr) (event_no_list s) (event_counter l))
    (fun truth =>
  let truth_big' := df_append (truth_big l) truth in
  result_bind
    (if (0 <? dict_len (retros fr))%nat
     then result_bind
            (apply_event_no (retros fr) (event_no_list s) (event_counter l))
            (fun retro => Ok (df_append (retro_big l) retro))
     else Ok (retro_big l))
    (fun retro_big' =>
  result_bind (is_empty (features fr)) (fun empty =>
  result_bind
    (if negb empty
     then result_bind
            (apply_event_no (features fr) (event_no_list s) (event_counter l))
            (fun features' => Ok (df_append (feature_big l) features'))
     else Ok (feature_big l))
    (fun feature_big' =>
  Ok {| event_counter := S (event_counter l);
        feature_big := feature_big';
        truth_big := truth_big';
        retro_big := retro_big';
        file_counter := file_counter l;
        output_count := output_count l;
        gcd_count := gcd_count l |})))).

(** Lines 132-138: a full truth buffer is written out and the buffers
    start again. *)
Definition flush_if_full (self : SQLiteDataConverter) (s : settings) (l : locals)
  : process locals :=
  if max_dict_size s <=? Z.of_nat (len (truth_big l))
  then
    save_to_sql (feature_big l) (truth_big l) (retro_big l) (id s)
                (output_count l) (_pulsemap self) ;;;
    ret {| event_counter := event_counter l;
           feature_big := pd_DataFrame;
           truth_big := pd_DataFrame;
           retro_big := pd_DataFrame;
           file_counter := file_counter l;
           output_count := S (output_count l);
           gcd_count := gcd_count l |}
  else ret l.

(** Lines 116-138: one turn of [while i3_file.more()]. *)
Definition pop_and_extract (self : SQLiteDataConverter) (s : settings)
  (l : locals) (p : pop_result) : process locals :=
  match p with
  | PopRaises => ret l                (* except: frame = False *)
  | PopFalsy => ret l
  | PopFrame extracted =>
      fr <- lift extracted ;;
      l' <- lift (buffer_frame s fr l) ;;
      flush_if_full self s l'
  end.

(** Lines 113-139: one turn of [for u in range(len(input_files))]. *)
Definition extract_file (self : SQLiteDataConverter) (s : settings)
  (l : locals) (u : nat) : process locals :=
  match nth_error (input_files s) u, nth_error (gcd_files s) u with
  | Some (I3File records), Some _ =>
      l' <- fold_process records (pop_and_extract self s) l ;;
      ret {| event_counter := event_counter l';
             feature_big := feature_big l';
             truth_big := truth_big l';
             retro_big := retro_big l';
             file_counter := S (file_counter l');
             output_count := output_count l';
             gcd_count := gcd_count l' |}
  | Some Unreadable, Some _ => raise OSError
  | _, _ => raise IndexError
  end.

(** Lines 140-145: what is left in the buffers at the end. *)
Definition flush_rest (self : SQLiteDataConverter) (s : settings) (l : locals)
  : process locals :=
  if (0 <? len (truth_big l))%nat
  then
    save_to_sql (feature_big l) (truth_big l) (retro_big l) (id s)
                (output_count l) (_pulsemap self) ;;;
    ret {| event_counter := event_counter l;
           feature_big := pd_DataFrame;
           truth_big := pd_DataFrame;
           retro_big := pd_DataFrame;
           file_counter := file_counter l;
           output_count := S (output_count l);
           gcd_count := gcd_count l |}
  else ret l.

(** The function every worker runs.  Python returns nothing; the local
    variables at the end are returned here so that they can be spoken
    about. *)
Definition _parallel_extraction (self : SQLiteDataConverter) (s : settings)
  : process locals :=
  l <- fold_process (seq 0 (List.length (input_files s)))
                    (extract_file self s) initial_locals ;;
  flush_rest self s l.

(** Lines 180-189: the loop that looks for RetroReco columns.
    [retro_columns] is [None] as long as the variable is unbound. *)
Fixpoint retro_columns_loop (db_files : list string)
  (retro_columns : option (list string)) : process (option (list string)) :=
  match db_files with
  | [] => ret retro_columns
  | db_file :: rest =>
      db <- connect_tmp db_file ;;
      match read_sql_limit_1 "RetroReco" db with
      | Ok df =>
          if (0 <? List.length (columns df))%nat
          then ret (Some (columns df))                       (* break *)
          else retro_columns_loop rest (Some (columns df))
      | Err _ => retro_columns_loop rest (Some [])           (* except *)
      end
  end.

Definition _extract_column_names (db_files : list string) (pulsemap : string)
  : process (list string * list string * list string) :=
  db <- match db_files with
        | [] => raise IndexError
        | db_file :: _ => connect_tmp db_file
        end ;;
  truth <- lift (read_sql_limit_1 "truth" db) ;;
  let truth_columns := columns truth in
  pulse_map <- lift (read_sql_limit_1 pulsemap db) ;;
  let pulse_map_columns := columns pulse_map in
  retro_columns <- retro_columns_loop db_files None ;;
  match retro_columns with
  | None => raise UnboundLocalError
  | Some retro_columns => ret (truth_columns, pulse_map_columns, retro_columns)
  end.

Definition _run_sql_code (code : database -> result database) : process unit :=
  write_final code.

Definition _attach_index (table_name : string) : process unit :=
  _run_sql_code
    (sql_create_index ("event_no_" ++ table_name)%string table_name "event_no").

(** Lines 218-237: the column declarations, built as the loop does, with
    its counter; [query_columns] is [None] as long as it is unbound. *)
Definition query_columns_loop (columns : list string) (is_pulse_map : bool)
  : nat * option (list (string * sqldecl)) :=
  fold_left
    (fun (st : nat * option (list (string * sqldecl))) column =>
       let (count, query_columns) := st in
       let decl :=
         if String.eqb column "event_no"
         then if Bool.eqb is_pulse_map false
              then INTEGER_PRIMARY_KEY_NOT_NULL
              else NOT_NULL
         else FLOAT in
       (S count,
        if (count =? 0)%nat
        then Some [(column, decl)]
        else option_map (fun q => q ++ [(column, decl)]) query_columns))
    columns (O, None).

Definition _create_table (table_name : string) (columns : list string)
  (is_pulse_map : bool) : process unit :=
  match snd (query_columns_loop columns is_pulse_map) with
  | None => raise UnboundLocalError
  | Some query_columns =>
      _run_sql_code (sql_create_table table_name query_columns) ;;;
      if is_pulse_map then _attach_index table_name else ret tt
  end.

Definition _create_empty_tables (pulse_map : string)
  (truth_columns pulse_map_columns retro_columns : list string) : process unit :=
  _create_table "truth" truth_columns false ;;;
  (if (1 <? List.length retro_columns)%nat
   then _create_table "RetroReco" retro_columns false
   else ret tt) ;;;
  _create_table pulse_map pulse_map_columns true.

Definition _submit_to_database (key : string) (data : DataFrame) : process unit :=
  if (len data =? 0)%nat then ret tt
  else write_final (to_sql data key).

(** [retro] is the list [[]] when the query fails; only its length is
    looked at, so the empty frame stands for it. *)
Definition _extract_everything (db : string) (pulsemap : string)
  : process (DataFrame * DataFrame * DataFrame) :=
  con <- connect_tmp db ;;
  truth <- lift (read_sql "truth" con) ;;
  features <- lift (read_sql pulsemap con) ;;
  let retro := match read_sql "RetroReco" con with
               | Ok retro => retro
               | Err _ => pd_DataFrame
               end in
  ret (truth, features, retro).

Definition merge_one (pulse_map : string) (file : string) : process unit :=
  tfr <- _extract_everything file pulse_map ;;
  let '(truth, features, retro) := tfr in
  _submit_to_database "truth" truth ;;;
  _submit_to_database pulse_map features ;;;
  _submit_to_database "RetroReco" retro.

Definition _merge_temporary_databases (db_files : list string)
  (pulse_map : string) : process unit :=
  for_each db_files (merge_one pulse_map).

Definition _merge_databases (self : SQLiteDataConverter) : process unit :=
  db_files <- glob_tmp ;;
  if (0 <? List.length db_files)%nat
  then
    cols <- _extract_column_names db_files (_pulsemap self) ;;
    let '(truth_columns, pulse_map_columns, retro_columns) := cols in
    _create_empty_tables (_pulsemap self) truth_columns pulse_map_columns
                         retro_columns ;;;
    _merge_temporary_databases db_files (_pulsemap self) ;;;
    rm_tmp
  else ret tt.

(* ================================================================== *)
(** ** Vocabulary of the statements *)

(** Consecutive ranges of the given sizes, from [a] on. *)
Fixpoint chain (a : Z) (sizes : list Z) : list ndrange :=
  match sizes with
  | [] => []
  | s :: ss => {| start := a; stop := a + s |} :: chain (a + s) ss
  end.

Definition sum (l : list Z) : Z := fold_right Z.add 0 l.

(** The section sizes of [array_split] without the leading zero. *)
Definition even_sizes (Ntotal Nsections : Z) : list Z :=
  repeat (Ntotal / Nsections + 1) (Z.to_nat (Ntotal mod Nsections))
  ++ repeat (Ntotal / Nsections) (Z.to_nat (Nsections - Ntotal mod Nsections)).

Definition is_PopRaises (p : pop_result) : bool :=
  match p with PopRaises => true | _ => false end.

Definition without_unreadable_records (f : i3file) : i3file :=
  match f with
  | Unreadable => Unreadable
  | I3File records => I3File (filter (fun p => negb (is_PopRaises p)) records)
  end.

Definition skipped_in_file (f : i3file) : nat :=
  match f with
  | Unreadable => O
  | I3File records => List.length (filter is_PopRaises records)
  end.

(** The number of records of a worker's files whose read raises. *)
Definition skipped_records (s : settings) : nat :=
  fold_right Nat.add O (map skipped_in_file (input_files s)).

Definition with_input_files (s : settings) (files : list i3file) : settings :=
  {| input_files := files; id := id s; gcd_files := gcd_files s;
     event_no_list := event_no_list s; max_dict_size := max_dict_size s |}.

(** A frame whose truth dict is a non-empty dict of scalars, as
    [I3TruthExtractor] returns it. *)
Definition one_truth_row (fr : frame) : Prop :=
  exists items, truths fr = Scalars items /\ items <> [].

Definition frames_of_file (f : i3file) : list frame :=
  match f with
  | Unreadable => []
  | I3File records =>
      flat_map (fun p => match p with PopFrame (Ok fr) => [fr] | _ => [] end) records
  end.

(** The declaration [_create_table] gives a column. *)
Definition column_decl (is_pulse_map : bool) (column : string) : sqldecl :=
  if String.eqb column "event_no"
  then if is_pulse_map then NOT_NULL else INTEGER_PRIMARY_KEY_NOT_NULL
  else FLOAT.

Definition declarations (columns : list string) (is_pulse_map : bool)
  : list (string * sqldecl) :=
  map (fun c => (c, column_decl is_pulse_map c)) columns.

(** The index [_attach_index] creates on a table. *)
Definition event_no_index (table_name : string) : index :=
  {| index_name := ("event_no_" ++ table_name)%string;
     index_table := table_name;
     index_column := "event_no" |}.

(** The table [_create_table] creates. *)
Definition created_table (columns : list string) (is_pulse_map : bool) : table :=
  {| coldefs := declarations columns is_pulse_map; rows := [] |}.

(** A computation that leaves the temporary databases as they are,
    however it ends. *)
Definition keeps_tmp {A} (m : process A) : Prop :=
  forall kill fs, tmp (fst (fst (m kill fs))) = tmp fs.

(** A computation that leaves the temporary databases as they are unless
    it runs to its end. *)
Definition removes_tmp_at_end {A} (m : process A) : Prop :=
  forall kill fs,
    match m kill fs with
    | (_, _, Done _) => True
    | (fs', _, _) => tmp fs' = tmp fs
    end.

(** What [_submit_to_database] does to the final database. *)
Definition submit (key : string) (data : DataFrame) (db : database)
  : result database :=
  if (len data =? 0)%nat then Ok db else to_sql data key db.

(** The RetroReco frame [_extract_everything] returns for a database. *)
Definition retro_of (db : database) : DataFrame :=
  match read_sql "RetroReco" db with
  | Ok retro => retro
  | Err _ => pd_DataFrame
  end.

(** The column names of a table of a database. *)
Definition table_columns (name : string) (db : database) : option (list string) :=
  option_map (fun t => map fst (coldefs t)) (assoc name (tables db)).

(** What the loop of [_extract_column_names] finds in the databases it
    connects to, in turn. *)
Fixpoint retro_sample (dbs : list database) (retro_columns : option (list string))
  : option (list string) :=
  match dbs with
  | [] => retro_columns
  | db :: rest =>
      match read_sql_limit_1 "RetroReco" db with
      | Ok df =>
          if (0 <? List.length (columns df))%nat
          then Some (columns df)
          else retro_sample rest (Some (columns df))
      | Err _ => retro_sample rest (Some [])
      end
  end.

(** A computation that, when the process is never killed, does not end
    as a crash. *)
Definition never_crashes {A} (m : process A) : Prop :=
  forall fs, snd (fst (m None fs)) = None /\ snd (m None fs) <> Crashed.

(** The columns of a table as [_extract_column_names] samples them: those
    of the first temporary database listed. *)
Definition sampled_columns (name : string) (fs : filesystem)
  : option (list string) :=
  match tmp fs with
  | [] => None
  | (_, db) :: _ => table_columns name db
  end.

(** The table pandas creates for a frame. *)
Definition table_of_frame (df : DataFrame) : table :=
  {| coldefs := map (fun c => (c, INFERRED)) (columns df); rows := data df |}.

(** Between two frames, for a maximum of [m] rows: [output_count] full
    shards were written and the other events are in the truth buffer. *)
Definition shards_counted (m : nat) (l : locals) : Prop :=
  event_counter l = (output_count l * m + len (truth_big l))%nat /\
  (len (truth_big l) < m)%nat.

(** While the shards of [fs] are appended: they are all there, and the two
    final tables have the columns they were created with. *)
Definition columns_kept (self : SQLiteDataConverter) (fs : filesystem)
  (tc pc : list string) (st : filesystem) : Prop :=
  tmp st = tmp fs /\
  table_columns "truth" (final st) = Some tc /\
  table_columns (_pulsemap self) (final st) = Some pc.

(** ** Examples *)

Definition ex_self : SQLiteDataConverter :=
  {| _pulsemap := "SRTInIcePulses"; _workers := 2; _max_dict_size := 2 |}.

Definition ex_truths (energy : Z) : extraction :=
  Scalars [("energy", PyNum energy); ("zenith", PyNum 1)].

Definition ex_pulses : extraction :=
  Lists [("charge", [PyNum 1; PyNum 2]); ("dom_x", [PyNum 5; PyNum 6])].

(** Features of an event without pulses: the positional field is [None]. *)
Definition ex_no_pulses : list (string * pyval) :=
  [("charge", PyNone); ("dom_x", PyNone)].

Definition ex_frame : frame :=
  {| truths := ex_truths 10; features := ex_pulses; retros := Scalars [] |}.

Definition ex_empty_frame : frame :=
  {| truths := ex_truths 20; features := Scalars ex_no_pulses;
     retros := Scalars [] |}.

(** The settings of worker 0 of two, with one input file. *)
Definition ex_settings (records : list pop_result) : settings :=
  {| input_files := [I3File records];
     id := "0";
     gcd_files := ["gcd.i3"];
     event_no_list := {| start := 0; stop := 50000000 |};
     max_dict_size := 2 |}.

Definition ex_locals : locals :=
  {| event_counter := 1;
     feature_big := {| columns := ["charge"; "dom_x"; "event_no"];
                       data := [[PyNum 1; PyNum 5; PyNum 0]] |};
     truth_big := {| columns := ["energy"; "event_no"; "zenith"];
                     data := [[PyNum 10; PyNum 0; PyNum 1]] |};
     retro_big := pd_DataFrame;
     file_counter := 0;
     output_count := 0;
     gcd_count := 0 |}.

(** No temporary database, nothing in the final one. *)
Definition ex_fresh : filesystem := {| tmp := []; final := empty_db |}.

(** A temporary database as [save_to_sql] leaves it. *)
Definition ex_shard (truth : DataFrame) (retro : option DataFrame)
  (pulses : DataFrame) : database :=
  {| tables := [("truth", table_of_frame truth)]
               ++ match retro with
                  | Some r => [("RetroReco", table_of_frame r)]
                  | None => []
                  end
               ++ [("SRTInIcePulses", table_of_frame pulses)];
     indexes := [] |}.

Definition ex_pulse_rows (event_no : Z) : DataFrame :=
  {| columns := ["dom_x"; "event_no"]; data := [[PyNum 5; PyNum event_no]] |}.

Definition ex_shard_0 : database :=
  ex_shard {| columns := ["energy"; "event_no"; "zenith"];
              data := [[PyNum 10; PyNum 0; PyNum 1]] |}
           None (ex_pulse_rows 0).

(** A shard whose truth table lacks the zenith column. *)
Definition ex_shard_narrow : database :=
  ex_shard {| columns := ["energy"; "event_no"];
              data := [[PyNum 20; PyNum 50000000]] |}
           None (ex_pulse_rows 50000000).

(** A shard whose truth table has one column more, azimuth. *)
Definition ex_shard_wide : database :=
  ex_shard {| columns := ["azimuth"; "energy"; "event_no"; "zenith"];
              data := [[PyNum 3; PyNum 20; PyNum 50000000; PyNum 1]] |}
           None (ex_pulse_rows 50000000).

(** A shard whose RetroReco table has the event_no column only. *)
Definition ex_shard_retro (event_no : Z) : database :=
  ex_shard {| columns := ["energy"; "event_no"; "zenith"];
              data := [[PyNum 10; PyNum event_no; PyNum 1]] |}
           (Some {| columns := ["event_no"]; data := [[PyNum event_no]] |})
           (ex_pulse_rows event_no).

Definition ex_two_shards (second : database) : filesystem :=
  {| tmp := [("worker-0-0.db", ex_shard_0); ("worker-1-0.db", second)];
     final := empty_db |}.

Definition ex_retro_shards : filesystem :=
  {| tmp := [("worker-0-0.db", ex_shard_retro 0);
             ("worker-1-0.db", ex_shard_retro 50000000)];
     final := empty_db |}.

(** The event_no cells of a frame, row by row. *)
Definition event_nos_of (df : DataFrame) : list pyval :=
  map (fun row => cell (columns df) row "event_no") (data df).

(** The truth buffer holds the rows of the last events, with consecutive
    identifiers up to the one before [event_no_list[event_counter]]. *)
Definition identifiers_consecutive (s : settings) (l : locals) : Prop :=
  (len (truth_big l) <= event_counter l)%nat /\
  event_nos_of (truth_big l)
  = map (fun i => PyNum (start (event_no_list s) + Z.of_nat i))
        (seq (event_counter l - len (truth_big l)) (len (truth_big l))).

(** A string in which the character [c] does not occur. *)
Fixpoint no_char (c : ascii) (s : string) : Prop :=
  match s with
  | EmptyString => True
  | String a s' => a <> c /\ no_char c s'
  end.

(** A computation that leaves the final database alone and, of the
    temporary databases, writes only to those whose name satisfies [P]. *)
Definition writes_only (P : string -> Prop) {A} (m : process A) : Prop :=
  forall kill fs,
    final (fst (fst (m kill fs))) = final fs /\
    forall file, ~ P file ->
      assoc file (tmp (fst (fst (m kill fs)))) = assoc file (tmp fs).

(** A file that opens and on none of whose frames the extractors raise. *)
Definition read_without_error (f : i3file) : Prop :=
  exists records, f = I3File records /\ forall e, ~ In (PopFrame (Err e)) records.

(** The rows of a table of a shard, aligned to the given columns; none
    when the shard has no such table. *)
Definition shard_rows (name : string) (cols : list string) (db : database)
  : list (list pyval) :=
  match read_sql name db with
  | Ok df => reindex cols df
  | Err _ => []
  end.

(** While the shards are appended to the final database [db0]: the
    indexes are those of [db0], and every table of [db0] is there with
    the declarations it has in [db0]. *)
Definition schema_kept (db0 : database) (st : filesystem) : Prop :=
  indexes (final st) = indexes db0 /\
  forall name t, assoc name (tables db0) = Some t ->
    exists t', assoc name (tables (final st)) = Some t' /\ coldefs t' = coldefs t.

(** SQLite compares the names of tables and columns without regard to the
    case of ASCII letters: [lower] is the spelling it compares. *)
Definition lower_ascii (a : ascii) : ascii :=
  let n := nat_of_ascii a in
  if ((65 <=? n) && (n <=? 90))%nat then ascii_of_nat (n + 32) else a.

Fixpoint lower (s : string) : string :=
  match s with
  | EmptyString => EmptyString
  | String a s' => String (lower_ascii a) (lower s')
  end.

(** The identifiers of [cnt] events from the event numbered [lo] of a
    worker on. *)
Definition ids_from (s : settings) (lo cnt : nat) : list pyval :=
  map (fun i => PyNum (start (event_no_list s) + Z.of_nat i)) (seq lo cnt).

(** Every event_no cell of the frame is the identifier of one of the
    events numbered [lo] to [hi - 1]. *)
Definition cells_within (s : settings) (lo hi : nat) (df : DataFrame) : Prop :=
  forall v, In v (event_nos_of df) ->
    exists i, (lo <= i < hi)%nat /\ v = PyNum (start (event_no_list s) + Z.of_nat i).

(** The shard numbered [k] of a worker is in the temporary directory and
    holds the events numbered [lo] to [lo + cnt - 1]: their truth rows,
    one each and in order, a pulse table and, as far as it has RetroReco
    rows, rows of these events only. *)
Definition shard_holds (s : settings) (pulsemap : string) (fs : filesystem)
  (k lo cnt : nat) : Prop :=
  exists db truth features,
    assoc (shard_name (id s) k) (tmp fs) = Some db /\
    read_sql "truth" db = Ok truth /\
    len truth = cnt /\
    event_nos_of truth = ids_from s lo cnt /\
    read_sql pulsemap db = Ok features /\
    cells_within s lo (lo + cnt) features /\
    cells_within s lo (lo + cnt) (retro_of db).

(** Between two frames, for a maximum of [m] rows: the shards written so
    far are full and hold the first events, the buffers hold the events
    since, and no later shard is there. *)
Definition worker_progress (s : settings) (pulsemap : string) (m : nat)
  (l : locals) (fs : filesystem) : Prop :=
  shards_counted m l /\
  identifiers_consecutive s l /\
  cells_within s (event_counter l - len (truth_big l)) (event_counter l)
               (feature_big l) /\
  cells_within s (event_counter l - len (truth_big l)) (event_counter l)
               (retro_big l) /\
  (forall k, (k < output_count l)%nat -> shard_holds s pulsemap fs k (k * m) m) /\
  (forall k, (output_count l <= k)%nat ->
     assoc (shard_name (id s) k) (tmp fs) = None).

(** The merge as far as the shards [before]: what [_merge_databases] has
    done when its loop arrives at the shard listed after them. *)
Definition merge_upto (self : SQLiteDataConverter) (before : list string)
  : process unit :=
  db_files <- glob_tmp ;;
  cols <- _extract_column_names db_files (_pulsemap self) ;;
  let '(truth_columns, pulse_map_columns, retro_columns) := cols in
  _create_empty_tables (_pulsemap self) truth_columns pulse_map_columns
                       retro_columns ;;;
  _merge_temporary_databases before (_pulsemap self).

(** How many rows the table [name] of a shard has; none without the
    table. *)
Definition shard_row_count (name : string) (db : database) : nat :=
  match read_sql name db with
  | Ok df => len df
  | Err _ => O
  end.

(** The settings of a worker that reads three events, with a falsy record
    between them, for a maximum of two rows. *)
Definition ex_three_events : settings :=
  ex_settings [PopFrame (Ok ex_frame); PopFalsy; PopFrame (Ok ex_frame);
               PopFrame (Ok ex_frame)].

(* ================================================================== *)
(** ** gnn_reco.data.i3extractor: the extractors the worker calls *)

(** Exceptions of the extractors: those of [error] and two more. *)
Inductive exception : Type :=
| AttributeError
| TypeError
| Builtin (e : error).

Inductive attempt (A : Type) : Type :=
| Returned (a : A)
| Raising (e : exception).
Arguments Returned {A} a.
Arguments Raising {A} e.

Definition attempt_bind {A B} (m : attempt A) (f : A -> attempt B) : attempt B :=
  match m with
  | Returned a => f a
  | Raising e => Raising e
  end.

(** [frame['I3EventHeader']], with [start_time.utc_daq_time] flattened. *)
Record I3EventHeader : Type := {
  utc_daq_time : pyval;
  run_id : pyval;
  sub_run_id : pyval;
  event_id : pyval;
  sub_event_id : pyval
}.

(** An [I3Particle], with [pos] and [dir] flattened. *)
Record I3Particle : Type := {
  energy : pyval;
  pos_x : pyval;
  pos_y : pyval;
  pos_z : pyval;
  time : pyval;
  dir_azimuth : pyval;
  dir_zenith : pyval;
  pdg_encoding : pyval
}.

(** The objects of a frame, as far as the extractors read them. *)
Inductive frame_object : Type :=
| EventHeader (h : I3EventHeader)
| Particle (p : I3Particle)
| MCTree (particles : list I3Particle)
| Double (value : pyval)                          (* an object with [.value] *)
| MapStringDouble (items : list (string * pyval)) (* I3MCWeightDict and the like *)
| Opaque.

Definition i3frame : Type := list (string * frame_object).

(** [frame[key]] *)
Definition frame_get (frame : i3frame) (key : string) : attempt frame_object :=
  match assoc key frame with
  | Some o => Returned o
  | None => Raising (Builtin KeyError)
  end.

(** [o.value] *)
Definition dot_value (o : frame_object) : attempt pyval :=
  match o with
  | Double v => Returned v
  | _ => Raising AttributeError
  end.

(** [o[key]] for a map of the frame *)
Definition map_get (o : frame_object) (key : string) : attempt pyval :=
  match o with
  | MapStringDouble items =>
      match assoc key items with
      | Some v => Returned v
      | None => Raising (Builtin KeyError)
      end
  | _ => Raising TypeError
  end.

(** [o[0]] for [frame['I3MCTree']] *)
Definition tree_first (o : frame_object) : attempt frame_object :=
  match o with
  | MCTree (p :: _) => Returned (Particle p)
  | MCTree [] => Raising (Builtin IndexError)
  | _ => Raising TypeError
  end.

(** [sub in s] for strings *)
Fixpoint contains (sub s : string) : bool :=
  String.prefix sub s ||
  match s with
  | EmptyString => false
  | String _ s' => contains sub s'
  end.

Definition find_data_type (mc : bool) (input_file : string) : string :=
  let sim_type := if Bool.eqb mc false then "data" else "NuGen" in
  let sim_type := if contains "muon" input_file then "muongun" else sim_type in
  let sim_type := if contains "corsika" input_file then "corsika" else sim_type in
  let sim_type := if contains "genie" input_file then "genie" else sim_type in
  let sim_type := if contains "noise" input_file then "noise" else sim_type in
  sim_type.

(** [d.update(u)] on dicts kept in insertion order *)
Definition dict_update {V : Type} (d u : list (string * V)) : list (string * V) :=
  fold_left (fun acc kv => put_assoc (fst kv) (snd kv) acc) u d.

(** The keys of the frame that [I3RetroExtractor] copies, with the names
    it gives them (lines 255-274). *)
Definition retro_fields : list (string * string) :=
  [("azimuth_retro", "L7_reconstructed_azimuth");
   ("time_retro", "L7_reconstructed_time");
   ("energy_retro", "L7_reconstructed_total_energy");
   ("position_x_retro", "L7_reconstructed_vertex_x");
   ("position_y_retro", "L7_reconstructed_vertex_y");
   ("position_z_retro", "L7_reconstructed_vertex_z");
   ("interaction_time_retro", "L7_reconstructed_time");
   ("zenith_retro", "L7_reconstructed_zenith");
   ("azimuth_sigma", "L7_retro_crs_prefit__azimuth_sigma_tot");
   ("position_x_sigma", "L7_retro_crs_prefit__x_sigma_tot");
   ("position_y_sigma", "L7_retro_crs_prefit__y_sigma_tot");
   ("position_z_sigma", "L7_retro_crs_prefit__z_sigma_tot");
   ("time_sigma", "L7_retro_crs_prefit__time_sigma_tot");
   ("zenith_sigma", "L7_retro_crs_prefit__zenith_sigma_tot");
   ("energy_sigma", "L7_retro_crs_prefit__energy_sigma_tot");
   ("cascade_energy_retro", "L7_reconstructed_cascade_energy");
   ("track_energy_retro", "L7_reconstructed_track_energy");
   ("track_length_retro", "L7_reconstructed_track_length")].

Definition classifiers : list string :=
  ["L7_MuonClassifier_FullSky_ProbNu"; "L4_MuonClassifier_Data_ProbNu";
   "L4_NoiseClassifier_ProbNu"; "L7_PIDClassifier_FullSky_ProbTrack"].

(** The items of a dict display [{k: frame[key].value, ...}], evaluated
    in order. *)
Fixpoint frame_values (frame : i3frame) (fields : list (string * string))
  : attempt (list (string * pyval)) :=
  match fields with
  | [] => Returned []
  | (k, key) :: rest =>
      attempt_bind (frame_get frame key) (fun o =>
      attempt_bind (dot_value o) (fun v =>
      attempt_bind (frame_values frame rest) (fun items =>
      Returned ((k, v) :: items))))
  end.

Section Extractors.

(** [frame_has_key] is imported from [.utils]; the extractors are
    modelled for any such function: it is a parameter here. *)
Variable frame_has_key : i3frame -> string -> bool.

Definition frame_contains_retro (frame : i3frame) : bool :=
  frame_has_key frame "L7_reconstructed_zenith".

Definition frame_contains_classifiers (frame : i3frame) : bool :=
  frame_has_key frame "L4_MuonClassifier_Data_ProbNu".

Definition frame_is_montecarlo (frame : i3frame) : bool :=
  frame_has_key frame "MCInIcePrimary" || frame_has_key frame "I3MCTree".

Definition frame_is_noise (frame : i3frame) : bool :=
  if frame_has_key frame "MCInIcePrimary" then false else true.

Definition frame_is_lvl7 (frame : i3frame) : bool :=
  frame_has_key frame "L7_reconstructed_zenith".

(** The primary particle ([None] for noise), the interaction type and the
    elasticity. *)
Definition get_primary_particle_interaction_type_and_elasticity
  (frame : i3frame) (sim_type : string) (padding_value : pyval)
  : attempt (option frame_object * pyval * pyval) :=
  attempt_bind
    (if negb (String.eqb sim_type "noise")
     then match frame_get frame "MCInIcePrimary" with
          | Returned o => Returned (Some o)
          | Raising _ =>
              attempt_bind (frame_get frame "I3MCTree") (fun tree =>
              attempt_bind (tree_first tree) (fun p => Returned (Some p)))
          end
     else Returned None)
    (fun MCInIcePrimary =>
  let interaction_type :=
    match attempt_bind (frame_get frame "I3MCWeightDict")
                       (fun d => map_get d "InteractionType") with
    | Returned v => v
    | Raising _ => padding_value
    end in
  let elasticity :=
    match attempt_bind (frame_get frame "I3GENIEResultDict")
                       (fun d => map_get d "y") with
    | Returned v => v
    | Raising _ => padding_value
    end in
  Returned (MCInIcePrimary, interaction_type, elasticity)).

(** The attributes of [MCInIcePrimary] that the truth extractor reads;
    [None] has none of them. *)
Definition particle_of (o : option frame_object) : attempt I3Particle :=
  match o with
  | Some (Particle p) => Returned p
  | _ => Raising AttributeError
  end.

Definition header_of (o : frame_object) : attempt I3EventHeader :=
  match o with
  | EventHeader h => Returned h
  | _ => Raising AttributeError
  end.

(** [I3TruthExtractor.__call__]; [i3_file] is [self._i3_file]. *)
Definition I3TruthExtractor_call (i3_file : string) (frame : i3frame)
  (padding_value : pyval) : attempt extraction :=
  let is_mc := frame_is_montecarlo frame in
  let is_noise := frame_is_noise frame in
  let sim_type := find_data_type is_mc i3_file in
  attempt_bind (attempt_bind (frame_get frame "I3EventHeader") header_of)
    (fun header =>
  let output :=
    [("energy", padding_value);
     ("position_x", padding_value);
     ("position_y", padding_value);
     ("position_z", padding_value);
     ("interaction_time", padding_value);
     ("azimuth", padding_value);
     ("zenith", padding_value);
     ("pid", padding_value);
     ("event_time", utc_daq_time header);
     ("sim_type", PyStr sim_type);
     ("interaction_type", padding_value);
     ("elasticity", padding_value);
     ("RunID", run_id header);
     ("SubrunID", sub_run_id header);
     ("EventID", event_id header);
     ("SubEventID", sub_event_id header)] in
  if Bool.eqb is_mc true && Bool.eqb is_noise false
  then
    attempt_bind
      (get_primary_particle_interaction_type_and_elasticity frame sim_type
         (PyNum (-1)))
      (fun triple =>
    let '(MCInIcePrimary, interaction_type, elasticity) := triple in
    attempt_bind (particle_of MCInIcePrimary) (fun p =>
    Returned (Scalars (dict_update output
      [("energy", energy p);
       ("position_x", pos_x p);
       ("position_y", pos_y p);
       ("position_z", pos_z p);
       ("interaction_time", time p);
       ("azimuth", dir_azimuth p);
       ("zenith", dir_zenith p);
       ("pid", pdg_encoding p);
       ("interaction_type", interaction_type);
       ("elasticity", elasticity)]))))
  else Returned (Scalars output)).

(** Lines 277-281: the classifiers the frame has, in turn. *)
Fixpoint add_classifiers (frame : i3frame) (names : list string)
  (output : list (string * pyval)) : attempt (list (string * pyval)) :=
  match names with
  | [] => Returned output
  | classifier :: rest =>
      if frame_has_key frame classifier
      then attempt_bind (frame_get frame classifier) (fun o =>
           attempt_bind (dot_value o) (fun v =>
           add_classifiers frame rest (dict_update output [(classifier, v)])))
      else add_classifiers frame rest output
  end.

(** [I3RetroExtractor.__call__] *)
Definition I3RetroExtractor_call (frame : i3frame) : attempt extraction :=
  let output := [] in
  attempt_bind
    (if frame_contains_retro frame
     then attempt_bind (frame_values frame retro_fields) (fun items =>
          Returned (dict_update output items))
     else Returned output)
    (fun output =>
  attempt_bind
    (if frame_contains_classifiers frame
     then add_classifiers frame classifiers output
     else Returned output)
    (fun output =>
  attempt_bind
    (if frame_is_montecarlo frame
     then if frame_contains_retro frame
          then attempt_bind (frame_get frame "I3MCWeightDict") (fun d =>
               attempt_bind (map_get d "weight") (fun w =>
               Returned (dict_update output [("osc_weight", w)])))
          else Returned (dict_update output [("osc_weight", PyNum (-1))])
     else Returned output)
    (fun output => Returned (Scalars output)))).

End Extractors.

(** A pulse of a pulse series. *)
Record pulse : Type := {
  charge : pyval;
  pulse_time : pyval;
  width : pyval
}.

(** [self._gcd_dict[om_key]], with [position] flattened. *)
Record om_geo : Type := {
  position_x : pyval;
  position_y : pyval;
  position_z : pyval;
  area : pyval
}.

(** An OMKey: string, om and pmt number. *)
Definition om_key : Type := (Z * Z * Z)%type.

Definition om_key_eqb (a b : om_key) : bool :=
  let '(a1, a2, a3) := a in
  let '(b1, b2, b3) := b in
  (a1 =? b1) && (a2 =? b2) && (a3 =? b3).

(** [d[om_key]] for a map keyed by OMKeys *)
Fixpoint om_get {V : Type} (d : list (om_key * V)) (k : om_key) : attempt V :=
  match d with
  | [] => Raising (Builtin KeyError)
  | (k', v) :: d' => if om_key_eqb k k' then Returned v else om_get d' k
  end.

(** [output[key].append(v)] *)
Fixpoint append_to (key : string) (v : pyval) (output : list (string * list pyval))
  : list (string * list pyval) :=
  match output with
  | [] => []
  | (k, l) :: rest =>
      if String.eqb key k then (k, l ++ [v]) :: rest
      else (k, l) :: append_to key v rest
  end.

(** Lines 137-145: the pulses of one OM. *)
Definition append_pulses (x y z area rde : pyval) (pulses : list pulse)
  (output : list (string * list pyval)) : list (string * list pyval) :=
  fold_left
    (fun output pulse =>
       let output := append_to "charge" (charge pulse) output in
       let output := append_to "dom_time" (pulse_time pulse) output in
       let output := append_to "width" (width pulse) output in
       let output := append_to "pmt_area" area output in
       let output := append_to "rde" rde output in
       let output := append_to "dom_x" x output in
       let output := append_to "dom_y" y output in
       let output := append_to "dom_z" z output in
       output)
    pulses output.

(** Lines 124-145: the loop over the OMs.  [calibration] is
    [frame["I3Calibration"].dom_cal], reduced to [relative_dom_eff], when
    the frame has that key at this point, that is, after
    [_get_om_keys_and_pulseseries], which may have added it. *)
Fixpoint append_oms (gcd_dict : list (om_key * om_geo))
  (calibration : option (list (om_key * pyval)))
  (data : list (om_key * list pulse)) (output : list (string * list pyval))
  : attempt (list (string * list pyval)) :=
  match data with
  | [] => Returned output
  | (om, pulses) :: rest =>
      attempt_bind (om_get gcd_dict om) (fun geo =>
      attempt_bind
        (match calibration with
         | Some dom_cal => om_get dom_cal om
         | None => Returned (PyNum (-1))
         end)
        (fun rde =>
      append_oms gcd_dict calibration rest
        (append_pulses (position_x geo) (position_y geo) (position_z geo)
                       (area geo) rde pulses output)))
  end.

(** [I3FeatureExtractorIceCube86.__call__].  What
    [self._get_om_keys_and_pulseseries(frame)] does depends on the
    icecube objects of the frame and is an argument: the pulse series by
    OM, or the exception. *)
Definition I3FeatureExtractorIceCube86_call
  (om_keys_and_pulseseries : attempt (list (om_key * list pulse)))
  (gcd_dict : list (om_key * om_geo))
  (calibration : option (list (om_key * pyval))) : attempt extraction :=
  let output :=
    [("charge", []); ("dom_time", []); ("dom_x", []); ("dom_y", []);
     ("dom_z", []); ("width", []); ("pmt_area", []); ("rde", [])] in
  match om_keys_and_pulseseries with
  | Raising (Builtin KeyError) => Returned (Lists output)
  | Raising e => Raising e
  | Returned data =>
      attempt_bind (append_oms gcd_dict calibration data output)
        (fun output => Returned (Lists output))
  end.

(** The keys of the truth dict. *)
Definition truth_keys : list string :=
  ["energy"; "position_x"; "position_y"; "position_z"; "interaction_time";
   "azimuth"; "zenith"; "pid"; "event_time"; "sim_type"; "interaction_type";
   "elasticity"; "RunID"; "SubrunID"; "EventID"; "SubEventID"].

(** The keys of the feature dict. *)
Definition feature_keys : list string :=
  ["charge"; "dom_time"; "dom_x"; "dom_y"; "dom_z"; "width"; "pmt_area"; "rde"].

(** [rde] of an OM (lines 130-133). *)
Definition rde_of (calibration : option (list (om_key * pyval))) (om : om_key)
  : attempt pyval :=
  match calibration with
  | Some dom_cal => om_get dom_cal om
  | None => Returned (PyNum (-1))
  end.

(** The pulses of a pulse series map in order, each with the geometry and
    the efficiency of its OM. *)
Definition pulses_of (gcd_dict : list (om_key * om_geo))
  (calibration : option (list (om_key * pyval)))
  (data : list (om_key * list pulse)) : list (om_geo * pyval * pulse) :=
  flat_map
    (fun kv =>
       match om_get gcd_dict (fst kv), rde_of calibration (fst kv) with
       | Returned geo, Returned rde => map (fun p => (geo, rde, p)) (snd kv)
       | _, _ => []
       end)
    data.

(** The row of one pulse, in the order of [feature_keys]. *)
Definition feature_row (t : om_geo * pyval * pulse) : list pyval :=
  let '(geo, rde, p) := t in
  [charge p; pulse_time p; position_x geo; position_y geo; position_z geo;
   width p; area geo; rde].

(** The feature dict that holds the given pulses. *)
Definition feature_columns (rows : list (om_geo * pyval * pulse))
  : list (string * list pyval) :=
  [("charge", map (fun t => charge (snd t)) rows);
   ("dom_time", map (fun t => pulse_time (snd t)) rows);
   ("dom_x", map (fun t => position_x (fst (fst t))) rows);
   ("dom_y", map (fun t => position_y (fst (fst t))) rows);
   ("dom_z", map (fun t => position_z (fst (fst t))) rows);
   ("width", map (fun t => width (snd t)) rows);
   ("pmt_area", map (fun t => area (fst (fst t))) rows);
   ("rde", map (fun t => snd (fst t)) rows)].

(** ** Examples of frames *)

(** Three input files and their GCD files. *)
Definition ex_files : list i3file :=
  [I3File [PopFrame (Ok ex_frame)]; I3File []; I3File [PopFalsy]].

Definition ex_gcds : list string := ["gcd0.i3"; "gcd1.i3"; "gcd2.i3"].

(** The settings of the two workers that share them. *)
Definition ex_workers : list settings :=
  match _process_files_settings ex_self ex_files ex_gcds with
  | Ok ss => ss
  | Err _ => []
  end.

(** A frame has the keys it gives an object for. *)
Definition ex_frame_has_key (frame : i3frame) (key : string) : bool :=
  match assoc key frame with
  | Some _ => true
  | None => false
  end.

Definition ex_header : I3EventHeader :=
  {| utc_daq_time := PyNum 100; run_id := PyNum 1; sub_run_id := PyNum 0;
     event_id := PyNum 7; sub_event_id := PyNum 0 |}.

Definition ex_particle : I3Particle :=
  {| energy := PyNum 10; pos_x := PyNum 1; pos_y := PyNum 2; pos_z := PyNum 3;
     time := PyNum 4; dir_azimuth := PyNum 5; dir_zenith := PyNum 6;
     pdg_encoding := PyNum 14 |}.

(** A simulated event without reconstruction. *)
Definition ex_mc_frame : i3frame :=
  [("I3EventHeader", EventHeader ex_header);
   ("MCInIcePrimary", Particle ex_particle)].

Definition ex_geo : om_geo :=
  {| position_x := PyNum 5; position_y := PyNum 6; position_z := PyNum 7;
     area := PyNum 1 |}.

(** Two pulses on one OM, one on another. *)
Definition ex_pulseseries : list (om_key * list pulse) :=
  [((1, 1, 0), [{| charge := PyNum 1; pulse_time := PyNum 10; width := PyNum 8 |};
                {| charge := PyNum 2; pulse_time := PyNum 11; width := PyNum 8 |}]);
   ((1, 2, 0), [{| charge := PyNum 3; pulse_time := PyNum 12; width := PyNum 8 |}])].

Definition ex_gcd_dict : list (om_key * om_geo) :=
  [((1, 1, 0), ex_geo); ((1, 2, 0), ex_geo)].

(* ================================================================== *)
(** * Properties *)

(** ** The identifier ranges of the workers *)

Lemma map_nth_seq {A} (l : list A) (d : A) :
  map (fun i => nth i l d) (seq 0 (List.length l)) = l.
Proof.
  induction l as [|x l IH]; simpl; [reflexivity|].
  f_equal. rewrite <- seq_shift, map_map. exact IH.
Qed.

Lemma split_by_points {T} (f : Z -> Z -> T) (a : Z) (sizes : list Z) :
  map (fun i => f (nth i (a :: cumsum_from a sizes) 0)
                  (nth (S i) (a :: cumsum_from a sizes) 0))
      (seq 0 (List.length sizes))
  = map (fun r => f (start r) (stop r)) (chain a sizes).
Proof.
  revert a. induction sizes as [|s ss IH]; intros a; simpl; [reflexivity|].
  f_equal. rewrite <- seq_shift, map_map. 
  specialize (IH (a + s)). simpl in IH. exact IH.
Qed.

Lemma sum_nonneg l : Forall (fun s => 0 <= s) l -> 0 <= sum l.
Proof. induction 1; simpl; lia. Qed.

Lemma chain_bounds a sizes r :
  Forall (fun s => 0 <= s) sizes -> In r (chain a sizes) ->
  a <= start r /\ start r <= stop r /\ stop r <= a + sum sizes /\
  In (range_len r) sizes.
Proof.
  revert a. induction sizes as [|s ss IH]; intros a Hs Hin; simpl in *; [tauto|].
  inversion Hs as [|? ? Hs0 Hss]; subst.
  pose proof (sum_nonneg _ Hss).
  destruct Hin as [<-|Hin].
  - unfold range_len; simpl. repeat split; lia.
  - destruct (IH _ Hss Hin) as (H1 & H2 & H3 & H4). 
    repeat split; try lia. now right.
Qed.

Lemma chain_cover a sizes x :
  Forall (fun s => 0 <= s) sizes ->
  (exists r, In r (chain a sizes) /\ in_range x r) <-> a <= x < a + sum sizes.
Proof.
  revert a. induction sizes as [|s ss IH]; intros a Hs; simpl.
  - split; [intros (r & [] & _)|lia].
  - inversion Hs as [|? ? Hs0 Hss]; subst.
    pose proof (sum_nonneg _ Hss).
    split.
    + intros (r & [<-|Hin] & Hx).
      * unfold in_range in Hx; simpl in Hx. lia.
      * assert (a + s <= x < a + s + sum ss) by (apply IH; eauto). lia.
    + intros Hx. destruct (Z_lt_dec x (a + s)).
      * eexists; split; [left; reflexivity|]. unfold in_range; simpl; lia.
      * destruct (proj2 (IH (a + s) Hss)) as (r & Hin & Hr); [lia|].
        exists r; split; [now right|exact Hr].
Qed.

Lemma chain_disjoint a sizes i j ri rj x :
  Forall (fun s => 0 <= s) sizes ->
  nth_error (chain a sizes) i = Some ri ->
  nth_error (chain a sizes) j = Some rj ->
  i <> j -> ~ (in_range x ri /\ in_range x rj).
Proof.
  revert a i j. induction sizes as [|s ss IH]; intros a i j Hs Hi Hj Hij.
  - destruct i; discriminate.
  - inversion Hs as [|? ? Hs0 Hss]; subst.
    destruct i as [|i], j as [|j]; simpl in Hi, Hj; try congruence.
    + injection Hi as <-. apply nth_error_In in Hj.
      destruct (chain_bounds _ _ _ Hss Hj) as (H1 & _).
      unfold in_range; simpl. lia.
    + injection Hj as <-. apply nth_error_In in Hi.
      destruct (chain_bounds _ _ _ Hss Hi) as (H1 & _).
      unfold in_range; simpl. lia.
    + eapply IH; eauto.
Qed.

Lemma sum_app l1 l2 : sum (l1 ++ l2) = sum l1 + sum l2.
Proof. induction l1; simpl; lia. Qed.

Lemma sum_repeat x n : sum (repeat x n) = Z.of_nat n * x.
Proof.
  induction n; [reflexivity|].
  cbn [repeat sum fold_right] in *. unfold sum in IHn. lia.
Qed.

Lemma even_sizes_length N k : 0 < k -> List.length (even_sizes N k) = Z.to_nat k.
Proof.
  intros Hk. unfold even_sizes. rewrite length_app, !repeat_length.
  pose proof (Z.mod_pos_bound N k Hk). lia.
Qed.

Lemma even_sizes_sum N k : 0 < k -> sum (even_sizes N k) = N.
Proof.
  intros Hk. unfold even_sizes. rewrite sum_app, !sum_repeat.
  pose proof (Z.mod_pos_bound N k Hk).
  pose proof (Z.div_mod N k ltac:(lia)).
  rewrite !Z2Nat.id by lia. nia.
Qed.

Lemma even_sizes_In N k s :
  In s (even_sizes N k) -> s = N / k \/ s = N / k + 1.
Proof.
  unfold even_sizes. rewrite in_app_iff.
  intros [H|H]; apply repeat_spec in H; auto.
Qed.

Lemma even_sizes_nonneg N k :
  0 < k -> 0 <= N -> Forall (fun s => 0 <= s) (even_sizes N k).
Proof.
  intros Hk HN. apply Forall_forall. intros s Hs.
  apply even_sizes_In in Hs.
  pose proof (Z.div_pos N k HN Hk). lia.
Qed.

Lemma array_split_arange (N k : Z) :
  0 <= N -> 0 < k ->
  array_split (np_arange 0 N) k = Ok (chain 0 (even_sizes N k)).
Proof.
  intros HN Hk. unfold array_split.
  destruct (Z.leb_spec k 0) as [?|_]; [lia|]. f_equal.
  assert (Hsize : size (np_arange 0 N) = N).
  { cbn. unfold range_len; simpl. lia. }
  rewrite Hsize. unfold section_sizes. fold (even_sizes N k).
  unfold cumsum. cbn [app cumsum_from]. rewrite Z.add_0_l.
  rewrite <- (even_sizes_length N k Hk).
  rewrite split_by_points.
  rewrite <- (map_id (chain 0 (even_sizes N k))) at 2.
  apply map_ext_in. intros r Hr.
  destruct (chain_bounds _ _ _ (even_sizes_nonneg N k Hk HN) Hr) as (H1 & H2 & H3 & _).
  rewrite even_sizes_sum in H3 by assumption.
  destruct r as [a b]; simpl in *. cbn. unfold range_slice, range_len; simpl.
  f_equal; lia.
Qed.

Lemma chain_length a sizes : List.length (chain a sizes) = List.length sizes.
Proof. revert a; induction sizes; intros; simpl; auto. Qed.

Lemma settings_event_nos (self : SQLiteDataConverter) i3_files gcds ss :
  _process_files_settings self i3_files gcds = Ok ss ->
  let workers := Z.min (_workers self) (Z.of_nat (List.length i3_files)) in
  0 < workers /\ List.length ss = Z.to_nat workers /\
  map event_no_list ss = chain 0 (even_sizes 99999999 workers).
Proof.
  intros H workers. unfold _process_files_settings in H. fold workers in H.
  destruct (Z_lt_dec 0 workers) as [Hw|Hw].
  - rewrite array_split_arange in H by lia. cbn [result_bind] in H.
    unfold array_split in H.
    destruct (Z.leb_spec workers 0) as [?|_]; [lia|]. cbn [result_bind] in H.
    injection H as <-. split; [assumption|]. split.
    + now rewrite length_map, length_seq.
    + rewrite map_map. cbn [event_no_list].
      rewrite <- (even_sizes_length 99999999 workers Hw).
      rewrite <- (chain_length 0). apply map_nth_seq.
  - unfold array_split in H at 1.
    destruct (Z.leb_spec workers 0) as [_|?]; [|lia]. discriminate.
Qed.

(** C2.  [_process_files] runs with [min(self._workers, len(i3_files))]
    workers.  When that number is not positive [array_split] raises
    ValueError and no worker is set up.  Otherwise every worker gets one
    range of consecutive integers [start, stop); the ranges of two distinct
    workers have no identifier in common, together they are exactly the
    identifiers 0 .. 99999998, and their lengths differ by at most one. *)
Theorem event_no_ranges_partition (self : SQLiteDataConverter)
  (i3_files : list i3file) (gcds : list string) :
  let workers := Z.min (_workers self) (Z.of_nat (List.length i3_files)) in
  match _process_files_settings self i3_files gcds with
  | Err e => workers <= 0 /\ e = ValueError
  | Ok ss =>
      let ranges := map event_no_list ss in
      0 < workers /\ Z.of_nat (List.length ranges) = workers /\
      (forall r, In r ranges -> start r <= stop r) /\
      (forall i j ri rj x,
          nth_error ranges i = Some ri -> nth_error ranges j = Some rj ->
          i <> j -> ~ (in_range x ri /\ in_range x rj)) /\
      (forall x, (exists r, In r ranges /\ in_range x r) <-> 0 <= x < 99999999) /\
      (forall r r', In r ranges -> In r' ranges ->
                    Z.abs (range_len r - range_len r') <= 1)
  end.
Proof.
  intros workers.
  destruct (_process_files_settings self i3_files gcds) as [ss|e] eqn:E.
  - pose proof (settings_event_nos _ _ _ _ E) as HE. cbv zeta in HE.
    destruct HE as (Hw & Hlen & Hr).
    fold workers in Hw, Hlen, Hr. cbv zeta. rewrite Hr.
    pose proof (even_sizes_nonneg 99999999 workers Hw ltac:(lia)) as Hnn.
    split; [assumption|]. split.
    { rewrite chain_length, even_sizes_length by assumption. lia. }
    split.
    { intros r Hin. now destruct (chain_bounds _ _ _ Hnn Hin) as (_ & ? & _). }
    split.
    { intros i j ri rj x Hi Hj Hij. eapply chain_disjoint; eauto. }
    split.
    { intros x. rewrite (chain_cover 0 _ x Hnn).
      rewrite even_sizes_sum by assumption. lia. }
    intros r r' Hin Hin'.
    destruct (chain_bounds _ _ _ Hnn Hin) as (_ & _ & _ & Hs).
    destruct (chain_bounds _ _ _ Hnn Hin') as (_ & _ & _ & Hs').
    apply even_sizes_In in Hs, Hs'. lia.
  - unfold _process_files_settings in E. fold workers in E.
    unfold array_split in E.
    destruct (Z.leb_spec workers 0) as [Hle|Hlt].
    + cbn in E. injection E as <-. split; [assumption|reflexivity].
    + cbn in E. discriminate.
Qed.

(** ** The worker: buffering and flushing *)

Lemma len_df_append a b : len (df_append a b) = (len a + len b)%nat.
Proof.
  unfold len, df_append, reindex; simpl.
  now rewrite length_app, !length_map.
Qed.

Lemma cell_set_column_new cols row c v :
  index_of c cols = None -> List.length row = List.length cols ->
  cell (cols ++ [c]) (row ++ [v]) c = v.
Proof.
  unfold cell. revert row. induction cols as [|c' cols IH]; intros row Hc Hlen.
  - destruct row; [|discriminate]. simpl. now rewrite String.eqb_refl.
  - destruct row as [|x row]; [discriminate|]. simpl in *.
    destruct (String.eqb c c'); [discriminate|].
    destruct (index_of c cols) eqn:E; [discriminate|].
    specialize (IH row eq_refl ltac:(lia)).
    destruct (index_of c (cols ++ [c])); simpl; [exact IH|exact IH].
Qed.

Lemma cell_set_column_old cols row c v i :
  index_of c cols = Some i -> List.length row = List.length cols ->
  cell cols (set_nth i v row) c = v.
Proof.
  unfold cell. intros Hc. rewrite Hc. revert row i Hc.
  induction cols as [|c' cols IH]; intros row i Hc Hlen; [discriminate|].
  destruct row as [|x row]; [discriminate|]. simpl in *.
  destruct (String.eqb c c').
  - injection Hc as <-. reflexivity.
  - destruct (index_of c cols) eqn:E; [|discriminate].
    injection Hc as <-. simpl. apply (IH row n eq_refl). lia.
Qed.

(** A non-empty dict of scalars becomes one row that carries the
    identifier. *)
Lemma apply_event_no_scalars items r k :
  items <> [] -> Z.of_nat k < range_len r ->
  exists cols row,
    apply_event_no (Scalars items) r k = Ok {| columns := cols; data := [row] |} /\
    cell cols row "event_no" = PyNum (start r + Z.of_nat k).
Proof.
  intros Hne Hk. unfold apply_event_no, range_item.
  destruct (Z.ltb_spec (Z.of_nat k) (range_len r)) as [_|?]; [|lia].
  cbn [result_bind]. destruct items as [|kv items]; [congruence|].
  cbn [frame_of]. unfold set_column. cbn [columns data].
  destruct (index_of "event_no" (map fst (kv :: items))) as [i|] eqn:E.
  - do 2 eexists. split; [reflexivity|].
    apply cell_set_column_old; [exact E|]. now rewrite !length_map.
  - do 2 eexists. split; [reflexivity|].
    apply cell_set_column_new; [exact E|]. now rewrite !length_map.
Qed.

Lemma apply_event_no_ok e r k :
  Z.of_nat k < range_len r ->
  exists df, apply_event_no e r k = Ok df.
Proof.
  intros Hk. unfold apply_event_no, range_item.
  destruct (Z.ltb_spec (Z.of_nat k) (range_len r)) as [_|?]; [|lia].
  eexists; reflexivity.
Qed.

(** [is_empty] holds exactly of a dict that has the scalar [None] in
    dom_x. *)
Lemma is_empty_true (features : extraction) :
  is_empty features = Ok true <->
  exists items, features = Scalars items /\ assoc "dom_x" items = Some PyNone.
Proof.
  split.
  - destruct features as [items|items]; cbn.
    + destruct (assoc "dom_x" items) as [[| |]|] eqn:E; try discriminate.
      intros _. now exists items.
    + destruct (assoc "dom_x" items); discriminate.
  - intros (items & -> & H). cbn. now rewrite H.
Qed.

(** C4.  A frame whose features are empty for [is_empty], that is, have
    [None] in dom_x, adds nothing to the feature buffer.  The truth buffer
    still gets the frame's one row, tagged with the identifier
    [event_no_list[event_counter]], and the event counter moves on by one.
    The truth dict is a non-empty dict of scalars, as [I3TruthExtractor]
    returns it, and the worker's range has an identifier left. *)
Theorem empty_features_leave_feature_buffer (s : settings) (fr : frame)
  (l : locals) (titems : list (string * pyval)) :
  is_empty (features fr) = Ok true ->
  truths fr = Scalars titems -> titems <> [] ->
  Z.of_nat (event_counter l) < range_len (event_no_list s) ->
  exists l' cols row,
    buffer_frame s fr l = Ok l' /\
    feature_big l' = feature_big l /\
    truth_big l' = df_append (truth_big l) {| columns := cols; data := [row] |} /\
    cell cols row "event_no"
      = PyNum (start (event_no_list s) + Z.of_nat (event_counter l)) /\
    len (truth_big l') = S (len (truth_big l)) /\
    event_counter l' = S (event_counter l).
Proof.
  intros Hempty Ht Hne Hk. unfold buffer_frame. rewrite Ht.
  destruct (apply_event_no_scalars titems _ _ Hne Hk) as (cols & row & Ha & Hcell).
  rewrite Ha. cbn [result_bind].
  destruct (apply_event_no_ok (retros fr) _ _ Hk) as (rdf & Hr). rewrite Hr.
  rewrite Hempty.
  destruct (0 <? dict_len (retros fr))%nat; cbn [result_bind negb];
    (eexists; exists cols, row; split; [reflexivity|];
     cbn [feature_big truth_big event_counter];
     repeat split; try assumption; rewrite len_df_append; unfold len; simpl; lia).
Qed.

(** The loop keeps the truth buffer below the maximum. *)
Lemma pop_and_extract_below_max self s l p kill fs fs' kill' l' :
  0 < max_dict_size s ->
  Z.of_nat (len (truth_big l)) < max_dict_size s ->
  pop_and_extract self s l p kill fs = (fs', kill', Done l') ->
  Z.of_nat (len (truth_big l')) < max_dict_size s.
Proof.
  intros Hm Hl. destruct p as [| |[fr|e]]; cbn; unfold ret, raise.
  - intros [= <- <- <-]; assumption.
  - intros [= <- <- <-]; assumption.
  - destruct (buffer_frame s fr l) as [l1|e]; cbn; [|discriminate].
    unfold flush_if_full.
    destruct (Z.leb_spec (max_dict_size s) (Z.of_nat (len (truth_big l1)))).
    + unfold bind. destruct (save_to_sql _ _ _ _ _ _ kill fs) as [[fs1 kill1] [[]| |]];
        try discriminate.
      unfold ret. intros [= <- <- <-]. cbn. lia.
    + unfold ret. intros [= <- <- <-]. assumption.
  - discriminate.
Qed.

(** ** Loops of a [process] *)

Lemma bind_ext {A B} (m : process A) (f g : A -> process B) kill fs :
  (forall a kill' fs', f a kill' fs' = g a kill' fs') ->
  bind m f kill fs = bind m g kill fs.
Proof.
  intros H. unfold bind. destruct (m kill fs) as [[fs' kill'] [a| |]]; auto.
Qed.

Lemma bind_ext_l {A B} (m m' : process A) (f : A -> process B) kill fs :
  m kill fs = m' kill fs -> bind m f kill fs = bind m' f kill fs.
Proof. intros H. unfold bind. now rewrite H. Qed.

Lemma fold_process_ext {A S} (l : list A) (body body' : S -> A -> process S) :
  (forall s x kill fs, In x l -> body s x kill fs = body' s x kill fs) ->
  forall s kill fs, fold_process l body s kill fs = fold_process l body' s kill fs.
Proof.
  induction l as [|x l IH]; intros H s kill fs; [reflexivity|].
  cbn [fold_process].
  rewrite (bind_ext_l _ (body' s x)) by (apply H; now left).
  apply bind_ext. intros. apply IH. intros. apply H. now right.
Qed.

Lemma fold_process_inv {A S} (I : S -> Prop) (body : S -> A -> process S)
  (l : list A) :
  (forall s x kill fs fs' kill' s',
      In x l -> I s -> body s x kill fs = (fs', kill', Done s') -> I s') ->
  forall s kill fs fs' kill' s',
    I s -> fold_process l body s kill fs = (fs', kill', Done s') -> I s'.
Proof.
  induction l as [|x l IH]; intros H s kill fs fs' kill' s' Hs.
  - cbn. unfold ret. now intros [= <- <- <-].
  - cbn [fold_process]. unfold bind at 1.
    destruct (body s x kill fs) as [[fs1 kill1] [s1| |]] eqn:E; try discriminate.
    apply IH; [intros; eapply H; eauto; now right|].
    eapply H; eauto. now left.
Qed.

(** ** Records whose read raises *)

Lemma raising_records_skipped self s records :
  forall l kill fs,
    fold_process records (pop_and_extract self s) l kill fs
    = fold_process (filter (fun p => negb (is_PopRaises p)) records)
                   (pop_and_extract self s) l kill fs.
Proof.
  induction records as [|p records IH]; intros l kill fs; [reflexivity|].
  destruct p as [| |ex]; cbn [filter is_PopRaises negb fold_process].
  - cbn [pop_and_extract]. unfold bind at 1, ret at 1. apply IH.
  - apply bind_ext. intros; apply IH.
  - apply bind_ext. intros; apply IH.
Qed.

Lemma extract_file_without_raising self s l u kill fs :
  extract_file self
    (with_input_files s (map without_unreadable_records (input_files s))) l u kill fs
  = extract_file self s l u kill fs.
Proof.
  unfold extract_file. cbn [input_files gcd_files with_input_files].
  rewrite nth_error_map.
  destruct (nth_error (input_files s) u) as [[|records]|];
    cbn [option_map without_unreadable_records];
    destruct (nth_error (gcd_files s) u); try reflexivity.
  apply bind_ext_l.
  rewrite (raising_records_skipped self s records).
  apply fold_process_ext. intros. reflexivity.
Qed.

(** C8 (amended).  A record whose read raises is skipped and reading goes
    on with the records that follow: the worker ends exactly as it does on
    the same files without these records, with the same files on disk, the
    same local variables and the same outcome.  No count of the skipped
    records is kept. *)
Theorem raising_records_leave_no_trace (self : SQLiteDataConverter) (s : settings)
  (kill : option nat) (fs : filesystem) :
  _parallel_extraction self s kill fs
  = _parallel_extraction self
      (with_input_files s (map without_unreadable_records (input_files s))) kill fs.
Proof.
  unfold _parallel_extraction. cbn [input_files with_input_files].
  rewrite length_map.
  etransitivity; [|apply bind_ext; intros; reflexivity].
  apply bind_ext_l. apply fold_process_ext. intros.
  symmetry. apply extract_file_without_raising.
Qed.

(** ** The counters after a frame *)

Lemma result_bind_Ok {A B} (r : result A) (f : A -> result B) b :
  result_bind r f = Ok b -> exists a, r = Ok a /\ f a = Ok b.
Proof. destruct r; cbn; [eauto|discriminate]. Qed.

Lemma len_apply_event_no_scalars items r k df :
  items <> [] -> apply_event_no (Scalars items) r k = Ok df -> len df = 1%nat.
Proof.
  intros Hne H. unfold apply_event_no in H.
  apply result_bind_Ok in H. destruct H as (no & _ & [= <-]).
  destruct items as [|kv items]; [congruence|].
  cbn [frame_of]. unfold set_column, len. cbn [columns data].
  destruct (index_of _ _); reflexivity.
Qed.

Lemma buffer_frame_counts s fr l l1 :
  one_truth_row fr -> buffer_frame s fr l = Ok l1 ->
  event_counter l1 = S (event_counter l) /\
  len (truth_big l1) = S (len (truth_big l)) /\
  output_count l1 = output_count l.
Proof.
  intros (items & Ht & Hne) H. unfold buffer_frame in H. rewrite Ht in H.
  apply result_bind_Ok in H. destruct H as (truth & Htruth & H).
  apply result_bind_Ok in H. destruct H as (rb & _ & H).
  apply result_bind_Ok in H. destruct H as (empty & _ & H).
  apply result_bind_Ok in H. destruct H as (fb & _ & [= <-]).
  cbn [event_counter truth_big output_count].
  rewrite len_df_append, (len_apply_event_no_scalars _ _ _ _ Hne Htruth).
  repeat split; lia.
Qed.

(** ** Running a [process] *)

Lemma bind_Done {A B} (m : process A) (f : A -> process B) kill fs fs' kill' b :
  bind m f kill fs = (fs', kill', Done b) ->
  exists a fs1 kill1,
    m kill fs = (fs1, kill1, Done a) /\ f a kill1 fs1 = (fs', kill', Done b).
Proof.
  unfold bind. destruct (m kill fs) as [[fs1 kill1] [a| |]]; try discriminate.
  intros H. now exists a, fs1, kill1.
Qed.

Lemma lift_Done {A} (r : result A) kill fs fs' kill' a :
  lift r kill fs = (fs', kill', Done a) -> r = Ok a /\ fs' = fs /\ kill' = kill.
Proof.
  destruct r; cbn; unfold ret, raise; intros [= <- <- <-]; auto.
Qed.

Lemma write_Done f kill fs fs' kill' u :
  write f kill fs = (fs', kill', Done u) ->
  f fs = Ok fs' /\ kill <> Some O /\ kill' = option_map Nat.pred kill.
Proof.
  unfold write. destruct kill as [[|k]|]; try discriminate;
    destruct (f fs); intros [= <- <-]; repeat split; congruence.
Qed.

Lemma write_final_Done f kill fs fs' kill' u :
  write_final f kill fs = (fs', kill', Done u) ->
  exists d, f (final fs) = Ok d /\ fs' = {| tmp := tmp fs; final := d |}.
Proof.
  unfold write_final. intros H. apply write_Done in H. destruct H as (H & _).
  destruct (f (final fs)) as [d|]; cbn in H; [|discriminate].
  injection H as <-. now exists d.
Qed.

(** ** Association lists *)

Lemma assoc_app {V} k (l1 l2 : list (string * V)) :
  assoc k (l1 ++ l2) = match assoc k l1 with
                       | Some v => Some v
                       | None => assoc k l2
                       end.
Proof.
  induction l1 as [|[k' v] l1 IH]; [reflexivity|].
  cbn. destruct (String.eqb k k'); [reflexivity|exact IH].
Qed.

Lemma mem_keys_assoc {V} k (l : list (string * V)) :
  mem k (map fst l) = match assoc k l with Some _ => true | None => false end.
Proof.
  unfold mem. induction l as [|[k' v] l IH]; [reflexivity|].
  cbn. destruct (String.eqb k k'); [reflexivity|].
  destruct (index_of k (map fst l)), (assoc k l); cbn in *; congruence.
Qed.

Lemma has_table_assoc name db :
  has_table name db = match assoc name (tables db) with
                      | Some _ => true
                      | None => false
                      end.
Proof. apply mem_keys_assoc. Qed.

Lemma mem_In k l : mem k l = true <-> In k l.
Proof.
  unfold mem. induction l as [|k' l IH]; cbn; [split; [discriminate|tauto]|].
  destruct (String.eqb_spec k k') as [->|Hne].
  - split; auto.
  - destruct (index_of k l); cbn in *; split; intros H.
    + right. now apply IH.
    + reflexivity.
    + discriminate.
    + destruct H as [H|H]; [congruence|]. now apply IH.
Qed.

(** ** Creating the final tables *)

Lemma query_columns_loop_from columns is_pulse_map n q :
  (0 < n)%nat ->
  fold_left
    (fun (st : nat * option (list (string * sqldecl))) column =>
       let (count, query_columns) := st in
       let decl :=
         if String.eqb column "event_no"
         then if Bool.eqb is_pulse_map false
              then INTEGER_PRIMARY_KEY_NOT_NULL
              else NOT_NULL
         else FLOAT in
       (S count,
        if (count =? 0)%nat
        then Some [(column, decl)]
        else option_map (fun q => q ++ [(column, decl)]) query_columns))
    columns (n, Some q)
  = ((n + List.length columns)%nat, Some (q ++ declarations columns is_pulse_map)).
Proof.
  revert n q. induction columns as [|c columns IH]; intros n q Hn.
  - cbn. now rewrite Nat.add_0_r, app_nil_r.
  - cbn [fold_left]. destruct (Nat.eqb_spec n 0) as [?|_]; [lia|].
    cbn [option_map]. rewrite IH by lia. cbn [List.length declarations map].
    f_equal; [lia|]. rewrite <- app_assoc. cbn [app]. unfold column_decl.
    now destruct is_pulse_map.
Qed.

Lemma query_columns_loop_spec columns is_pulse_map :
  snd (query_columns_loop columns is_pulse_map)
  = match columns with
    | [] => None
    | _ => Some (declarations columns is_pulse_map)
    end.
Proof.
  unfold query_columns_loop. destruct columns as [|c columns]; [reflexivity|].
  cbn [fold_left Nat.eqb]. rewrite query_columns_loop_from by lia.
  cbn. unfold column_decl. now destruct is_pulse_map.
Qed.

Lemma declarations_names columns b : map fst (declarations columns b) = columns.
Proof. unfold declarations. rewrite map_map. cbn. apply map_id. Qed.

Lemma _create_table_Done table_name columns is_pulse_map kill fs fs' kill' u :
  _create_table table_name columns is_pulse_map kill fs = (fs', kill', Done u) ->
  columns <> [] /\
  has_table table_name (final fs) = false /\
  has_dup columns = false /\
  (is_pulse_map = true -> mem "event_no" columns = true) /\
  tmp fs' = tmp fs /\
  final fs' =
    {| tables := tables (final fs) ++
         [(table_name, created_table columns is_pulse_map)];
       indexes := indexes (final fs) ++
         (if is_pulse_map then [event_no_index table_name] else []) |}.
Proof.
  unfold _create_table. rewrite query_columns_loop_spec.
  destruct columns as [|c cols] eqn:E; [discriminate|].
  rewrite <- E. assert (Hne : columns <> []) by congruence. clear E c cols.
  intros H.
  apply bind_Done in H. destruct H as ([] & fs1 & kill1 & H1 & H2).
  apply write_final_Done in H1. destruct H1 as (d & Hd & ->).
  unfold sql_create_table in Hd.
  destruct (has_table table_name (final fs)) eqn:Ht; [discriminate|].
  rewrite declarations_names in Hd.
  destruct (has_dup columns) eqn:Hdup; [discriminate|].
  injection Hd as <-.
  split; [assumption|]. split; [reflexivity|]. split; [reflexivity|].
  destruct is_pulse_map.
  - apply write_final_Done in H2. destruct H2 as (d & Hd & ->).
    unfold sql_create_index in Hd. cbn [final indexes tables] in Hd.
    destruct (mem _ (map index_name (indexes (final fs)))); [discriminate|].
    destruct (assoc table_name _) as [t|] eqn:Ha; [|discriminate].
    rewrite assoc_app in Ha. rewrite has_table_assoc in Ht.
    destruct (assoc table_name (tables (final fs))); [discriminate|].
    cbn in Ha. rewrite String.eqb_refl in Ha. injection Ha as <-.
    cbn [coldefs] in Hd. rewrite declarations_names in Hd.
    destruct (mem "event_no" columns) eqn:Hev; [|discriminate].
    injection Hd as <-. cbn. repeat split.
  - unfold ret in H2. injection H2 as <- <-. cbn.
    rewrite app_nil_r. repeat split. discriminate.
Qed.

Lemma has_table_app name db_tables extra idx :
  has_table name {| tables := db_tables ++ extra; indexes := idx |}
  = mem name (map fst db_tables) || mem name (map fst extra).
Proof.
  unfold has_table, table_names. cbn [tables].
  rewrite !mem_keys_assoc, assoc_app.
  destruct (assoc name db_tables); [reflexivity|].
  now destruct (assoc name extra).
Qed.

Lemma _create_empty_tables_Done pulse_map truth_columns pulse_map_columns
  retro_columns kill fs fs' kill' u :
  _create_empty_tables pulse_map truth_columns pulse_map_columns retro_columns
                       kill fs = (fs', kill', Done u) ->
  tmp fs' = tmp fs /\
  final fs' =
    {| tables := tables (final fs)
         ++ [("truth", created_table truth_columns false)]
         ++ (if (1 <? List.length retro_columns)%nat
             then [("RetroReco", created_table retro_columns false)]
             else [])
         ++ [(pulse_map, created_table pulse_map_columns true)];
       indexes := indexes (final fs) ++ [event_no_index pulse_map] |} /\
  pulse_map <> "truth" /\
  ((1 < List.length retro_columns)%nat -> pulse_map <> "RetroReco") /\
  has_table "truth" (final fs) = false /\
  has_table pulse_map (final fs) = false /\
  mem "event_no" pulse_map_columns = true.
Proof.
  unfold _create_empty_tables. intros H.
  apply bind_Done in H. destruct H as ([] & fs1 & kill1 & H1 & H).
  apply bind_Done in H. destruct H as ([] & fs2 & kill2 & H2 & H3).
  apply _create_table_Done in H1.
  destruct H1 as (_ & Ht1 & _ & _ & Htmp1 & Hfin1).
  apply _create_table_Done in H3.
  destruct H3 as (_ & Ht3 & _ & Hev & Htmp3 & Hfin3).
  specialize (Hev eq_refl).
  destruct (Nat.ltb_spec 1 (List.length retro_columns)) as [Hlen|Hlen].
  - apply _create_table_Done in H2.
    destruct H2 as (_ & Ht2 & _ & _ & Htmp2 & Hfin2).
    rewrite Hfin2, Hfin1 in Ht3. cbn [tables indexes] in Ht3.
    rewrite <- app_assoc in Ht3.
    rewrite has_table_app in Ht3. cbn [map fst app] in Ht3.
    apply orb_false_iff in Ht3. destruct Ht3 as [Ht3 Hne].
    unfold mem in Hne. cbn [index_of] in Hne.
    destruct (String.eqb_spec pulse_map "truth") as [|Hne1]; [discriminate|].
    destruct (String.eqb_spec pulse_map "RetroReco") as [|Hne2]; [discriminate|].
    repeat split; try assumption; try congruence.
    rewrite Hfin3, Hfin2, Hfin1. cbn [tables indexes].
    rewrite !app_nil_r, <- !app_assoc. reflexivity.
  - unfold ret in H2. injection H2 as <- <-.
    rewrite Hfin1 in Ht3.
    rewrite has_table_app in Ht3. cbn [map fst] in Ht3.
    apply orb_false_iff in Ht3. destruct Ht3 as [Ht3 Hne].
    unfold mem in Hne. cbn [index_of] in Hne.
    destruct (String.eqb_spec pulse_map "truth") as [|Hne1]; [discriminate|].
    repeat split; try assumption; try congruence; try lia.
    rewrite Hfin3, Hfin1. cbn [tables indexes].
    rewrite !app_nil_r, <- !app_assoc. reflexivity.
Qed.

Lemma declarations_In columns b c d :
  In (c, d) (declarations columns b) -> d = column_decl b c.
Proof.
  unfold declarations. rewrite in_map_iff. intros (c' & [= <- <-] & _). reflexivity.
Qed.

(** C7.  In the final database as [_create_empty_tables] sets it up from
    nothing: in the truth table event_no is INTEGER PRIMARY KEY NOT NULL
    and every other column FLOAT; in the pulse table event_no is only
    NOT NULL and every other column FLOAT, so the table has no primary key;
    and the one index there is, is the index on event_no of the pulse
    table. *)
Theorem final_schema_constraints (pulse_map : string)
  (truth_columns pulse_map_columns retro_columns : list string)
  (kill : option nat) (fs fs' : filesystem) (kill' : option nat) :
  final fs = empty_db ->
  _create_empty_tables pulse_map truth_columns pulse_map_columns retro_columns
                       kill fs = (fs', kill', Done tt) ->
  (exists t, assoc "truth" (tables (final fs')) = Some t /\
             map fst (coldefs t) = truth_columns /\
             forall c d, In (c, d) (coldefs t) ->
               d = if String.eqb c "event_no"
                   then INTEGER_PRIMARY_KEY_NOT_NULL else FLOAT) /\
  (exists t, assoc pulse_map (tables (final fs')) = Some t /\
             map fst (coldefs t) = pulse_map_columns /\
             In "event_no" pulse_map_columns /\
             forall c d, In (c, d) (coldefs t) ->
               d = if String.eqb c "event_no" then NOT_NULL else FLOAT) /\
  indexes (final fs') = [event_no_index pulse_map].
Proof.
  intros Hfresh H. apply _create_empty_tables_Done in H.
  destruct H as (_ & Hfin & Hne1 & Hne2 & _ & _ & Hev).
  rewrite Hfin, Hfresh. cbn [tables indexes empty_db app assoc].
  split; [|split; [|reflexivity]].
  - eexists. split; [reflexivity|]. cbn [created_table coldefs].
    split; [apply declarations_names|]. intros c d Hin.
    now apply declarations_In in Hin.
  - apply String.eqb_neq in Hne1. rewrite Hne1.
    exists (created_table pulse_map_columns true). split.
    + destruct (Nat.ltb_spec 1 (List.length retro_columns)) as [Hlen|Hlen];
        cbn [app assoc].
      * apply Hne2, String.eqb_neq in Hlen. rewrite Hlen.
        now rewrite String.eqb_refl.
      * now rewrite String.eqb_refl.
    + cbn [created_table coldefs]. split; [apply declarations_names|].
      split; [now apply mem_In|]. intros c d Hin.
      now apply declarations_In in Hin.
Qed.

(** ** The merge does not touch the temporary databases *)

Create HintDb keeps_tmp.

Lemma keeps_tmp_ret {A} (a : A) : keeps_tmp (ret a).
Proof. now intros kill fs. Qed.

Lemma keeps_tmp_raise {A} e : keeps_tmp (@raise A e).
Proof. now intros kill fs. Qed.

Lemma keeps_tmp_lift {A} (r : result A) : keeps_tmp (lift r).
Proof. destruct r; now intros kill fs. Qed.

Lemma keeps_tmp_bind {A B} (m : process A) (f : A -> process B) :
  keeps_tmp m -> (forall a, keeps_tmp (f a)) -> keeps_tmp (bind m f).
Proof.
  intros Hm Hf kill fs. unfold bind. specialize (Hm kill fs).
  destruct (m kill fs) as [[fs1 kill1] [a| |]]; cbn in *; try assumption.
  now rewrite Hf.
Qed.

Lemma keeps_tmp_write_final f : keeps_tmp (write_final f).
Proof.
  intros kill fs. unfold write_final, write.
  destruct kill as [[|k]|]; [reflexivity| |];
    destruct (f (final fs)); reflexivity.
Qed.

Lemma keeps_tmp_connect_tmp db_file : keeps_tmp (connect_tmp db_file).
Proof. now intros kill fs. Qed.

Lemma keeps_tmp_glob_tmp : keeps_tmp glob_tmp.
Proof. now intros kill fs. Qed.

#[local] Hint Resolve keeps_tmp_ret keeps_tmp_raise keeps_tmp_lift
  keeps_tmp_write_final keeps_tmp_connect_tmp keeps_tmp_glob_tmp : keeps_tmp.

Ltac keeps_tmp_step :=
  repeat first
    [ apply keeps_tmp_bind; [|intros ?]
    | progress auto with keeps_tmp ].

Lemma keeps_tmp_for_each {A} (l : list A) (body : A -> process unit) :
  (forall x, keeps_tmp (body x)) -> keeps_tmp (for_each l body).
Proof.
  intros H. induction l as [|x l IH]; cbn [for_each]; keeps_tmp_step.
Qed.

Lemma keeps_tmp_retro_columns_loop db_files retro_columns :
  keeps_tmp (retro_columns_loop db_files retro_columns).
Proof.
  revert retro_columns.
  induction db_files as [|f rest IH]; intros rc; cbn [retro_columns_loop];
    keeps_tmp_step.
  destruct (read_sql_limit_1 _ _) as [df|]; [|apply IH].
  destruct (0 <? _)%nat; [keeps_tmp_step|apply IH].
Qed.

Lemma keeps_tmp_extract_column_names db_files pulsemap :
  keeps_tmp (_extract_column_names db_files pulsemap).
Proof.
  unfold _extract_column_names.
  apply keeps_tmp_bind; [destruct db_files; auto with keeps_tmp|intros db].
  apply keeps_tmp_bind; [auto with keeps_tmp|intros truth].
  apply keeps_tmp_bind; [auto with keeps_tmp|intros pulse_map].
  apply keeps_tmp_bind; [apply keeps_tmp_retro_columns_loop|].
  intros [rc|]; auto with keeps_tmp.
Qed.

Lemma keeps_tmp_create_table table_name columns is_pulse_map :
  keeps_tmp (_create_table table_name columns is_pulse_map).
Proof.
  unfold _create_table, _attach_index, _run_sql_code.
  destruct (snd _); keeps_tmp_step. destruct is_pulse_map; keeps_tmp_step.
Qed.

Lemma keeps_tmp_create_empty_tables pulse_map tc pc rc :
  keeps_tmp (_create_empty_tables pulse_map tc pc rc).
Proof.
  unfold _create_empty_tables.
  keeps_tmp_step; try apply keeps_tmp_create_table.
  destruct (1 <? _)%nat; keeps_tmp_step. apply keeps_tmp_create_table.
Qed.

Lemma keeps_tmp_submit_to_database key data :
  keeps_tmp (_submit_to_database key data).
Proof. unfold _submit_to_database. destruct (len data =? 0)%nat; keeps_tmp_step. Qed.

Lemma keeps_tmp_merge_one pulse_map file : keeps_tmp (merge_one pulse_map file).
Proof.
  unfold merge_one, _extract_everything.
  apply keeps_tmp_bind; [keeps_tmp_step|].
  intros [[truth features] retro].
  keeps_tmp_step; apply keeps_tmp_submit_to_database.
Qed.

Lemma keeps_tmp_merge_temporary_databases db_files pulse_map :
  keeps_tmp (_merge_temporary_databases db_files pulse_map).
Proof. apply keeps_tmp_for_each. intros; apply keeps_tmp_merge_one. Qed.

Lemma removes_tmp_at_end_keeps {A} (m : process A) :
  keeps_tmp m -> removes_tmp_at_end m.
Proof.
  intros H kill fs. specialize (H kill fs).
  destruct (m kill fs) as [[fs' kill'] [a| |]]; cbn in H; auto.
Qed.

Lemma removes_tmp_at_end_bind {A B} (m : process A) (f : A -> process B) :
  keeps_tmp m -> (forall a, removes_tmp_at_end (f a)) ->
  removes_tmp_at_end (bind m f).
Proof.
  intros Hm Hf kill fs. unfold bind. specialize (Hm kill fs).
  destruct (m kill fs) as [[fs1 kill1] [a| |]]; cbn in Hm; try assumption.
  specialize (Hf a kill1 fs1).
  destruct (f a kill1 fs1) as [[fs2 kill2] [b| |]]; congruence.
Qed.

Lemma removes_tmp_at_end_rm_tmp : removes_tmp_at_end rm_tmp.
Proof.
  intros kill fs. unfold rm_tmp, write. now destruct kill as [[|k]|].
Qed.

Lemma _merge_databases_removes_tmp_at_end self :
  removes_tmp_at_end (_merge_databases self).
Proof.
  unfold _merge_databases.
  apply removes_tmp_at_end_bind; [apply keeps_tmp_glob_tmp|intros db_files].
  destruct (0 <? _)%nat; [|apply removes_tmp_at_end_keeps, keeps_tmp_ret].
  apply removes_tmp_at_end_bind; [apply keeps_tmp_extract_column_names|].
  intros [[tc pc] rc].
  apply removes_tmp_at_end_bind; [apply keeps_tmp_create_empty_tables|intros _].
  apply removes_tmp_at_end_bind; [apply keeps_tmp_merge_temporary_databases|].
  intros _. apply removes_tmp_at_end_rm_tmp.
Qed.

(** C6.  However the merge ends, with an exception or with the process
    killed after any number of writes, the temporary databases are all
    still there, unless it ran to its end.  When it did,
    [_merge_temporary_databases] had appended every shard, all of them
    still in place, before they were removed in one step. *)
Theorem shards_removed_after_merge_only (self : SQLiteDataConverter)
  (kill : option nat) (fs : filesystem) :
  match _merge_databases self kill fs with
  | (fs', _, Done _) =>
      (tmp fs = [] /\ fs' = fs) \/
      exists fs0 kill0 fs1 kill1,
        tmp fs0 = tmp fs /\
        _merge_temporary_databases (map fst (tmp fs)) (_pulsemap self) kill0 fs0
          = (fs1, kill1, Done tt) /\
        tmp fs1 = tmp fs /\ final fs' = final fs1 /\ tmp fs' = []
  | (fs', _, _) => tmp fs' = tmp fs
  end.
Proof.
  unfold _merge_databases. unfold bind at 1. cbn [glob_tmp].
  destruct (Nat.ltb_spec 0 (List.length (map fst (tmp fs)))) as [Hlen|Hlen].
  - unfold bind at 1.
    pose proof (keeps_tmp_extract_column_names (map fst (tmp fs)) (_pulsemap self)
                  kill fs) as K1.
    destruct (_extract_column_names _ _ kill fs) as [[fs1 kill1] [[[tc pc] rc]| |]];
      cbn in K1; try assumption.
    unfold bind at 1.
    pose proof (keeps_tmp_create_empty_tables (_pulsemap self) tc pc rc kill1 fs1) as K2.
    destruct (_create_empty_tables _ _ _ _ kill1 fs1) as [[fs2 kill2] [[]| |]];
      cbn in K2; try congruence.
    unfold bind at 1.
    pose proof (keeps_tmp_merge_temporary_databases (map fst (tmp fs))
                  (_pulsemap self) kill2 fs2) as K3.
    destruct (_merge_temporary_databases _ _ kill2 fs2) as [[fs3 kill3] [[]| |]] eqn:E3;
      cbn in K3; try congruence.
    unfold rm_tmp, write.
    destruct kill3 as [[|k]|]; cbn; try congruence;
      (right; exists fs2, kill2, fs3; eexists; repeat split;
       [congruence|exact E3|congruence]).
  - unfold ret. left. split; [|reflexivity].
    destruct (tmp fs); [reflexivity|cbn in Hlen; lia].
Qed.

(** ** Appending to a database *)

Lemma map_fst_replace_assoc {V} k (v : V) l :
  map fst (replace_assoc k v l) = map fst l.
Proof.
  induction l as [|[k' v'] l IH]; [reflexivity|].
  cbn. destruct (String.eqb k k'); cbn; [reflexivity|now rewrite IH].
Qed.

Lemma assoc_replace_assoc_other {V} k k' (v : V) l :
  k' <> k -> assoc k' (replace_assoc k v l) = assoc k' l.
Proof.
  intros Hne. induction l as [|[k0 v0] l IH]; [reflexivity|].
  cbn. destruct (String.eqb_spec k k0) as [->|Hk]; cbn.
  - apply String.eqb_neq in Hne. now rewrite Hne.
  - destruct (String.eqb k' k0); [reflexivity|exact IH].
Qed.

Lemma assoc_replace_assoc_same {V} k (v v0 : V) l :
  assoc k l = Some v0 -> assoc k (replace_assoc k v l) = Some v.
Proof.
  induction l as [|[k0 v1] l IH]; [discriminate|].
  cbn. destruct (String.eqb_spec k k0) as [->|Hk]; cbn.
  - now rewrite String.eqb_refl.
  - apply String.eqb_neq in Hk. rewrite Hk. exact IH.
Qed.

Lemma forallb_mem_In cols l :
  forallb (fun c => mem c cols) l = true -> forall c, In c l -> In c cols.
Proof.
  rewrite forallb_forall. intros H c Hc. now apply mem_In, H.
Qed.

Lemma to_sql_existing df key db t db' :
  assoc key (tables db) = Some t -> to_sql df key db = Ok db' ->
  (data df <> [] -> forall c, In c (columns df) -> In c (map fst (coldefs t))) /\
  table_names db' = table_names db /\
  indexes db' = indexes db /\
  assoc key (tables db')
    = Some {| coldefs := coldefs t;
              rows := rows t ++ reindex (map fst (coldefs t)) df |} /\
  (forall name, name <> key -> assoc name (tables db') = assoc name (tables db)).
Proof.
  intros Ht. unfold to_sql. rewrite Ht.
  destruct (data df) as [|row more] eqn:Hdata.
  - intros [= <-]. split; [congruence|]. split; [reflexivity|].
    split; [reflexivity|]. split; [|reflexivity].
    rewrite Ht. unfold reindex. rewrite Hdata. cbn. rewrite app_nil_r.
    now destruct t.
  - destruct (forallb _ _) eqn:Hall; [|discriminate]. intros [= <-].
    split; [intros _; now apply forallb_mem_In|]. split.
    { unfold table_names; cbn. apply map_fst_replace_assoc. }
    split; [reflexivity|]. split.
    { cbn. eapply assoc_replace_assoc_same; eassumption. }
    intros name Hne. cbn. now apply assoc_replace_assoc_other.
Qed.

Lemma to_sql_missing df key db db' :
  assoc key (tables db) = None -> to_sql df key db = Ok db' ->
  columns df <> [] /\
  db' = {| tables := tables db ++
             [(key, {| coldefs := map (fun c => (c, INFERRED)) (columns df);
                       rows := data df |})];
           indexes := indexes db |}.
Proof.
  intros Ht. unfold to_sql. rewrite Ht.
  destruct (columns df) eqn:E; [discriminate|]. intros [= <-].
  split; [discriminate|reflexivity].
Qed.

(** [to_sql] never drops a table nor changes its declared columns, and it
    leaves the indexes alone. *)
Lemma to_sql_keeps_schema df key db db' :
  to_sql df key db = Ok db' ->
  indexes db' = indexes db /\
  forall name t, assoc name (tables db) = Some t ->
    exists t', assoc name (tables db') = Some t' /\ coldefs t' = coldefs t.
Proof.
  intros H. destruct (assoc key (tables db)) as [t0|] eqn:E.
  - destruct (to_sql_existing _ _ _ _ _ E H) as (_ & _ & Hi & Hsame & Hother).
    split; [assumption|]. intros name t Ht.
    destruct (String.eqb_spec name key) as [->|Hne].
    + rewrite Hsame. eexists; split; [reflexivity|]. cbn. congruence.
    + rewrite (Hother _ Hne). eauto.
  - destruct (to_sql_missing _ _ _ _ E H) as (_ & ->). split; [reflexivity|].
    intros name t Ht. cbn. rewrite assoc_app, Ht. eauto.
Qed.

Lemma to_sql_has_table df key db db' :
  to_sql df key db = Ok db' -> has_table key db' = true.
Proof.
  intros H. rewrite has_table_assoc.
  destruct (assoc key (tables db)) as [t0|] eqn:E.
  - destruct (to_sql_existing _ _ _ _ _ E H) as (_ & _ & _ & -> & _). reflexivity.
  - destruct (to_sql_missing _ _ _ _ E H) as (_ & ->). cbn.
    rewrite assoc_app, E. cbn. now rewrite String.eqb_refl.
Qed.

Lemma submit_keeps_schema key data db db' :
  submit key data db = Ok db' ->
  indexes db' = indexes db /\
  forall name t, assoc name (tables db) = Some t ->
    exists t', assoc name (tables db') = Some t' /\ coldefs t' = coldefs t.
Proof.
  unfold submit. destruct (len data =? 0)%nat.
  - intros [= <-]. split; eauto.
  - apply to_sql_keeps_schema.
Qed.

(** ** One temporary database goes into the final one *)

Lemma _submit_to_database_Done key data kill fs fs' kill' u :
  _submit_to_database key data kill fs = (fs', kill', Done u) ->
  tmp fs' = tmp fs /\ submit key data (final fs) = Ok (final fs').
Proof.
  unfold _submit_to_database, submit. destruct (len data =? 0)%nat.
  - unfold ret. intros [= <- <-]. auto.
  - intros H. apply write_final_Done in H. destruct H as (d & Hd & ->). auto.
Qed.

Lemma merge_one_Done pulse_map file kill fs fs' kill' u :
  merge_one pulse_map file kill fs = (fs', kill', Done u) ->
  let db := open_db file (tmp fs) in
  exists truth features d1 d2,
    read_sql "truth" db = Ok truth /\
    read_sql pulse_map db = Ok features /\
    submit "truth" truth (final fs) = Ok d1 /\
    submit pulse_map features d1 = Ok d2 /\
    submit "RetroReco" (retro_of db) d2 = Ok (final fs') /\
    tmp fs' = tmp fs.
Proof.
  intros H db. unfold merge_one, _extract_everything in H.
  apply bind_Done in H. destruct H as ([[truth features] retro] & fs1 & kill1 & H1 & H).
  apply bind_Done in H1. destruct H1 as (con & fs0 & kill0 & Hc & H1).
  unfold connect_tmp in Hc. injection Hc as <- <- <-. fold db in H1.
  apply bind_Done in H1. destruct H1 as (truth' & fs2 & kill2 & Ht & H1).
  apply lift_Done in Ht. destruct Ht as (Ht & -> & ->).
  apply bind_Done in H1. destruct H1 as (features' & fs3 & kill3 & Hf & H1).
  apply lift_Done in Hf. destruct Hf as (Hf & -> & ->).
  unfold ret in H1. injection H1 as <- <- <- <- <-.
  apply bind_Done in H. destruct H as ([] & fs4 & kill4 & Hs1 & H).
  apply bind_Done in H. destruct H as ([] & fs5 & kill5 & Hs2 & Hs3).
  apply _submit_to_database_Done in Hs1, Hs2, Hs3.
  destruct Hs1 as (T1 & S1), Hs2 as (T2 & S2), Hs3 as (T3 & S3).
  exists truth', features', (final fs4), (final fs5).
  repeat split; try assumption. congruence.
Qed.

Lemma for_each_Done_inv {A} (I : filesystem -> Prop) (l : list A)
  (body : A -> process unit) :
  (forall x kill fs fs' kill' u,
      In x l -> I fs -> body x kill fs = (fs', kill', Done u) -> I fs') ->
  forall kill fs fs' kill' u,
    I fs -> for_each l body kill fs = (fs', kill', Done u) -> I fs'.
Proof.
  induction l as [|x l IH]; intros H kill fs fs' kill' u HI.
  - cbn. unfold ret. now intros [= <- <-].
  - cbn [for_each]. intros Hrun.
    apply bind_Done in Hrun. destruct Hrun as ([] & fs1 & kill1 & H1 & H2).
    eapply IH; [|eapply H; [now left|exact HI|exact H1]|exact H2].
    intros; eapply H; eauto. now right.
Qed.

(** In a loop that ran to its end, every turn ran to its end, from a state
    in which the invariant held. *)
Lemma for_each_Done_In {A} (I : filesystem -> Prop) (l : list A)
  (body : A -> process unit) :
  (forall x kill fs fs' kill' u,
      In x l -> I fs -> body x kill fs = (fs', kill', Done u) -> I fs') ->
  forall kill fs fs' kill' u x,
    I fs -> for_each l body kill fs = (fs', kill', Done u) -> In x l ->
    exists kill1 fs1 fs2 kill2 u',
      I fs1 /\ body x kill1 fs1 = (fs2, kill2, Done u').
Proof.
  induction l as [|y l IH]; intros H kill fs fs' kill' u x HI Hrun Hin;
    [destruct Hin|].
  cbn [for_each] in Hrun.
  apply bind_Done in Hrun. destruct Hrun as ([] & fs1 & kill1 & H1 & H2).
  destruct Hin as [<-|Hin].
  - now exists kill, fs, fs1, kill1, tt.
  - eapply IH; [|eapply H; [now left|exact HI|exact H1]|exact H2|exact Hin].
    intros; eapply H; eauto. now right.
Qed.

(** ** Sampling the columns *)

Lemma read_sql_limit_1_columns name db df :
  read_sql_limit_1 name db = Ok df -> table_columns name db = Some (columns df).
Proof.
  unfold read_sql_limit_1, table_columns.
  destruct (assoc name (tables db)); [|discriminate]. now intros [= <-].
Qed.

Lemma read_sql_spec name db df :
  read_sql name db = Ok df ->
  exists t, assoc name (tables db) = Some t /\
            columns df = map fst (coldefs t) /\ data df = rows t.
Proof.
  unfold read_sql. destruct (assoc name (tables db)) as [t|]; [|discriminate].
  intros [= <-]. now exists t.
Qed.

Lemma retro_columns_loop_spec db_files retro_columns kill fs :
  retro_columns_loop db_files retro_columns kill fs
  = (fs, kill,
     Done (retro_sample (map (fun f => open_db f (tmp fs)) db_files) retro_columns)).
Proof.
  revert retro_columns.
  induction db_files as [|f rest IH]; intros rc; [reflexivity|].
  cbn [retro_columns_loop map retro_sample]. unfold bind, connect_tmp.
  destruct (read_sql_limit_1 "RetroReco" (open_db f (tmp fs))) as [df|e];
    [|apply IH].
  destruct (0 <? List.length (columns df))%nat; [reflexivity|apply IH].
Qed.

Lemma _extract_column_names_Done db_files pulsemap kill fs fs' kill' tc pc rc :
  _extract_column_names db_files pulsemap kill fs = (fs', kill', Done (tc, pc, rc)) ->
  fs' = fs /\ kill' = kill /\
  exists db_file rest,
    db_files = db_file :: rest /\
    table_columns "truth" (open_db db_file (tmp fs)) = Some tc /\
    table_columns pulsemap (open_db db_file (tmp fs)) = Some pc /\
    retro_sample (map (fun f => open_db f (tmp fs)) db_files) None = Some rc.
Proof.
  unfold _extract_column_names. intros H.
  apply bind_Done in H. destruct H as (db & fs0 & kill0 & Hc & H).
  destruct db_files as [|db_file rest]; [discriminate|].
  unfold connect_tmp in Hc. injection Hc as <- <- <-.
  apply bind_Done in H. destruct H as (truth & fs1 & kill1 & Ht & H).
  apply lift_Done in Ht. destruct Ht as (Ht & -> & ->).
  apply bind_Done in H. destruct H as (pulse & fs2 & kill2 & Hp & H).
  apply lift_Done in Hp. destruct Hp as (Hp & -> & ->).
  apply bind_Done in H. destruct H as (orc & fs3 & kill3 & Hr & H).
  rewrite retro_columns_loop_spec in Hr. injection Hr as E1 E2 E.
  subst fs3 kill3.
  destruct orc as [rc'|]; [|discriminate H].
  unfold ret in H. injection H as <- <- <- <- <-.
  split; [reflexivity|]. split; [reflexivity|].
  exists db_file, rest. repeat split.
  - now apply read_sql_limit_1_columns.
  - now apply read_sql_limit_1_columns.
  - exact E.
Qed.

Lemma retro_sample_no_retro dbs retro_columns :
  Forall (fun db => has_table "RetroReco" db = false) dbs ->
  retro_sample dbs retro_columns
  = match dbs with [] => retro_columns | _ => Some [] end.
Proof.
  intros H. revert retro_columns.
  induction H as [|db rest Hdb Hrest IH]; intros rc; [reflexivity|].
  cbn [retro_sample]. unfold read_sql_limit_1.
  rewrite has_table_assoc in Hdb.
  destruct (assoc "RetroReco" (tables db)); [discriminate|].
  rewrite IH. now destruct rest.
Qed.

Lemma assoc_In {V} k (l : list (string * V)) v :
  assoc k l = Some v -> In (k, v) l.
Proof.
  induction l as [|[k' v'] l IH]; [discriminate|].
  cbn. destruct (String.eqb_spec k k') as [->|_].
  - intros [= ->]. now left.
  - intros H. right. now apply IH.
Qed.

Lemma open_db_cases file dir :
  open_db file dir = empty_db \/ In (file, open_db file dir) dir.
Proof.
  unfold open_db. destruct (assoc file dir) eqn:E; [right|now left].
  now apply assoc_In.
Qed.

(** ** No RetroReco anywhere *)

Section NoRetro.
Variables (self : SQLiteDataConverter) (fs : filesystem).
Hypothesis no_retro :
  forall file db, In (file, db) (tmp fs) -> has_table "RetroReco" db = false.

Lemma open_db_no_retro file : has_table "RetroReco" (open_db file (tmp fs)) = false.
Proof.
  destruct (open_db_cases file (tmp fs)) as [->|Hin]; [reflexivity|].
  eapply no_retro; eassumption.
Qed.

Lemma retro_of_no_retro file : retro_of (open_db file (tmp fs)) = pd_DataFrame.
Proof.
  unfold retro_of, read_sql. pose proof (open_db_no_retro file) as H.
  rewrite has_table_assoc in H.
  now destruct (assoc "RetroReco" (tables (open_db file (tmp fs)))).
Qed.

Lemma submit_existing_names key data db db' :
  has_table key db = true -> submit key data db = Ok db' ->
  table_names db' = table_names db.
Proof.
  unfold submit. intros Hk. destruct (len data =? 0)%nat; [now intros [= <-]|].
  rewrite has_table_assoc in Hk.
  destruct (assoc key (tables db)) as [t|] eqn:E; [|discriminate].
  intros H. now destruct (to_sql_existing _ _ _ _ _ E H) as (_ & ? & _).
Qed.

Lemma merge_one_no_retro file kill fs1 fs2 kill2 u :
  tmp fs1 = tmp fs ->
  table_names (final fs1) = ["truth"; _pulsemap self] ->
  merge_one (_pulsemap self) file kill fs1 = (fs2, kill2, Done u) ->
  tmp fs2 = tmp fs /\ table_names (final fs2) = ["truth"; _pulsemap self].
Proof.
  intros Htmp Hnames H. apply merge_one_Done in H. cbv zeta in H.
  destruct H as (truth & features & d1 & d2 & _ & _ & S1 & S2 & S3 & T).
  split; [congruence|].
  rewrite Htmp, retro_of_no_retro in S3. unfold submit in S3. cbn in S3.
  injection S3 as <-.
  apply submit_existing_names in S1;
    [|unfold has_table; rewrite Hnames; unfold mem; cbn; reflexivity].
  apply submit_existing_names in S2;
    [congruence|].
  unfold has_table. rewrite S1, Hnames. unfold mem. cbn.
  destruct (String.eqb (_pulsemap self) "truth"); [reflexivity|].
  now rewrite String.eqb_refl.
Qed.
End NoRetro.

(** C3.  When no temporary database has a RetroReco table, a merge into an
    empty final database that runs to its end leaves there the truth table
    and the pulse table and nothing else (no table at all when there was no
    temporary database).  In particular the final database has no RetroReco
    table. *)
Theorem no_retro_no_table (self : SQLiteDataConverter) (kill : option nat)
  (fs fs' : filesystem) (kill' : option nat) :
  final fs = empty_db ->
  (forall file db, In (file, db) (tmp fs) -> has_table "RetroReco" db = false) ->
  _merge_databases self kill fs = (fs', kill', Done tt) ->
  table_names (final fs')
    = match tmp fs with [] => [] | _ => ["truth"; _pulsemap self] end /\
  has_table "RetroReco" (final fs') = false.
Proof.
  intros Hfresh Hno H. unfold _merge_databases in H.
  apply bind_Done in H. destruct H as (db_files & fs0 & kill0 & Hg & H).
  unfold glob_tmp in Hg. injection Hg as <- <- <-.
  destruct (tmp fs) as [|[file0 db0] shards] eqn:Etmp.
  { cbn in H. unfold ret in H. injection H as <- <-.
    rewrite Hfresh. split; reflexivity. }
  rewrite <- Etmp in H, Hno.
  assert (Hlen : (0 <? List.length (map fst (tmp fs)))%nat = true)
    by now rewrite Etmp.
  rewrite Hlen in H. clear Hlen.
  apply bind_Done in H. destruct H as ([[tc pc] rc] & fs1 & kill1 & Hx & H).
  apply _extract_column_names_Done in Hx.
  destruct Hx as (-> & -> & f0 & rest & Hfiles & Htc & Hpc & Hrc).
  rewrite retro_sample_no_retro in Hrc.
  2:{ apply Forall_forall. intros db Hdb. apply in_map_iff in Hdb.
      destruct Hdb as (f & <- & _). now apply open_db_no_retro. }
  rewrite Hfiles in Hrc. cbn in Hrc. injection Hrc as <-.
  assert (Hpulse : _pulsemap self <> "RetroReco").
  { intros Heq. rewrite Heq in Hpc. unfold table_columns in Hpc.
    pose proof (open_db_no_retro fs Hno f0) as Hn. rewrite has_table_assoc in Hn.
    destruct (assoc "RetroReco" (tables (open_db f0 (tmp fs)))); discriminate. }
  apply bind_Done in H. destruct H as ([] & fs2 & kill2 & Hc & H).
  apply _create_empty_tables_Done in Hc.
  destruct Hc as (Htmp2 & Hfin2 & _).
  rewrite Hfresh in Hfin2. cbn in Hfin2.
  apply bind_Done in H. destruct H as ([] & fs3 & kill3 & Hm & H).
  assert (HI : tmp fs3 = tmp fs /\ table_names (final fs3) = ["truth"; _pulsemap self]).
  { unfold _merge_temporary_databases in Hm.
    eapply (for_each_Done_inv
              (fun st => tmp st = tmp fs /\
                         table_names (final st) = ["truth"; _pulsemap self]));
      [|split; [exact Htmp2|now rewrite Hfin2]|exact Hm].
    intros x k st st' k' u _ [HA HB] Hstep.
    eapply merge_one_no_retro; eauto. }
  destruct HI as [_ Hnames].
  apply write_Done in H. destruct H as (H & _). injection H as <-.
  cbn [final]. split; [exact Hnames|].
  destruct (has_table "RetroReco" (final fs3)) eqn:Eh; [|reflexivity].
  unfold has_table in Eh. rewrite Hnames in Eh. apply mem_In in Eh.
  destruct Eh as [Eh|[Eh|[]]]; [discriminate|congruence].
Qed.

(** ** Without a kill there is no crash *)

Lemma never_crashes_ret {A} (a : A) : never_crashes (ret a).
Proof. intros fs; split; [reflexivity|discriminate]. Qed.

Lemma never_crashes_raise {A} e : never_crashes (@raise A e).
Proof. intros fs; split; [reflexivity|discriminate]. Qed.

Lemma never_crashes_lift {A} (r : result A) : never_crashes (lift r).
Proof. destruct r; intros fs; split; try reflexivity; discriminate. Qed.

Lemma never_crashes_bind {A B} (m : process A) (f : A -> process B) :
  never_crashes m -> (forall a, never_crashes (f a)) -> never_crashes (bind m f).
Proof.
  intros Hm Hf fs. unfold bind. specialize (Hm fs).
  destruct (m None fs) as [[fs1 kill1] [a| |]]; cbn in *;
    destruct Hm as [-> Hm]; try (split; [reflexivity|congruence]).
  apply Hf.
Qed.

Lemma never_crashes_write f : never_crashes (write f).
Proof.
  intros fs. unfold write. cbn.
  destruct (f fs); split; try reflexivity; discriminate.
Qed.

Lemma never_crashes_connect_tmp db_file : never_crashes (connect_tmp db_file).
Proof. intros fs; split; [reflexivity|discriminate]. Qed.

Lemma never_crashes_glob_tmp : never_crashes glob_tmp.
Proof. intros fs; split; [reflexivity|discriminate]. Qed.

Create HintDb never_crashes.
#[local] Hint Resolve never_crashes_ret never_crashes_raise never_crashes_lift
  never_crashes_write never_crashes_connect_tmp never_crashes_glob_tmp
  : never_crashes.

Ltac never_crashes_step :=
  repeat first
    [ apply never_crashes_bind; [|intros ?]
    | progress (unfold write_final, rm_tmp, _run_sql_code)
    | progress auto with never_crashes ].

Lemma never_crashes_for_each {A} (l : list A) (body : A -> process unit) :
  (forall x, never_crashes (body x)) -> never_crashes (for_each l body).
Proof.
  intros H. induction l as [|x l IH]; cbn [for_each]; never_crashes_step.
Qed.

Lemma never_crashes_extract_column_names db_files pulsemap :
  never_crashes (_extract_column_names db_files pulsemap).
Proof.
  unfold _extract_column_names.
  apply never_crashes_bind; [destruct db_files; auto with never_crashes|intros db].
  apply never_crashes_bind; [auto with never_crashes|intros truth].
  apply never_crashes_bind; [auto with never_crashes|intros pulse_map].
  apply never_crashes_bind.
  - intros fs. rewrite retro_columns_loop_spec. split; [reflexivity|discriminate].
  - intros [rc|]; auto with never_crashes.
Qed.

Lemma never_crashes_create_table table_name columns is_pulse_map :
  never_crashes (_create_table table_name columns is_pulse_map).
Proof.
  unfold _create_table, _attach_index.
  destruct (snd _); never_crashes_step. destruct is_pulse_map; never_crashes_step.
Qed.

Lemma never_crashes_create_empty_tables pulse_map tc pc rc :
  never_crashes (_create_empty_tables pulse_map tc pc rc).
Proof.
  unfold _create_empty_tables.
  never_crashes_step; try apply never_crashes_create_table.
  destruct (1 <? _)%nat; never_crashes_step. apply never_crashes_create_table.
Qed.

Lemma never_crashes_submit_to_database key data :
  never_crashes (_submit_to_database key data).
Proof.
  unfold _submit_to_database. destruct (len data =? 0)%nat; never_crashes_step.
Qed.

Lemma never_crashes_merge_one pulse_map file :
  never_crashes (merge_one pulse_map file).
Proof.
  unfold merge_one, _extract_everything.
  apply never_crashes_bind; [never_crashes_step|].
  intros [[truth features] retro].
  never_crashes_step; apply never_crashes_submit_to_database.
Qed.

Lemma never_crashes_merge_databases self : never_crashes (_merge_databases self).
Proof.
  unfold _merge_databases.
  apply never_crashes_bind; [auto with never_crashes|intros db_files].
  destruct (0 <? _)%nat; [|auto with never_crashes].
  apply never_crashes_bind; [apply never_crashes_extract_column_names|].
  intros [[tc pc] rc].
  apply never_crashes_bind; [apply never_crashes_create_empty_tables|intros _].
  apply never_crashes_bind; [|intros _; never_crashes_step].
  apply never_crashes_for_each. intros; apply never_crashes_merge_one.
Qed.

(** ** A shard with a column the final table lacks *)

Lemma submit_keeps_columns key data db db' name cols :
  submit key data db = Ok db' ->
  table_columns name db = Some cols -> table_columns name db' = Some cols.
Proof.
  intros H. apply submit_keeps_schema in H. destruct H as (_ & H).
  unfold table_columns. destruct (assoc name (tables db)) as [t|] eqn:E;
    [|discriminate].
  destruct (H _ _ E) as (t' & -> & Hc). cbn. now rewrite Hc.
Qed.

Lemma submit_rows_columns key df db db' cols :
  submit key df db = Ok db' -> data df <> [] ->
  table_columns key db = Some cols ->
  forall c, In c (columns df) -> In c cols.
Proof.
  unfold submit, len. intros H Hrows Hcols.
  destruct (data df) eqn:E; [congruence|]. cbn in H.
  unfold table_columns in Hcols.
  destruct (assoc key (tables db)) as [t|] eqn:Et; [|discriminate].
  injection Hcols as <-.
  destruct (to_sql_existing _ _ _ _ _ Et H) as (Hin & _).
  apply Hin. rewrite E. discriminate.
Qed.

Section SchemaFixedByFirstShard.
Variables (self : SQLiteDataConverter) (fs : filesystem).
Variables (tc pc : list string).

Lemma merge_one_keeps_columns file kill st st' kill' u :
  columns_kept self fs tc pc st ->
  merge_one (_pulsemap self) file kill st = (st', kill', Done u) ->
  columns_kept self fs tc pc st'.
Proof.
  intros (HT & Ht & Hp) H. apply merge_one_Done in H. cbv zeta in H.
  destruct H as (truth & features & d1 & d2 & _ & _ & S1 & S2 & S3 & T).
  split; [congruence|]. split.
  - eapply submit_keeps_columns; [exact S3|].
    eapply submit_keeps_columns; [exact S2|].
    eapply submit_keeps_columns; [exact S1|exact Ht].
  - eapply submit_keeps_columns; [exact S3|].
    eapply submit_keeps_columns; [exact S2|].
    eapply submit_keeps_columns; [exact S1|exact Hp].
Qed.

Lemma merge_one_columns_within file kill st st' kill' u name t c :
  columns_kept self fs tc pc st ->
  merge_one (_pulsemap self) file kill st = (st', kill', Done u) ->
  name = "truth" \/ name = _pulsemap self ->
  assoc name (tables (open_db file (tmp fs))) = Some t ->
  rows t <> [] -> In c (map fst (coldefs t)) ->
  In c (if String.eqb name "truth" then tc else pc).
Proof.
  intros (HT & Ht & Hp) H Hname Hassoc Hrows Hc.
  apply merge_one_Done in H. cbv zeta in H. rewrite HT in H.
  destruct H as (truth & features & d1 & d2 & R1 & R2 & S1 & S2 & _).
  apply read_sql_spec in R1, R2.
  destruct R1 as (t1 & A1 & Hc1 & Hd1). destruct R2 as (t2 & A2 & Hc2 & Hd2).
  destruct (String.eqb_spec name "truth") as [->|Hne].
  - rewrite Hassoc in A1. injection A1 as <-.
    eapply submit_rows_columns; [exact S1|congruence|exact Ht|congruence].
  - destruct Hname as [-> | ->]; [congruence|].
    rewrite Hassoc in A2. injection A2 as <-.
    eapply submit_rows_columns; [exact S2|congruence| |congruence].
    eapply submit_keeps_columns; [exact S1|exact Hp].
Qed.
End SchemaFixedByFirstShard.

Lemma created_table_columns name cols b (l1 l2 : list (string * table)) :
  assoc name l1 = None ->
  option_map (fun t => map fst (coldefs t))
             (assoc name (l1 ++ (name, created_table cols b) :: l2)) = Some cols.
Proof.
  intros H. rewrite assoc_app, H. cbn. rewrite String.eqb_refl. cbn.
  now rewrite declarations_names.
Qed.

Lemma _merge_databases_not_Done (self : SQLiteDataConverter) (fs : filesystem)
  (file name c : string) (t : table) kill fs' kill' u :
  In file (map fst (tmp fs)) ->
  name = "truth" \/ name = _pulsemap self ->
  assoc name (tables (open_db file (tmp fs))) = Some t ->
  rows t <> [] ->
  In c (map fst (coldefs t)) ->
  (forall cols, sampled_columns name fs = Some cols -> ~ In c cols) ->
  _merge_databases self kill fs <> (fs', kill', Done u).
Proof.
  intros Hfile Hname Hassoc Hrows Hc Hsampled H.
  unfold _merge_databases in H.
  apply bind_Done in H. destruct H as (db_files & fs0 & kill0 & Hg & H).
  unfold glob_tmp in Hg. injection Hg as <- <- <-.
  destruct (Nat.ltb_spec 0 (List.length (map fst (tmp fs)))) as [_|Hlen];
    [|destruct (tmp fs); [destruct Hfile|cbn in Hlen; lia]].
  apply bind_Done in H. destruct H as ([[tc pc] rc] & fs1 & kill1 & Hx & H).
  apply _extract_column_names_Done in Hx.
  destruct Hx as (-> & -> & f0 & rest & Hfiles & Htc & Hpc & _).
  assert (Hopen : forall n, table_columns n (open_db f0 (tmp fs)) = sampled_columns n fs).
  { intros n. unfold sampled_columns, open_db.
    destruct (tmp fs) as [|[f db] shards]; [discriminate|].
    cbn in Hfiles. injection Hfiles as -> _. cbn. now rewrite String.eqb_refl. }
  rewrite Hopen in Htc, Hpc.
  apply bind_Done in H. destruct H as ([] & fs2 & kill2 & Hcr & H).
  apply _create_empty_tables_Done in Hcr.
  destruct Hcr as (Htmp2 & Hfin2 & Hne1 & Hne2 & Hno1 & Hno2 & _).
  apply bind_Done in H. destruct H as ([] & fs3 & kill3 & Hm & _).
  unfold _merge_temporary_databases in Hm.
  assert (HI2 : columns_kept self fs tc pc fs2).
  { split; [exact Htmp2|]. rewrite Hfin2. unfold table_columns. cbn [tables].
    rewrite has_table_assoc in Hno1, Hno2. split.
    - apply created_table_columns.
      now destruct (assoc "truth" (tables (final fs))).
    - replace (tables (final fs) ++ [("truth", created_table tc false)] ++
               (if (1 <? List.length rc)%nat
                then [("RetroReco", created_table rc false)] else []) ++
               [(_pulsemap self, created_table pc true)])
        with ((tables (final fs) ++ [("truth", created_table tc false)] ++
               (if (1 <? List.length rc)%nat
                then [("RetroReco", created_table rc false)] else [])) ++
               (_pulsemap self, created_table pc true) :: [])
        by now rewrite <- !app_assoc.
      apply created_table_columns. rewrite !assoc_app.
      destruct (assoc (_pulsemap self) (tables (final fs))); [discriminate|].
      apply String.eqb_neq in Hne1.
      destruct (Nat.ltb_spec 1 (List.length rc)) as [Hl|Hl]; cbn; rewrite Hne1;
        [|reflexivity].
      apply Hne2, String.eqb_neq in Hl. now rewrite Hl. }
  destruct (for_each_Done_In (columns_kept self fs tc pc) _ (merge_one (_pulsemap self))
              (fun x k st st' k' u' _ HI Hs =>
                 merge_one_keeps_columns self fs tc pc x k st st' k' u' HI Hs)
              _ _ _ _ _ file HI2 Hm Hfile)
    as (k1 & st1 & st2 & k2 & u' & HI1 & Hstep).
  pose proof (merge_one_columns_within self fs tc pc file k1 st1 st2 k2 u' name t c
                HI1 Hstep Hname Hassoc Hrows Hc) as Hin.
  destruct (String.eqb_spec name "truth") as [->|Hne].
  - exact (Hsampled _ Htc Hin).
  - destruct Hname as [-> | ->]; [congruence|]. exact (Hsampled _ Hpc Hin).
Qed.

Lemma for_each_app {A} (a b : list A) (body : A -> process unit) kill fs :
  for_each (a ++ b) body kill fs = (for_each a body ;;; for_each b body) kill fs.
Proof.
  revert kill fs. induction a as [|x a IH]; intros kill fs; cbn [app for_each].
  - reflexivity.
  - unfold bind in *.
    destruct (body x kill fs) as [[fs1 kill1] [[]|e|]]; [|reflexivity|reflexivity].
    apply IH.
Qed.

Lemma never_crashes_kill {A} (m : process A) fs fs' kill' out :
  never_crashes m -> m None fs = (fs', kill', out) -> kill' = None.
Proof. intros H E. destruct (H fs) as [Hk _]. now rewrite E in Hk. Qed.

(** The tables as [_create_empty_tables] leaves them have the sampled
    columns. *)
Lemma created_columns_kept self fs tc pc rc kill fs2 kill2 u :
  _create_empty_tables (_pulsemap self) tc pc rc kill fs = (fs2, kill2, Done u) ->
  columns_kept self fs tc pc fs2 /\ _pulsemap self <> "truth".
Proof.
  intros Hcr. apply _create_empty_tables_Done in Hcr.
  destruct Hcr as (Htmp2 & Hfin2 & Hne1 & Hne2 & Hno1 & Hno2 & _).
  split; [|assumption].
  split; [exact Htmp2|]. rewrite Hfin2. unfold table_columns. cbn [tables].
  rewrite has_table_assoc in Hno1, Hno2. split.
  - apply created_table_columns.
    now destruct (assoc "truth" (tables (final fs))).
  - replace (tables (final fs) ++ [("truth", created_table tc false)] ++
             (if (1 <? List.length rc)%nat
              then [("RetroReco", created_table rc false)] else []) ++
             [(_pulsemap self, created_table pc true)])
      with ((tables (final fs) ++ [("truth", created_table tc false)] ++
             (if (1 <? List.length rc)%nat
              then [("RetroReco", created_table rc false)] else [])) ++
             (_pulsemap self, created_table pc true) :: [])
      by now rewrite <- !app_assoc.
    apply created_table_columns. rewrite !assoc_app.
    destruct (assoc (_pulsemap self) (tables (final fs))); [discriminate|].
    apply String.eqb_neq in Hne1.
    destruct (Nat.ltb_spec 1 (List.length rc)) as [Hl|Hl]; cbn; rewrite Hne1;
      [|reflexivity].
    apply Hne2, String.eqb_neq in Hl. now rewrite Hl.
Qed.

Lemma to_sql_unknown_column df key db t c :
  assoc key (tables db) = Some t -> data df <> [] ->
  In c (columns df) -> ~ In c (map fst (coldefs t)) ->
  to_sql df key db = Err OperationalError.
Proof.
  intros Ht Hd Hc Hn. unfold to_sql. rewrite Ht.
  destruct (data df); [congruence|].
  destruct (forallb _ _) eqn:E; [|reflexivity].
  exfalso. apply Hn. eapply forallb_mem_In; eassumption.
Qed.

Lemma write_final_run f fs :
  write_final f None fs
  = match f (final fs) with
    | Ok d => ({| tmp := tmp fs; final := d |}, None, Done tt)
    | Err e => (fs, None, Raised e)
    end.
Proof.
  unfold write_final, write. cbn. destruct (f (final fs)); reflexivity.
Qed.

(** The shard [file] holds rows with a column [c] that the final table
    [name] lacks: appending the shard ends with an exception and adds
    nothing to that table; for the truth table it is the refusal of the
    first append, when the shard's pulse table can be read. *)
Lemma merge_one_refused self fs tc pc st file name c t :
  columns_kept self fs tc pc st ->
  _pulsemap self <> "truth" ->
  name = "truth" \/ name = _pulsemap self ->
  assoc name (tables (open_db file (tmp fs))) = Some t ->
  rows t <> [] ->
  In c (map fst (coldefs t)) ->
  ~ In c (if String.eqb name "truth" then tc else pc) ->
  exists st' e,
    merge_one (_pulsemap self) file None st = (st', None, Raised e) /\
    tmp st' = tmp st /\
    assoc name (tables (final st')) = assoc name (tables (final st)) /\
    (name = "truth" ->
     has_table (_pulsemap self) (open_db file (tmp fs)) = true ->
     st' = st /\ e = OperationalError).
Proof.
  intros (HT & Htc & Hpc) Hne Hname Hassoc Hrows Hc Hnot.
  unfold merge_one, _extract_everything, connect_tmp.
  unfold bind at 1. unfold bind at 1. unfold bind at 1.
  assert (Hdb : open_db file (tmp st) = open_db file (tmp fs)) by now rewrite HT.
  rewrite Hdb. clear Hdb.
  set (db := open_db file (tmp fs)) in *.
  unfold table_columns in Htc, Hpc.
  destruct (assoc "truth" (tables (final st))) as [t0|] eqn:Et0; [|discriminate].
  destruct (assoc (_pulsemap self) (tables (final st))) as [p0|] eqn:Ep0;
    [|discriminate].
  cbn in Htc, Hpc. injection Htc as Htc. injection Hpc as Hpc.
  destruct Hname as [-> | ->].
  - (* the truth table *)
    change (~ In c tc) in Hnot.
    unfold read_sql at 1. rewrite Hassoc. cbn [lift ret].
    unfold bind at 1.
    destruct (read_sql (_pulsemap self) db) as [features|e] eqn:Ef; cbn [lift ret raise].
    + unfold bind at 1. unfold _submit_to_database at 1.
      unfold len. cbn [data].
      destruct (rows t) as [|r rs] eqn:Er; [congruence|]. cbn [List.length Nat.eqb].
      rewrite write_final_run.
      rewrite (to_sql_unknown_column _ "truth" (final st) t0 c);
        [|assumption|cbn; discriminate|assumption|now rewrite Htc].
      exists st, OperationalError. repeat split; reflexivity.
    + exists st, e. split; [reflexivity|]. split; [reflexivity|].
      split; [reflexivity|]. intros _ Hh. rewrite has_table_assoc in Hh.
      unfold read_sql in Ef. destruct (assoc (_pulsemap self) (tables db));
        discriminate.
  - (* the pulse table *)
    apply String.eqb_neq in Hne. rewrite Hne in Hnot.
    apply String.eqb_neq in Hne.
    destruct (read_sql "truth" db) as [truth|e] eqn:Etr; cbn [lift ret raise].
    2:{ exists st, e. split; [reflexivity|]. split; [reflexivity|].
        split; [reflexivity|]. intros E. congruence. }
    unfold bind at 1. unfold read_sql at 1. rewrite Hassoc. cbn [lift ret].
    unfold bind at 1.
    assert (Hpulse : forall st1,
               tmp st1 = tmp st ->
               assoc (_pulsemap self) (tables (final st1)) = Some p0 ->
               exists st' e,
                 (_submit_to_database (_pulsemap self)
                    {| columns := map fst (coldefs t); data := rows t |} ;;;
                  _submit_to_database "RetroReco"
                    (match read_sql "RetroReco" db with
                     | Ok retro => retro
                     | Err _ => pd_DataFrame
                     end)) None st1 = (st', None, Raised e) /\
                 tmp st' = tmp st /\
                 assoc (_pulsemap self) (tables (final st')) = Some p0).
    { intros st1 Ht1 Hp1. unfold bind at 1. unfold _submit_to_database at 1.
      unfold len. cbn [data].
      destruct (rows t) as [|r rs] eqn:Er; [congruence|]. cbn [List.length Nat.eqb].
      rewrite write_final_run.
      rewrite (to_sql_unknown_column _ (_pulsemap self) (final st1) p0 c);
        [|assumption|cbn; discriminate|assumption|now rewrite Hpc].
      exists st1, OperationalError. repeat split; assumption. }
    unfold _submit_to_database at 1.
    destruct (len truth =? 0)%nat.
    + unfold ret. destruct (Hpulse st eq_refl Ep0) as (st' & e & E & Ht' & Hp').
      exists st', e. rewrite E. split; [reflexivity|]. split; [assumption|].
      split; [congruence|]. intros E'. congruence.
    + rewrite write_final_run.
      destruct (to_sql truth "truth" (final st)) as [d1|e] eqn:E1.
      * destruct (to_sql_existing _ _ _ _ _ Et0 E1) as (_ & _ & _ & _ & Hother).
        destruct (Hpulse {| tmp := tmp st; final := d1 |} eq_refl)
          as (st' & e & E & Ht' & Hp').
        { cbn [final]. rewrite Hother by assumption. exact Ep0. }
        exists st', e. rewrite E. split; [reflexivity|]. split; [assumption|].
        split; [congruence|]. intros E'. congruence.
      * exists st, e. split; [reflexivity|]. split; [reflexivity|].
        split; [reflexivity|]. intros E'. congruence.
Qed.

(** What [merge_upto] has done when it ends well. *)
Lemma merge_upto_Done self before fs st :
  run (merge_upto self before) fs = (st, Done tt) ->
  exists tc pc rc fs2,
    sampled_columns "truth" fs = Some tc /\
    sampled_columns (_pulsemap self) fs = Some pc /\
    _extract_column_names (map fst (tmp fs)) (_pulsemap self) None fs
      = (fs, None, Done (tc, pc, rc)) /\
    _create_empty_tables (_pulsemap self) tc pc rc None fs = (fs2, None, Done tt) /\
    for_each before (merge_one (_pulsemap self)) None fs2 = (st, None, Done tt) /\
    columns_kept self fs tc pc st /\
    _pulsemap self <> "truth".
Proof.
  unfold run. intros H.
  destruct (merge_upto self before None fs) as [[st0 k0] o] eqn:E.
  injection H as -> ->. unfold merge_upto in E.
  apply bind_Done in E. destruct E as (db_files & fs0 & kill0 & Hg & E).
  unfold glob_tmp in Hg. injection Hg as <- <- <-.
  apply bind_Done in E. destruct E as ([[tc pc] rc] & fs1 & kill1 & Hx & E).
  pose proof Hx as Hx'. apply _extract_column_names_Done in Hx'.
  destruct Hx' as (-> & -> & f0 & rest & Hfiles & Htc & Hpc & _).
  assert (Hopen : forall n, table_columns n (open_db f0 (tmp fs)) = sampled_columns n fs).
  { intros n. unfold sampled_columns, open_db.
    destruct (tmp fs) as [|[f db] shards]; [discriminate|].
    cbn in Hfiles. injection Hfiles as -> _. cbn. now rewrite String.eqb_refl. }
  rewrite Hopen in Htc, Hpc.
  apply bind_Done in E. destruct E as ([] & fs2 & kill2 & Hcr & Hm).
  pose proof (never_crashes_kill _ _ _ _ _
                (never_crashes_create_empty_tables _ tc pc rc) Hcr) as ->.
  unfold _merge_temporary_databases in Hm.
  pose proof (never_crashes_kill _ _ _ _ _
                (never_crashes_for_each before _
                   (never_crashes_merge_one (_pulsemap self))) Hm) as ->.
  destruct (created_columns_kept _ _ _ _ _ _ _ _ _ Hcr) as (HI2 & Hne).
  exists tc, pc, rc, fs2.
  split; [assumption|]. split; [assumption|]. split; [assumption|].
  split; [assumption|]. split; [assumption|]. split; [|assumption].
  eapply (for_each_Done_inv (columns_kept self fs tc pc)); [|exact HI2|exact Hm].
  intros x k st1 st1' k' u _ HI Hs.
  eapply merge_one_keeps_columns; eassumption.
Qed.


(** ** RetroReco tables of one column *)

Lemma assoc_of_key {V} k (l : list (string * V)) :
  In k (map fst l) -> exists v, assoc k l = Some v.
Proof.
  intros Hin. apply mem_In in Hin. rewrite mem_keys_assoc in Hin.
  destruct (assoc k l) as [v|]; [now exists v|discriminate].
Qed.

Lemma open_db_In file dir :
  In file (map fst dir) -> In (file, open_db file dir) dir.
Proof.
  intros Hin. destruct (assoc_of_key _ _ Hin) as (v & Hv).
  unfold open_db. rewrite Hv. now apply assoc_In.
Qed.

Lemma retro_sample_one_column db rest retro_columns c :
  table_columns "RetroReco" db = Some [c] ->
  retro_sample (db :: rest) retro_columns = Some [c].
Proof.
  unfold table_columns. cbn [retro_sample]. unfold read_sql_limit_1.
  destruct (assoc "RetroReco" (tables db)) as [t|]; [|discriminate].
  cbn. intros [= ->]. reflexivity.
Qed.

Lemma submit_keeps_table key data db db' name :
  submit key data db = Ok db' -> has_table name db = true ->
  has_table name db' = true.
Proof.
  intros H. apply submit_keeps_schema in H. destruct H as (_ & H).
  rewrite !has_table_assoc.
  destruct (assoc name (tables db)) as [t|] eqn:E; [|discriminate].
  destruct (H _ _ E) as (t' & -> & _). reflexivity.
Qed.

Lemma submit_rows_has_table key df db db' :
  submit key df db = Ok db' -> data df <> [] ->
  has_table key db' = true.
Proof.
  unfold submit, len. intros H Hrows.
  destruct (data df) eqn:E; [congruence|]. cbn in H.
  eapply to_sql_has_table; eassumption.
Qed.

Lemma merge_one_keeps_table pulse_map file kill st st' kill' u name :
  merge_one pulse_map file kill st = (st', kill', Done u) ->
  has_table name (final st) = true -> has_table name (final st') = true.
Proof.
  intros H Hn. apply merge_one_Done in H. cbv zeta in H.
  destruct H as (truth & features & d1 & d2 & _ & _ & S1 & S2 & S3 & _).
  eapply submit_keeps_table; [exact S3|].
  eapply submit_keeps_table; [exact S2|].
  eapply submit_keeps_table; [exact S1|exact Hn].
Qed.

(** Once a shard with RetroReco rows has been appended, the final
    database has a RetroReco table, whether it was created before or not. *)
Lemma merge_creates_retro pulse_map tmp0 db_files :
  forall kill st st' kill' u file,
    tmp st = tmp0 ->
    for_each db_files (merge_one pulse_map) kill st = (st', kill', Done u) ->
    In file db_files ->
    data (retro_of (open_db file tmp0)) <> [] ->
    has_table "RetroReco" (final st') = true.
Proof.
  induction db_files as [|f rest IH]; intros kill st st' kill' u file Htmp Hrun Hin Hrows;
    [destruct Hin|].
  cbn [for_each] in Hrun.
  apply bind_Done in Hrun. destruct Hrun as ([] & st1 & kill1 & H1 & H2).
  assert (Htmp1 : tmp st1 = tmp0).
  { pose proof (keeps_tmp_merge_one pulse_map f kill st) as K.
    rewrite H1 in K. cbn in K. congruence. }
  destruct Hin as [->|Hin]; [|eapply IH; eauto].
  assert (Hhas : has_table "RetroReco" (final st1) = true).
  { apply merge_one_Done in H1. cbv zeta in H1. rewrite Htmp in H1.
    destruct H1 as (truth & features & d1 & d2 & _ & _ & _ & _ & S3 & _).
    eapply submit_rows_has_table; eassumption. }
  clear -Hhas H2.
  eapply (for_each_Done_inv (fun s => has_table "RetroReco" (final s) = true));
    [|exact Hhas|exact H2].
  intros x k s s' k' u0 _ Hs Hstep. eapply merge_one_keeps_table; eassumption.
Qed.

(** C10 (amended).  When every shard's RetroReco table has exactly one
    column, one column is sampled and [_create_empty_tables] creates no
    RetroReco table: the final database has none when its tables have been
    created.  A merge that runs to its end leaves one there all the same as
    soon as some shard has a RetroReco row: appending the row creates the
    table. *)
Theorem retro_table_of_one_column (self : SQLiteDataConverter) (fs : filesystem) :
  final fs = empty_db ->
  _pulsemap self <> "RetroReco" ->
  (forall file db, In (file, db) (tmp fs) ->
                   exists c, table_columns "RetroReco" db = Some [c]) ->
  (* when the tables have been created there is no RetroReco table *)
  (forall kill fs1 kill1 tc pc rc fs2 kill2,
      _extract_column_names (map fst (tmp fs)) (_pulsemap self) kill fs
        = (fs1, kill1, Done (tc, pc, rc)) ->
      _create_empty_tables (_pulsemap self) tc pc rc kill1 fs1
        = (fs2, kill2, Done tt) ->
      List.length rc = 1%nat /\ has_table "RetroReco" (final fs2) = false) /\
  (* appending a shard's RetroReco rows creates it *)
  (forall kill fs' kill' file,
      _merge_databases self kill fs = (fs', kill', Done tt) ->
      In file (map fst (tmp fs)) ->
      data (retro_of (open_db file (tmp fs))) <> [] ->
      has_table "RetroReco" (final fs') = true).
Proof.
  intros Hfresh Hpulse Hone. split.
  - intros kill fs1 kill1 tc pc rc fs2 kill2 Hx Hc.
    apply _extract_column_names_Done in Hx.
    destruct Hx as (-> & -> & f0 & rest & Hfiles & _ & _ & Hrc).
    rewrite Hfiles in Hrc. cbn [map] in Hrc.
    assert (Hin : In f0 (map fst (tmp fs))) by (rewrite Hfiles; now left).
    apply open_db_In in Hin. destruct (Hone _ _ Hin) as (c & Hc1).
    rewrite (retro_sample_one_column _ _ _ _ Hc1) in Hrc. injection Hrc as <-.
    split; [reflexivity|].
    apply _create_empty_tables_Done in Hc. destruct Hc as (_ & Hfin & _).
    rewrite Hfin, Hfresh. cbn.
    destruct (has_table "RetroReco" _) eqn:Eh; [|reflexivity].
    unfold has_table, table_names in Eh. cbn in Eh. apply mem_In in Eh.
    destruct Eh as [Eh|[Eh|[]]]; [discriminate|congruence].
  - intros kill fs' kill' file H Hin Hrows.
    unfold _merge_databases in H.
    apply bind_Done in H. destruct H as (db_files & fs0 & kill0 & Hg & H).
    unfold glob_tmp in Hg. injection Hg as <- <- <-.
    destruct (Nat.ltb_spec 0 (List.length (map fst (tmp fs)))) as [_|Hlen];
      [|destruct (tmp fs); [destruct Hin|cbn in Hlen; lia]].
    apply bind_Done in H. destruct H as ([[tc pc] rc] & fs1 & kill1 & Hx & H).
    apply _extract_column_names_Done in Hx. destruct Hx as (-> & -> & _).
    apply bind_Done in H. destruct H as ([] & fs2 & kill2 & Hc & H).
    apply _create_empty_tables_Done in Hc. destruct Hc as (Htmp2 & _).
    apply bind_Done in H. destruct H as ([] & fs3 & kill3 & Hm & H).
    apply write_Done in H. destruct H as (H & _). injection H as <-. cbn [final].
    eapply merge_creates_retro; eauto.
Qed.

(** ** Writing a shard *)

Lemma write_tmp_run file f fs :
  write_tmp file f None fs
  = match f (open_db file (tmp fs)) with
    | Ok d => ({| tmp := put_assoc file d (tmp fs); final := final fs |}, None, Done tt)
    | Err e => (fs, None, Raised e)
    end.
Proof.
  unfold write_tmp, write. cbn.
  destruct (f (open_db file (tmp fs))); reflexivity.
Qed.

Lemma assoc_put_assoc {V} k (v : V) l : assoc k (put_assoc k v l) = Some v.
Proof.
  unfold put_assoc. destruct (assoc k l) as [v0|] eqn:E.
  - eapply assoc_replace_assoc_same; eassumption.
  - rewrite assoc_app, E. cbn. now rewrite String.eqb_refl.
Qed.

Lemma open_db_put_assoc file d dir : open_db file (put_assoc file d dir) = d.
Proof. unfold open_db. now rewrite assoc_put_assoc. Qed.

Lemma to_sql_new df name db :
  assoc name (tables db) = None -> columns df <> [] ->
  to_sql df name db
  = Ok {| tables := tables db ++ [(name, table_of_frame df)];
          indexes := indexes db |}.
Proof.
  intros Hn Hc. unfold to_sql. rewrite Hn.
  destruct (columns df) eqn:E; [congruence|]. unfold table_of_frame.
  now rewrite E.
Qed.

Lemma read_sql_table_of_frame name df (l1 l2 : list (string * table)) idx :
  assoc name l1 = None ->
  read_sql name {| tables := l1 ++ (name, table_of_frame df) :: l2; indexes := idx |}
  = Ok df.
Proof.
  intros Hn. unfold read_sql. cbn [tables]. rewrite assoc_app, Hn. cbn.
  rewrite String.eqb_refl. cbn. rewrite map_map. cbn. rewrite map_id.
  now destruct df.
Qed.

Lemma lower_neq (s t : string) : lower s <> lower t -> s <> t.
Proof.
  intros H ->. now apply H.
Qed.

Lemma to_sql_no_columns df name db :
  assoc name (tables db) = None -> columns df = [] ->
  to_sql df name db = Err OperationalError.
Proof.
  intros Hn Hc. unfold to_sql. now rewrite Hn, Hc.
Qed.

(** C9.  Writing a shard to a file that does not exist yet, for a pulsemap
    that is not called truth or RetroReco in any case of the letters, from
    buffers whose columns differ also when the case is ignored (SQLite
    refuses a table with two columns of one name).  A truth buffer that is
    not empty always leaves its table, with its rows, in the file, even
    when a later write raises.  A RetroReco buffer without rows leaves no
    RetroReco table; one with rows leaves its table.  A feature buffer that
    is not empty leaves its table, and then the write ends well; an empty
    feature buffer leaves none: its write raises, after the truth table is
    written.  A buffer that is not empty has a column, as every buffer with
    rows has (event_no, see [buffer_frame_columns]). *)
Theorem save_to_sql_tables (feature_big truth_big retro_big : DataFrame)
  (id : string) (output_count : nat) (pulsemap : string) (fs : filesystem) :
  assoc (shard_name id output_count) (tmp fs) = None ->
  lower pulsemap <> "truth" -> lower pulsemap <> "retroreco" ->
  columns truth_big <> [] -> NoDup (map lower (columns truth_big)) ->
  let r := run (save_to_sql feature_big truth_big retro_big id output_count
                  pulsemap) fs in
  let shard := open_db (shard_name id output_count) (tmp (fst r)) in
  final (fst r) = final fs /\
  read_sql "truth" shard = Ok truth_big /\
  (len retro_big = O -> has_table "RetroReco" shard = false) /\
  ((0 < len retro_big)%nat ->
   columns retro_big <> [] -> NoDup (map lower (columns retro_big)) ->
   read_sql "RetroReco" shard = Ok retro_big) /\
  (((0 < len retro_big)%nat ->
    columns retro_big <> [] /\ NoDup (map lower (columns retro_big))) ->
   columns feature_big <> [] -> NoDup (map lower (columns feature_big)) ->
   read_sql pulsemap shard = Ok feature_big /\ snd r = Done tt) /\
  (columns feature_big = [] ->
   has_table pulsemap shard = false /\ exists e, snd r = Raised e).
Proof.
  intros Hnew Hl1 Hl2 Ht _ r shard.
  assert (Hp1 : pulsemap <> "truth") by (apply lower_neq; exact Hl1).
  assert (Hp2 : pulsemap <> "RetroReco") by (apply lower_neq; exact Hl2).
  assert (Hp2' : "RetroReco" <> pulsemap) by congruence.
  apply String.eqb_neq in Hp1, Hp2, Hp2'.
  assert (Ho : open_db (shard_name id output_count) (tmp fs) = empty_db)
    by (unfold open_db; now rewrite Hnew).
  assert (Hpt : has_table pulsemap
                  {| tables := [("truth", table_of_frame truth_big)];
                     indexes := [] |} = false)
    by (rewrite has_table_assoc; unfold assoc; cbn [tables]; now rewrite Hp1).
  assert (Hptr : has_table pulsemap
                   {| tables := [("truth", table_of_frame truth_big);
                                 ("RetroReco", table_of_frame retro_big)];
                      indexes := [] |} = false)
    by (rewrite has_table_assoc; unfold assoc; cbn [tables]; now rewrite Hp1, Hp2).
  assert (Hrt : has_table "RetroReco"
                  {| tables := [("truth", table_of_frame truth_big);
                                (pulsemap, table_of_frame feature_big)];
                     indexes := [] |} = false)
    by (rewrite has_table_assoc; unfold assoc; cbn [tables]; now rewrite Hp2').
  subst shard. set (engine := shard_name id output_count) in *.
  (* the truth buffer is written first, whatever follows *)
  assert (E1 : r = let '(fs', _, out) :=
                     ((if (0 <? len retro_big)%nat
                       then write_tmp engine (to_sql retro_big "RetroReco")
                       else ret tt) ;;;
                      write_tmp engine (to_sql feature_big pulsemap)) None
                       {| tmp := put_assoc engine
                                   {| tables := [("truth", table_of_frame truth_big)];
                                      indexes := [] |} (tmp fs);
                          final := final fs |}
                   in (fs', out)).
  { subst r. unfold run, save_to_sql. fold engine. unfold bind at 1.
    rewrite write_tmp_run, Ho, to_sql_new by (assumption || reflexivity).
    reflexivity. }
  clearbody r. subst r.
  match goal with
  | |- context [?p None ?fs1] =>
      destruct (p None fs1) as [[fs' kill'] out] eqn:Ep
  end.
  cbn [fst snd]. unfold bind at 1 in Ep.
  destruct (Nat.ltb_spec 0 (len retro_big)) as [Hlen|Hlen].
  - (* the RetroReco buffer has rows *)
    rewrite write_tmp_run in Ep. cbn [tmp final] in Ep.
    rewrite open_db_put_assoc in Ep.
    destruct (columns retro_big) as [|rc0 rcs] eqn:Hr.
    + (* and no column: its write raises before the features are written *)
      rewrite to_sql_no_columns in Ep by (assumption || reflexivity).
      injection Ep as <- <- <-. cbn [tmp final]. rewrite open_db_put_assoc.
      split; [reflexivity|].
      split; [apply (read_sql_table_of_frame "truth" truth_big [] [] []); reflexivity|].
      split; [lia|]. split; [congruence|].
      split; [intros Hc; destruct (Hc Hlen) as [Hx _]; congruence|].
      intros _. split; [exact Hpt|]. eexists; reflexivity.
    + rewrite to_sql_new in Ep by (reflexivity || congruence).
      cbn [tables indexes app] in Ep.
      rewrite write_tmp_run in Ep. cbn [tmp final] in Ep.
      rewrite open_db_put_assoc in Ep.
      destruct (columns feature_big) as [|fc0 fcs] eqn:Hf.
      * rewrite to_sql_no_columns in Ep;
          [|cbn; now rewrite Hp1, Hp2|assumption].
        injection Ep as <- <- <-. cbn [tmp final]. rewrite open_db_put_assoc.
        split; [reflexivity|].
        split; [apply (read_sql_table_of_frame "truth" truth_big [] _ []); reflexivity|].
        split; [lia|].
        split; [intros _ _ _;
                apply (read_sql_table_of_frame "RetroReco" retro_big
                         [("truth", table_of_frame truth_big)] [] []); reflexivity|].
        split; [congruence|].
        intros _. split; [exact Hptr|]. eexists; reflexivity.
      * rewrite to_sql_new in Ep; [|cbn; now rewrite Hp1, Hp2|congruence].
        cbn [tables indexes app] in Ep.
        injection Ep as <- <- <-. cbn [tmp final]. rewrite open_db_put_assoc.
        split; [reflexivity|].
        split; [apply (read_sql_table_of_frame "truth" truth_big [] _ []); reflexivity|].
        split; [lia|].
        split; [intros _ _ _;
                apply (read_sql_table_of_frame "RetroReco" retro_big
                         [("truth", table_of_frame truth_big)] _ []); reflexivity|].
        split; [|discriminate].
        intros _ _ _. split; [|reflexivity].
        apply (read_sql_table_of_frame pulsemap feature_big
                 [("truth", table_of_frame truth_big);
                  ("RetroReco", table_of_frame retro_big)] [] []).
        cbn. now rewrite Hp1, Hp2.
  - (* the RetroReco buffer is empty: nothing is written for it *)
    unfold ret in Ep. rewrite write_tmp_run in Ep. cbn [tmp final] in Ep.
    rewrite open_db_put_assoc in Ep.
    destruct (columns feature_big) as [|fc0 fcs] eqn:Hf.
    + rewrite to_sql_no_columns in Ep; [|cbn; now rewrite Hp1|assumption].
      injection Ep as <- <- <-. cbn [tmp final]. rewrite open_db_put_assoc.
      split; [reflexivity|].
      split; [apply (read_sql_table_of_frame "truth" truth_big [] [] []); reflexivity|].
      split; [intros _; reflexivity|]. split; [lia|].
      split; [congruence|].
      intros _. split; [exact Hpt|]. eexists; reflexivity.
    + rewrite to_sql_new in Ep; [|cbn; now rewrite Hp1|congruence].
      cbn [tables indexes app] in Ep.
      injection Ep as <- <- <-. cbn [tmp final]. rewrite open_db_put_assoc.
      split; [reflexivity|].
      split; [apply (read_sql_table_of_frame "truth" truth_big [] _ []); reflexivity|].
      split; [intros _; exact Hrt|]. split; [lia|].
      split; [|discriminate].
      intros _ _ _. split; [|reflexivity].
      apply (read_sql_table_of_frame pulsemap feature_big
               [("truth", table_of_frame truth_big)] [] []).
      cbn. now rewrite Hp1.
Qed.

(** ** The buffers carry the event_no column *)

Lemma In_insert_sorted c x l : In c (insert_sorted x l) <-> c = x \/ In c l.
Proof.
  induction l as [|y l IH]; cbn; [intuition congruence|].
  destruct (String.leb x y); cbn; [intuition congruence|].
  rewrite IH. intuition congruence.
Qed.

Lemma In_sorted c l : In c (sorted l) <-> In c l.
Proof.
  unfold sorted. induction l as [|x l IH]; cbn; [tauto|].
  rewrite In_insert_sorted, IH. intuition congruence.
Qed.

Lemma columns_df_append c a b :
  In c (columns (df_append a b)) <-> In c (columns a) \/ In c (columns b).
Proof.
  unfold df_append, union. cbn [columns].
  now rewrite In_sorted, nodup_In, in_app_iff.
Qed.

Lemma apply_event_no_columns e r k df :
  apply_event_no e r k = Ok df -> In "event_no" (columns df).
Proof.
  unfold apply_event_no. intros H.
  apply result_bind_Ok in H. destruct H as (no & _ & [= <-]).
  unfold set_column.
  destruct (index_of "event_no" (columns (frame_of e))) eqn:E; cbn [columns].
  - apply mem_In. unfold mem. now rewrite E.
  - apply in_or_app. right. now left.
Qed.

Lemma buffer_frame_columns s fr l l' :
  buffer_frame s fr l = Ok l' ->
  In "event_no" (columns (truth_big l')) /\
  (is_empty (features fr) = Ok false -> In "event_no" (columns (feature_big l'))).
Proof.
  unfold buffer_frame. intros H.
  apply result_bind_Ok in H. destruct H as (truth & Htruth & H).
  apply result_bind_Ok in H. destruct H as (rb & _ & H).
  apply result_bind_Ok in H. destruct H as (empty & Hempty & H).
  apply result_bind_Ok in H. destruct H as (fb & Hfb & [= <-]).
  cbn [truth_big feature_big]. split.
  - apply columns_df_append. right. eapply apply_event_no_columns; eassumption.
  - intros He. rewrite He in Hempty. injection Hempty as <-. cbn [negb] in Hfb.
    apply result_bind_Ok in Hfb. destruct Hfb as (f & Hf & [= <-]).
    apply columns_df_append. right. eapply apply_event_no_columns; eassumption.
Qed.

(** * Instances and counterexamples *)


Lemma no_retro_no_table_witness :
  table_names (final (fst (run (_merge_databases ex_self)
                               (ex_two_shards ex_shard_narrow))))
    = ["truth"; "SRTInIcePulses"] /\
  has_table "RetroReco"
    (final (fst (run (_merge_databases ex_self) (ex_two_shards ex_shard_narrow))))
    = false.
Proof.
  apply (no_retro_no_table ex_self None (ex_two_shards ex_shard_narrow)
           (fst (run (_merge_databases ex_self) (ex_two_shards ex_shard_narrow)))
           None).
  - reflexivity.
  - simpl. intros file db [H|[H|[]]]; injection H as <- <-; reflexivity.
  - vm_compute. reflexivity.
Defined.

Lemma empty_features_leave_feature_buffer_witness :
  exists l' cols row,
    buffer_frame (ex_settings []) ex_empty_frame ex_locals = Ok l' /\
    feature_big l' = feature_big ex_locals /\
    truth_big l'
      = df_append (truth_big ex_locals) {| columns := cols; data := [row] |} /\
    cell cols row "event_no"
      = PyNum (start (event_no_list (ex_settings []))
               + Z.of_nat (event_counter ex_locals)) /\
    len (truth_big l') = S (len (truth_big ex_locals)) /\
    event_counter l' = S (event_counter ex_locals).
Proof.
  apply (empty_features_leave_feature_buffer (ex_settings []) ex_empty_frame
           ex_locals [("energy", PyNum 20); ("zenith", PyNum 1)]).
  - reflexivity.
  - reflexivity.
  - discriminate.
  - vm_compute. reflexivity.
Defined.

Lemma final_schema_constraints_witness :
  let fs' := fst (fst (_create_empty_tables "SRTInIcePulses"
                         ["energy"; "event_no"; "zenith"] ["dom_x"; "event_no"] []
                         None ex_fresh)) in
  (exists t, assoc "truth" (tables (final fs')) = Some t /\
             map fst (coldefs t) = ["energy"; "event_no"; "zenith"] /\
             forall c d, In (c, d) (coldefs t) ->
               d = if String.eqb c "event_no"
                   then INTEGER_PRIMARY_KEY_NOT_NULL else FLOAT) /\
  (exists t, assoc "SRTInIcePulses" (tables (final fs')) = Some t /\
             map fst (coldefs t) = ["dom_x"; "event_no"] /\
             In "event_no" ["dom_x"; "event_no"] /\
             forall c d, In (c, d) (coldefs t) ->
               d = if String.eqb c "event_no" then NOT_NULL else FLOAT) /\
  indexes (final fs') = [event_no_index "SRTInIcePulses"].
Proof.
  intros fs'.
  apply (final_schema_constraints "SRTInIcePulses"
           ["energy"; "event_no"; "zenith"] ["dom_x"; "event_no"] []
           None ex_fresh fs' None).
  - reflexivity.
  - vm_compute. reflexivity.
Defined.

(** C8, as stated, fails: a file whose first read raises and a file
    without that record leave the worker with the same local variables
    and the same files on disk, so nothing the worker keeps tells how many
    records were skipped. *)
Lemma skipped_records_not_counted :
  ~ exists count : filesystem * outcome locals -> nat,
      forall self s fs,
        count (run (_parallel_extraction self s) fs) = skipped_records s.
Proof.
  intros [count H].
  pose proof (H ex_self (ex_settings [PopRaises; PopFrame (Ok ex_frame)]) ex_fresh) as H1.
  pose proof (H ex_self (ex_settings [PopFrame (Ok ex_frame)]) ex_fresh) as H0.
  vm_compute in H1, H0. congruence.
Qed.

(** C10, as stated, fails: both shards have a RetroReco table of the one
    column event_no, the merge ends well, and the final database has a
    RetroReco table. *)
Lemma one_column_retro_table_in_final_store :
  map (fun shard => table_columns "RetroReco" (snd shard)) (tmp ex_retro_shards)
    = [Some ["event_no"]; Some ["event_no"]] /\
  snd (run (_merge_databases ex_self) ex_retro_shards) = Done tt /\
  has_table "RetroReco" (final (fst (run (_merge_databases ex_self) ex_retro_shards)))
    = true.
Proof. vm_compute. repeat split. Qed.

Lemma retro_table_of_one_column_witness :
  (forall kill fs1 kill1 tc pc rc fs2 kill2,
      _extract_column_names (map fst (tmp ex_retro_shards)) (_pulsemap ex_self)
                            kill ex_retro_shards
        = (fs1, kill1, Done (tc, pc, rc)) ->
      _create_empty_tables (_pulsemap ex_self) tc pc rc kill1 fs1
        = (fs2, kill2, Done tt) ->
      List.length rc = 1%nat /\ has_table "RetroReco" (final fs2) = false) /\
  (forall kill fs' kill' file,
      _merge_databases ex_self kill ex_retro_shards = (fs', kill', Done tt) ->
      In file (map fst (tmp ex_retro_shards)) ->
      data (retro_of (open_db file (tmp ex_retro_shards))) <> [] ->
      has_table "RetroReco" (final fs') = true).
Proof.
  apply (retro_table_of_one_column ex_self ex_retro_shards).
  - reflexivity.
  - discriminate.
  - simpl. intros file db [H|[H|[]]]; injection H as <- <-;
      exists "event_no"; reflexivity.
Defined.

(* ================================================================== *)
(** * Further properties *)

(** ** The files of the workers *)

Lemma firstn_plus {A} (n m : nat) (l : list A) :
  firstn (n + m) l = firstn n l ++ firstn m (skipn n l).
Proof.
  revert l. induction n as [|n IH]; intros l; [reflexivity|].
  destruct l as [|x l]; cbn.
  - now rewrite firstn_nil.
  - now rewrite IH.
Qed.

Lemma array_split_list {A} (l : list A) (k : Z) :
  0 < k ->
  array_split l k
  = Ok (map (fun r => slice l (start r) (stop r))
            (chain 0 (even_sizes (Z.of_nat (List.length l)) k))).
Proof.
  intros Hk. unfold array_split.
  destruct (Z.leb_spec k 0) as [?|_]; [lia|]. f_equal.
  cbn [size list_Sliceable]. unfold section_sizes.
  fold (even_sizes (Z.of_nat (List.length l)) k).
  unfold cumsum. cbn [app cumsum_from]. rewrite Z.add_0_l.
  rewrite <- (even_sizes_length (Z.of_nat (List.length l)) k Hk).
  apply split_by_points.
Qed.

Lemma concat_chain_slices {A} (l : list A) (sizes : list Z) :
  Forall (fun s => 0 <= s) sizes ->
  forall a, 0 <= a ->
    List.concat (map (fun r => slice l (start r) (stop r)) (chain a sizes))
    = firstn (Z.to_nat (sum sizes)) (skipn (Z.to_nat a) l).
Proof.
  induction 1 as [|s ss Hs Hss IH]; intros a Ha; [reflexivity|].
  cbn [chain map List.concat start stop].
  change (sum (s :: ss)) with (s + sum ss).
  pose proof (sum_nonneg _ Hss) as Hsum.
  rewrite IH by lia. cbn [slice list_Sliceable].
  replace (Z.to_nat (a + s) - Z.to_nat a)%nat with (Z.to_nat s) by lia.
  replace (Z.to_nat (s + sum ss))
    with (Z.to_nat s + Z.to_nat (sum ss))%nat by lia.
  rewrite firstn_plus, skipn_skipn.
  replace (Z.to_nat s + Z.to_nat a)%nat with (Z.to_nat (a + s)) by lia.
  reflexivity.
Qed.

Lemma concat_array_split {A} (l : list A) (k : Z) parts :
  array_split l k = Ok parts -> List.concat parts = l.
Proof.
  intros H. destruct (Z_lt_dec 0 k) as [Hk|Hk].
  - rewrite array_split_list in H by assumption. injection H as <-.
    pose proof (concat_chain_slices l _
                  (even_sizes_nonneg (Z.of_nat (List.length l)) k Hk ltac:(lia))
                  0 (Z.le_refl 0)) as Hc.
    cbn [slice list_Sliceable] in Hc. rewrite Hc.
    rewrite even_sizes_sum by assumption. cbn [Z.to_nat skipn].
    rewrite Nat2Z.id. apply firstn_all.
  - unfold array_split in H. destruct (Z.leb_spec k 0); [discriminate|lia].
Qed.

Lemma slice_length {A} (l : list A) (a b : Z) :
  0 <= a <= b -> b <= Z.of_nat (List.length l) ->
  Z.of_nat (List.length (slice l a b)) = b - a.
Proof.
  intros Ha Hb. cbn [slice list_Sliceable].
  rewrite length_firstn, length_skipn. lia.
Qed.

(** What [_process_files_settings] returns, spelled out. *)
Lemma settings_spec (self : SQLiteDataConverter) (i3_files : list i3file)
  (gcds : list string) ss :
  _process_files_settings self i3_files gcds = Ok ss ->
  let workers := Z.min (_workers self) (Z.of_nat (List.length i3_files)) in
  0 < workers /\
  map input_files ss
    = map (fun r => slice i3_files (start r) (stop r))
          (chain 0 (even_sizes (Z.of_nat (List.length i3_files)) workers)) /\
  map gcd_files ss
    = map (fun r => slice gcds (start r) (stop r))
          (chain 0 (even_sizes (Z.of_nat (List.length gcds)) workers)) /\
  map id ss = map str (seq 0 (Z.to_nat workers)).
Proof.
  intros H workers. unfold _process_files_settings in H. fold workers in H.
  destruct (Z_lt_dec 0 workers) as [Hw|Hw].
  - rewrite array_split_arange in H by lia. cbn [result_bind] in H.
    rewrite !array_split_list in H by assumption. cbn [result_bind] in H.
    injection H as <-. split; [assumption|]. rewrite !map_map.
    cbn [input_files gcd_files id]. repeat split.
    + rewrite <- (even_sizes_length (Z.of_nat (List.length i3_files)) workers Hw).
      rewrite <- (chain_length 0).
      rewrite <- (length_map (fun r => slice i3_files (start r) (stop r))).
      apply map_nth_seq.
    + rewrite <- (even_sizes_length (Z.of_nat (List.length gcds)) workers Hw).
      rewrite <- (chain_length 0).
      rewrite <- (length_map (fun r => slice gcds (start r) (stop r))).
      apply map_nth_seq.
  - unfold array_split in H at 1.
    destruct (Z.leb_spec workers 0) as [_|?]; [|lia]. discriminate.
Qed.

(** X1.  When [_process_files] has built the settings of the workers, the input
    files of the workers, taken in the order of the workers, are the given
    i3 files, none lost, repeated or moved; so are the GCD files; and with
    as many GCD files as i3 files every worker has as many of the ones as
    of the others. *)
Theorem files_split_among_workers (self : SQLiteDataConverter)
  (i3_files : list i3file) (gcds : list string) (ss : list settings) :
  _process_files_settings self i3_files gcds = Ok ss ->
  List.concat (map input_files ss) = i3_files /\
  List.concat (map gcd_files ss) = gcds /\
  (List.length gcds = List.length i3_files ->
   forall s, In s ss -> List.length (gcd_files s) = List.length (input_files s)).
Proof.
  intros H. pose proof (settings_spec _ _ _ _ H) as Hs. cbv zeta in Hs.
  set (workers := Z.min (_workers self) (Z.of_nat (List.length i3_files))) in *.
  destruct Hs as (Hw & Hin & Hgcd & _).
  split; [|split].
  - rewrite Hin. eapply concat_array_split. now apply array_split_list.
  - rewrite Hgcd. eapply concat_array_split. now apply array_split_list.
  - intros Hlen s Hs. rewrite Hlen in Hgcd.
    assert (Hboth :
      map (fun s => (List.length (gcd_files s), List.length (input_files s))) ss
      = map (fun r => (Z.to_nat (stop r - start r), Z.to_nat (stop r - start r)))
            (chain 0 (even_sizes (Z.of_nat (List.length i3_files)) workers))).
    { transitivity (combine (map (@List.length _) (map gcd_files ss))
                            (map (@List.length _) (map input_files ss))).
      - rewrite !map_map. clear. induction ss; cbn; congruence.
      - rewrite Hin, Hgcd, !map_map.
        pose proof (even_sizes_nonneg (Z.of_nat (List.length i3_files)) workers Hw
                      ltac:(lia)) as Hnn.
        pose proof (even_sizes_sum (Z.of_nat (List.length i3_files)) workers Hw) as Hsum.
        assert (Hb : forall r,
                   In r (chain 0 (even_sizes (Z.of_nat (List.length i3_files)) workers)) ->
                   0 <= start r <= stop r /\ stop r <= Z.of_nat (List.length i3_files)).
        { intros r Hr. destruct (chain_bounds _ _ _ Hnn Hr) as (? & ? & ? & _). lia. }
        revert Hb. generalize (chain 0 (even_sizes (Z.of_nat (List.length i3_files)) workers)).
        intros rs Hb. induction rs as [|r rs IH]; [reflexivity|].
        cbn [map combine]. rewrite IH by (intros; apply Hb; now right).
        f_equal. destruct (Hb r (or_introl eq_refl)) as [H1 H2].
        f_equal.
        + rewrite <- (Nat2Z.id (List.length _)). f_equal.
          apply slice_length; lia.
        + rewrite <- (Nat2Z.id (List.length _)). f_equal.
          apply slice_length; lia. }
    apply (in_map (fun s => (List.length (gcd_files s), List.length (input_files s))))
      in Hs.
    rewrite Hboth in Hs. apply in_map_iff in Hs.
    destruct Hs as (r & [= -> ->] & _). reflexivity.
Qed.

(** X2.  No worker is started without an input file, and the numbers of input
    files of two workers differ by one at most. *)
Theorem every_worker_has_files (self : SQLiteDataConverter)
  (i3_files : list i3file) (gcds : list string) (ss : list settings) :
  _process_files_settings self i3_files gcds = Ok ss ->
  (forall s, In s ss -> input_files s <> []) /\
  (forall s s', In s ss -> In s' ss ->
     Z.abs (Z.of_nat (List.length (input_files s))
            - Z.of_nat (List.length (input_files s'))) <= 1).
Proof.
  intros H. pose proof (settings_spec _ _ _ _ H) as Hs. cbv zeta in Hs.
  set (workers := Z.min (_workers self) (Z.of_nat (List.length i3_files))) in *.
  set (n := Z.of_nat (List.length i3_files)) in *.
  destruct Hs as (Hw & Hin & _).
  pose proof (even_sizes_nonneg n workers Hw ltac:(lia)) as Hnn.
  pose proof (even_sizes_sum n workers Hw) as Hsum.
  assert (Hq : 1 <= n / workers).
  { apply Z.div_le_lower_bound; lia. }
  assert (Hlen : forall s, In s ss ->
            Z.of_nat (List.length (input_files s)) = n / workers \/
            Z.of_nat (List.length (input_files s)) = n / workers + 1).
  { intros s Hs. apply (in_map input_files) in Hs. rewrite Hin in Hs.
    apply in_map_iff in Hs. destruct Hs as (r & <- & Hr).
    destruct (chain_bounds _ _ _ Hnn Hr) as (H1 & H2 & H3 & H4).
    rewrite slice_length by lia.
    apply even_sizes_In in H4. unfold range_len in H4. exact H4. }
  split.
  - intros s Hs Hnil. destruct (Hlen s Hs) as [E|E]; rewrite Hnil in E; cbn in E; lia.
  - intros s s' Hs Hs'. destruct (Hlen s Hs), (Hlen s' Hs'); lia.
Qed.

(** ** Tagging rows with the identifier *)

Lemma frame_of_rows e row :
  In row (data (frame_of e)) ->
  List.length row = List.length (columns (frame_of e)).
Proof.
  destruct e as [[|kv items]|[|kv items]];
    cbn [frame_of data columns pd_DataFrame].
  - intros [].
  - intros [<-|[]]. now rewrite !length_map.
  - intros [].
  - rewrite in_map_iff. intros (i & <- & _). now rewrite !length_map.
Qed.

Lemma set_column_cells df c v row :
  (forall r, In r (data df) -> List.length r = List.length (columns df)) ->
  In row (data (set_column df c v)) ->
  cell (columns (set_column df c v)) row c = v.
Proof.
  intros Hwf. unfold set_column.
  destruct (index_of c (columns df)) as [i|] eqn:E; cbn [columns data];
    rewrite in_map_iff; intros (r & <- & Hr).
  - apply cell_set_column_old; auto.
  - apply cell_set_column_new; auto.
Qed.

(** X4.  [apply_event_no] raises IndexError exactly when the event counter is
    not below the length of the identifier range; otherwise its frame has
    an event_no column, the rows of the extraction's frame, and in every
    row the identifier [event_no_list[event_counter]], the start of the
    range plus the counter. *)
Theorem apply_event_no_tags_every_row (e : extraction) (r : ndrange) (k : nat) :
  match apply_event_no e r k with
  | Err err => err = IndexError /\ range_len r <= Z.of_nat k
  | Ok df =>
      Z.of_nat k < range_len r /\
      In "event_no" (columns df) /\
      len df = len (frame_of e) /\
      forall row, In row (data df) ->
        cell (columns df) row "event_no" = PyNum (start r + Z.of_nat k)
  end.
Proof.
  destruct (apply_event_no e r k) as [df|err] eqn:E.
  - pose proof (apply_event_no_columns _ _ _ _ E) as Hcol.
    unfold apply_event_no, range_item in E.
    destruct (Z.ltb_spec (Z.of_nat k) (range_len r)) as [Hk|Hk]; [|discriminate].
    cbn in E. injection E as <-.
    split; [assumption|]. split; [assumption|]. split.
    + unfold set_column, len. destruct (index_of _ _); cbn [data];
        now rewrite length_map.
    + intros row Hrow. apply set_column_cells; [|assumption].
      apply frame_of_rows.
  - unfold apply_event_no, range_item in E.
    destruct (Z.ltb_spec (Z.of_nat k) (range_len r)) as [Hk|Hk]; [discriminate|].
    cbn in E. injection E as <-. split; [reflexivity|assumption].
Qed.

(** ** The identifiers in the truth buffer *)

Lemma index_of_nth c l i :
  index_of c l = Some i -> nth_error l i = Some c.
Proof.
  revert i. induction l as [|x l IH]; intros i; [discriminate|].
  cbn. destruct (String.eqb_spec c x) as [->|_].
  - now intros [= <-].
  - destruct (index_of c l); [|discriminate]. intros [= <-]. now apply IH.
Qed.

Lemma cell_reindexed cols old row c :
  (In c old -> In c cols) ->
  cell cols (map (cell old row) cols) c = cell old row c.
Proof.
  intros Hsub. unfold cell at 1.
  destruct (index_of c cols) as [i|] eqn:E.
  - apply index_of_nth in E.
    rewrite (nth_error_nth (map (cell old row) cols) i PyNone
               (x := cell old row c)); [reflexivity|].
    now rewrite nth_error_map, E.
  - unfold cell. destruct (index_of c old) as [j|] eqn:Eo; [|reflexivity].
    exfalso. assert (Hin : In c old) by (apply mem_In; unfold mem; now rewrite Eo).
    apply Hsub, mem_In in Hin. unfold mem in Hin. now rewrite E in Hin.
Qed.

Lemma event_nos_of_df_append a b :
  event_nos_of (df_append a b) = event_nos_of a ++ event_nos_of b.
Proof.
  unfold event_nos_of, df_append, reindex. cbn [columns data].
  rewrite map_app, !map_map. f_equal; apply map_ext; intros row;
    apply cell_reindexed; intros Hin;
    apply In_sorted; unfold union; apply nodup_In, in_or_app; auto.
Qed.

Lemma buffer_frame_identifiers s fr l l1 :
  one_truth_row fr -> identifiers_consecutive s l ->
  buffer_frame s fr l = Ok l1 -> identifiers_consecutive s l1.
Proof.
  intros (items & Ht & Hne) [Hle Hids] H.
  destruct (buffer_frame_counts s fr l l1 (ex_intro _ items (conj Ht Hne)) H)
    as (Hec & Hlen & _).
  unfold buffer_frame in H. rewrite Ht in H.
  apply result_bind_Ok in H. destruct H as (truth & Htruth & H).
  apply result_bind_Ok in H. destruct H as (rb & _ & H).
  apply result_bind_Ok in H. destruct H as (empty & _ & H).
  apply result_bind_Ok in H. destruct H as (fb & _ & [= <-]).
  unfold identifiers_consecutive. cbn [truth_big event_counter] in *.
  split; [lia|].
  rewrite event_nos_of_df_append, Hids, Hlen.
  replace (S (event_counter l) - S (len (truth_big l)))%nat
    with (event_counter l - len (truth_big l))%nat by lia.
  rewrite seq_S, map_app. f_equal. cbn [map].
  replace (event_counter l - len (truth_big l) + len (truth_big l))%nat
    with (event_counter l) by lia.
  assert (Hk : Z.of_nat (event_counter l) < range_len (event_no_list s)).
  { unfold apply_event_no, range_item in Htruth.
    destruct (Z.ltb_spec (Z.of_nat (event_counter l)) (range_len (event_no_list s)));
      [assumption|discriminate]. }
  destruct (apply_event_no_scalars items _ _ Hne Hk) as (cols & row & Ha & Hcell).
  rewrite Ha in Htruth. injection Htruth as <-.
  unfold event_nos_of. cbn. now rewrite Hcell.
Qed.

Lemma NoDup_map_injective {A B} (f : A -> B) (l : list A) :
  (forall x y, f x = f y -> x = y) -> NoDup l -> NoDup (map f l).
Proof.
  intros Hinj. induction 1 as [|x l Hx Hl IH]; cbn; constructor; [|assumption].
  rewrite in_map_iff. intros (y & Hy & Hin). apply Hinj in Hy. congruence.
Qed.

(** X5.  While a worker reads the records of a file, each truth dict being
    non-empty, the event_no cells of the truth buffer are consecutive
    identifiers that end just below [event_no_list[event_counter]]: no
    identifier is in the buffer twice. *)
Theorem truth_buffer_identifiers_consecutive (self : SQLiteDataConverter)
  (s : settings) (records : list pop_result) (l l' : locals)
  (kill kill' : option nat) (fs fs' : filesystem) :
  (forall fr, In (PopFrame (Ok fr)) records -> one_truth_row fr) ->
  identifiers_consecutive s l ->
  fold_process records (pop_and_extract self s) l kill fs = (fs', kill', Done l') ->
  identifiers_consecutive s l' /\ NoDup (event_nos_of (truth_big l')).
Proof.
  intros Hall Hl Hrun.
  assert (Hl' : identifiers_consecutive s l').
  { eapply (fold_process_inv (identifiers_consecutive s)); [|exact Hl|exact Hrun].
    intros l0 p k0 f0 f0' k0' l0' Hin H0 Hstep.
    destruct p as [| |[fr|e]]; cbn in Hstep; unfold ret, raise in Hstep.
    - now injection Hstep as <- <- <-.
    - now injection Hstep as <- <- <-.
    - destruct (buffer_frame s fr l0) as [l1|e] eqn:E; cbn in Hstep; [|discriminate].
      pose proof (buffer_frame_identifiers _ _ _ _ (Hall fr Hin) H0 E) as H1.
      unfold flush_if_full in Hstep.
      destruct (max_dict_size s <=? Z.of_nat (len (truth_big l1))).
      + unfold bind in Hstep.
        destruct (save_to_sql _ _ _ _ _ _ k0 f0) as [[fs1 kill1] [[]| |]];
          try discriminate.
        unfold ret in Hstep. injection Hstep as <- <- <-.
        split; cbn; [lia|reflexivity].
      + unfold ret in Hstep. now injection Hstep as <- <- <-.
    - discriminate. }
  split; [assumption|]. destruct Hl' as [_ ->].
  apply NoDup_map_injective; [|apply seq_NoDup].
  intros i j [= Hij]. lia.
Qed.

(** ** The names of the shards *)

Lemma string_of_uint_no_char c d :
  (c <> "0" /\ c <> "1" /\ c <> "2" /\ c <> "3" /\ c <> "4" /\
   c <> "5" /\ c <> "6" /\ c <> "7" /\ c <> "8" /\ c <> "9")%char ->
  no_char c (NilEmpty.string_of_uint d).
Proof.
  intros H. induction d; cbn; repeat split; try assumption;
    intros <-; intuition congruence.
Qed.

Lemma append_separator_inj c a b x y :
  no_char c a -> no_char c b ->
  (a ++ String c x)%string = (b ++ String c y)%string -> a = b /\ x = y.
Proof.
  revert b. induction a as [|a0 a IH]; intros [|b0 b]; cbn.
  - intros _ _ [= ->]. auto.
  - intros _ [Hb _] [= E _]. congruence.
  - intros [Ha _] _ [= E _]. congruence.
  - intros [_ Ha] [_ Hb] [= -> E]. destruct (IH b Ha Hb E) as [-> ->]. auto.
Qed.

Lemma str_inj n m : str n = str m -> n = m.
Proof.
  unfold str. intros H.
  apply (f_equal NilEmpty.uint_of_string) in H. rewrite !NilEmpty.usu in H.
  injection H as H. now apply DecimalNat.Unsigned.to_uint_inj.
Qed.

Lemma shard_name_inj i j n m :
  shard_name (str i) n = shard_name (str j) m -> i = j /\ n = m.
Proof.
  unfold shard_name. cbn [String.append]. intros [= H].
  apply (append_separator_inj "-"%char) in H;
    try (apply string_of_uint_no_char; repeat split; discriminate).
  destruct H as [Hi H].
  apply (append_separator_inj "."%char) in H;
    try (apply string_of_uint_no_char; repeat split; discriminate).
  destruct H as [Hn _]. split; now apply str_inj.
Qed.

(** X3.  The temporary databases of one run have names of their own: the file
    names [worker-<id>-<n>.db] of two workers' settings are equal only for
    the same worker and the same output count. *)
Theorem shard_names_distinct (self : SQLiteDataConverter)
  (i3_files : list i3file) (gcds : list string) (ss : list settings) :
  _process_files_settings self i3_files gcds = Ok ss ->
  forall i j si sj n m,
    nth_error ss i = Some si -> nth_error ss j = Some sj ->
    shard_name (id si) n = shard_name (id sj) m -> i = j /\ n = m.
Proof.
  intros H i j si sj n m Hi Hj Hname.
  pose proof (settings_spec _ _ _ _ H) as Hs. cbv zeta in Hs.
  destruct Hs as (_ & _ & _ & Hid).
  assert (Hids : forall k s, nth_error ss k = Some s -> id s = str k).
  { intros k s Hk. apply (map_nth_error id) in Hk. rewrite Hid in Hk.
    rewrite nth_error_map in Hk.
    destruct (nth_error (seq 0 _) k) as [k'|] eqn:E; [|discriminate].
    injection Hk as <-. f_equal.
    assert (Hlt : (k < List.length (seq 0 (Z.to_nat
               (Z.min (_workers self) (Z.of_nat (List.length i3_files))))))%nat).
    { apply nth_error_Some. congruence. }
    rewrite length_seq in Hlt.
    apply (nth_error_nth _ _ O) in E. rewrite seq_nth in E by assumption. lia. }
  rewrite (Hids _ _ Hi), (Hids _ _ Hj) in Hname. now apply shard_name_inj.
Qed.

(** ** A worker writes its own shards only *)

Lemma assoc_put_assoc_other {V} k k' (v : V) l :
  k' <> k -> assoc k' (put_assoc k v l) = assoc k' l.
Proof.
  intros Hne. unfold put_assoc. destruct (assoc k l).
  - now apply assoc_replace_assoc_other.
  - rewrite assoc_app. destruct (assoc k' l); [reflexivity|].
    cbn. apply String.eqb_neq in Hne. now rewrite Hne.
Qed.

Lemma writes_only_ret P {A} (a : A) : writes_only P (ret a).
Proof. intros kill fs. now split. Qed.

Lemma writes_only_lift P {A} (r : result A) : writes_only P (lift r).
Proof. destruct r; intros kill fs; now split. Qed.

Lemma writes_only_bind P {A B} (m : process A) (f : A -> process B) :
  writes_only P m -> (forall a, writes_only P (f a)) -> writes_only P (bind m f).
Proof.
  intros Hm Hf kill fs. unfold bind. specialize (Hm kill fs).
  destruct (m kill fs) as [[fs1 kill1] [a| |]]; cbn in *; try assumption.
  destruct Hm as [Hfin Htmp]. destruct (Hf a kill1 fs1) as [Hfin' Htmp'].
  split; [congruence|]. intros file Hfile. rewrite Htmp' by assumption. auto.
Qed.

Lemma writes_only_write_tmp (P : string -> Prop) file f :
  P file -> writes_only P (write_tmp file f).
Proof.
  intros HP kill fs. unfold write_tmp, write.
  destruct kill as [[|k]|]; cbn; [now split| |];
    (destruct (f (open_db file (tmp fs))) as [d|]; cbn; split; try reflexivity;
     intros file' Hfile'; apply assoc_put_assoc_other; congruence).
Qed.

Lemma writes_only_fold_process P {A S} (l : list A) (body : S -> A -> process S) :
  (forall s x, writes_only P (body s x)) ->
  forall s, writes_only P (fold_process l body s).
Proof.
  intros H. induction l as [|x l IH]; intros s; cbn [fold_process].
  - apply writes_only_ret.
  - apply writes_only_bind; auto.
Qed.

Lemma writes_only_save_to_sql (P : string -> Prop) fb tb rb id n pulsemap :
  P (shard_name id n) -> writes_only P (save_to_sql fb tb rb id n pulsemap).
Proof.
  intros HP. unfold save_to_sql.
  apply writes_only_bind; [now apply writes_only_write_tmp|intros _].
  apply writes_only_bind; [|intros _; now apply writes_only_write_tmp].
  destruct (0 <? len rb)%nat;
    [now apply writes_only_write_tmp|apply writes_only_ret].
Qed.

(** X7.  However it ends, a worker leaves the final database alone and, in the
    temporary directory, changes no file but those named
    [worker-<id>-<n>.db] with its own id. *)
Theorem worker_writes_its_own_shards_only (self : SQLiteDataConverter)
  (s : settings) (kill : option nat) (fs : filesystem) :
  let fs' := fst (fst (_parallel_extraction self s kill fs)) in
  final fs' = final fs /\
  forall file, (forall n, file <> shard_name (id s) n) ->
    assoc file (tmp fs') = assoc file (tmp fs).
Proof.
  set (P := fun file => exists n, file = shard_name (id s) n).
  assert (Hsave : forall fb tb rb n,
             writes_only P (save_to_sql fb tb rb (id s) n (_pulsemap self))).
  { intros. apply writes_only_save_to_sql. now exists n. }
  assert (H : writes_only P (_parallel_extraction self s)).
  { unfold _parallel_extraction. apply writes_only_bind.
    - apply writes_only_fold_process. intros l u. unfold extract_file.
      destruct (nth_error (input_files s) u) as [[|records]|];
        destruct (nth_error (gcd_files s) u);
        try (intros kill0 fs0; now split).
      apply writes_only_bind; [|intros; apply writes_only_ret].
      apply writes_only_fold_process. intros l0 p.
      destruct p as [| |ex]; cbn [pop_and_extract]; try apply writes_only_ret.
      apply writes_only_bind; [apply writes_only_lift|intros fr].
      apply writes_only_bind; [apply writes_only_lift|intros l1].
      unfold flush_if_full. destruct (_ <=? _); [|apply writes_only_ret].
      apply writes_only_bind; [apply Hsave|intros; apply writes_only_ret].
    - intros l. unfold flush_rest. destruct (0 <? _)%nat; [|apply writes_only_ret].
      apply writes_only_bind; [apply Hsave|intros; apply writes_only_ret]. }
  intros fs'. subst fs'. destruct (H kill fs) as [Hfin Htmp].
  split; [assumption|]. intros file Hfile. apply Htmp.
  intros [n Hn]. exact (Hfile n Hn).
Qed.

(** ** What a worker that returns has done *)

Lemma buffer_frame_counters s fr l l1 :
  buffer_frame s fr l = Ok l1 ->
  event_counter l1 = S (event_counter l) /\
  file_counter l1 = file_counter l /\
  output_count l1 = output_count l.
Proof.
  unfold buffer_frame. intros H.
  apply result_bind_Ok in H. destruct H as (truth & _ & H).
  apply result_bind_Ok in H. destruct H as (rb & _ & H).
  apply result_bind_Ok in H. destruct H as (empty & _ & H).
  apply result_bind_Ok in H. destruct H as (fb & _ & [= <-]).
  cbn. auto.
Qed.

Lemma flush_if_full_counters self s l kill fs fs' kill' l' :
  flush_if_full self s l kill fs = (fs', kill', Done l') ->
  event_counter l' = event_counter l /\ file_counter l' = file_counter l.
Proof.
  unfold flush_if_full. destruct (_ <=? _).
  - intros H. apply bind_Done in H. destruct H as ([] & fs1 & kill1 & _ & H).
    unfold ret in H. injection H as <- <- <-. cbn. auto.
  - unfold ret. intros [= <- <- <-]. auto.
Qed.

Lemma records_loop_Done self s records :
  forall l kill fs fs' kill' l',
    fold_process records (pop_and_extract self s) l kill fs = (fs', kill', Done l') ->
    event_counter l'
      = (event_counter l + List.length (frames_of_file (I3File records)))%nat /\
    file_counter l' = file_counter l /\
    forall e, ~ In (PopFrame (Err e)) records.
Proof.
  induction records as [|p records IH]; intros l kill fs fs' kill' l' H.
  - cbn in H. unfold ret in H. injection H as <- <- <-. cbn.
    repeat split; auto.
  - cbn [fold_process] in H.
    apply bind_Done in H. destruct H as (l1 & fs1 & kill1 & Hp & H).
    apply IH in H. destruct H as (Hec & Hfc & Hno).
    cbn [frames_of_file flat_map] in *.
    destruct p as [| |[fr|e]]; cbn [pop_and_extract] in Hp.
    + unfold ret in Hp. injection Hp as <- <- <-. cbn [app].
      repeat split; try assumption. intros e [He|He]; [discriminate|].
      exact (Hno e He).
    + unfold ret in Hp. injection Hp as <- <- <-. cbn [app].
      repeat split; try assumption. intros e [He|He]; [discriminate|].
      exact (Hno e He).
    + apply bind_Done in Hp. destruct Hp as (fr' & fs2 & kill2 & Hl & Hp).
      apply lift_Done in Hl. destruct Hl as ([= <-] & -> & ->).
      apply bind_Done in Hp. destruct Hp as (l2 & fs3 & kill3 & Hb & Hp).
      apply lift_Done in Hb. destruct Hb as (Hb & -> & ->).
      apply buffer_frame_counters in Hb. destruct Hb as (Hb1 & Hb2 & _).
      apply flush_if_full_counters in Hp. destruct Hp as (Hf1 & Hf2).
      cbn [app List.length]. repeat split; try lia.
      intros e [He|He]; [discriminate|]. exact (Hno e He).
    + apply bind_Done in Hp. destruct Hp as (fr' & fs2 & kill2 & Hl & _).
      apply lift_Done in Hl. destruct Hl as (Hl & _). discriminate.
Qed.

Lemma files_loop_Done self s files :
  forall a l kill fs fs' kill' l',
    skipn a (input_files s) = files ->
    fold_process (seq a (List.length files)) (extract_file self s) l kill fs
      = (fs', kill', Done l') ->
    event_counter l'
      = (event_counter l + List.length (flat_map frames_of_file files))%nat /\
    file_counter l' = (file_counter l + List.length files)%nat /\
    (files <> [] -> (a + List.length files <= List.length (gcd_files s))%nat) /\
    forall f, In f files -> read_without_error f.
Proof.
  induction files as [|f files IH]; intros a l kill fs fs' kill' l' Hskip H.
  - cbn in H. unfold ret in H. injection H as <- <- <-. cbn.
    split; [lia|]. split; [lia|].
    split; [intros Hne; now destruct Hne|intros f []].
  - cbn [List.length seq fold_process] in H.
    apply bind_Done in H. destruct H as (l1 & fs1 & kill1 & Hf & H).
    assert (Hnth : nth_error (input_files s) a = Some f).
    { rewrite <- (firstn_skipn a (input_files s)) at 1.
      assert (Hlen : List.length (firstn a (input_files s)) = a).
      { apply firstn_length_le.
        destruct (Nat.le_gt_cases a (List.length (input_files s))) as [|Hgt];
          [assumption|].
        rewrite skipn_all2 in Hskip by lia. discriminate. }
      rewrite nth_error_app2 by lia. rewrite Hlen, Nat.sub_diag, Hskip.
      reflexivity. }
    assert (Hskip' : skipn (S a) (input_files s) = files).
    { replace (S a) with (1 + a)%nat by lia.
      rewrite <- skipn_skipn, Hskip. reflexivity. }
    apply (IH (S a)) in H; [|assumption].
    destruct H as (Hec & Hfc & Hg & Hall).
    unfold extract_file in Hf. rewrite Hnth in Hf.
    destruct f as [|records]; destruct (nth_error (gcd_files s) a) eqn:Eg;
      try discriminate.
    apply bind_Done in Hf. destruct Hf as (l2 & fs2 & kill2 & Hr & Hf).
    unfold ret in Hf. injection Hf as <- <- <-.
    apply records_loop_Done in Hr. destruct Hr as (Hr1 & Hr2 & Hr3).
    cbn [event_counter file_counter] in *.
    cbn [flat_map List.length]. rewrite length_app.
    split; [lia|]. split; [lia|]. split.
    + intros _. destruct files as [|f' files'].
      * assert (a < List.length (gcd_files s))%nat
          by (apply nth_error_Some; congruence).
        cbn. lia.
      * specialize (Hg ltac:(discriminate)). cbn [List.length] in *. lia.
    + intros f [<-|Hin]; [|now apply Hall].
      exists records. split; [reflexivity|assumption].
Qed.

Lemma write_tmp_Done file f kill fs fs' kill' u :
  write_tmp file f kill fs = (fs', kill', Done u) ->
  exists d,
    f (open_db file (tmp fs)) = Ok d /\
    fs' = {| tmp := put_assoc file d (tmp fs); final := final fs |}.
Proof.
  unfold write_tmp. intros H. apply write_Done in H. destruct H as (H & _).
  destruct (f (open_db file (tmp fs))) as [d|e]; cbn in H; [|discriminate].
  exists d. split; [reflexivity|]. now injection H as <-.
Qed.

(** What a write of the three buffers that ends well leaves in a file
    that did not exist. *)
Lemma save_to_sql_Done fb tb rb id oc pulsemap kill fs fs' kill' u :
  save_to_sql fb tb rb id oc pulsemap kill fs = (fs', kill', Done u) ->
  assoc (shard_name id oc) (tmp fs) = None ->
  pulsemap <> "truth" -> pulsemap <> "RetroReco" ->
  final fs' = final fs /\
  (forall file, file <> shard_name id oc ->
     assoc file (tmp fs') = assoc file (tmp fs)) /\
  exists shard,
    assoc (shard_name id oc) (tmp fs') = Some shard /\
    read_sql "truth" shard = Ok tb /\
    read_sql pulsemap shard = Ok fb /\
    (if (0 <? len rb)%nat then read_sql "RetroReco" shard = Ok rb
     else has_table "RetroReco" shard = false).
Proof.
  intros H Hnew Hp1 Hp2. unfold save_to_sql in H.
  set (engine := shard_name id oc) in *.
  apply bind_Done in H. destruct H as ([] & fs1 & kill1 & H1 & H).
  apply bind_Done in H. destruct H as ([] & fs2 & kill2 & H2 & H3).
  apply write_tmp_Done in H1. destruct H1 as (d1 & T1 & ->).
  assert (Ho : open_db engine (tmp fs) = empty_db)
    by (unfold open_db; now rewrite Hnew).
  rewrite Ho in T1.
  destruct (to_sql_missing tb "truth" empty_db d1 eq_refl T1) as (Hct & ->).
  cbn [tables indexes empty_db app] in *.
  apply write_tmp_Done in H3. destruct H3 as (d3 & T3 & ->).
  assert (Hp1' : "truth" <> pulsemap) by congruence.
  assert (Hp2' : "RetroReco" <> pulsemap) by congruence.
  assert (Hp3 : "RetroReco" <> "truth") by discriminate.
  apply String.eqb_neq in Hp1, Hp2.
  destruct (Nat.ltb_spec 0 (len rb)) as [Hlen|Hlen].
  - apply write_tmp_Done in H2. destruct H2 as (d2 & T2 & ->).
    cbn [tmp final] in *. rewrite open_db_put_assoc in T2.
    match type of T2 with
    | to_sql _ _ ?db = _ =>
        assert (Hn2 : assoc "RetroReco" (tables db) = None) by reflexivity
    end.
    destruct (to_sql_missing _ _ _ _ Hn2 T2) as (Hcr & ->).
    cbn [tables indexes app] in *.
    rewrite open_db_put_assoc in T3.
    assert (Hn3 : assoc pulsemap (tables
              {| tables := [("truth", {| coldefs := map (fun c => (c, INFERRED)) (columns tb);
                                         rows := data tb |});
                            ("RetroReco", {| coldefs := map (fun c => (c, INFERRED)) (columns rb);
                                             rows := data rb |})];
                 indexes := [] |}) = None)
      by (cbn; now rewrite Hp1, Hp2).
    destruct (to_sql_missing _ _ _ _ Hn3 T3) as (Hcf & ->).
    cbn [tables indexes app] in *.
    split; [reflexivity|]. split.
    { intros file Hf. now rewrite !assoc_put_assoc_other by assumption. }
    eexists. split; [apply assoc_put_assoc|].
    split; [apply (read_sql_table_of_frame "truth" tb [] _ []); reflexivity|].
    split.
    + apply (read_sql_table_of_frame pulsemap fb
               [("truth", table_of_frame tb); ("RetroReco", table_of_frame rb)] [] []).
      cbn. now rewrite Hp1, Hp2.
    + apply (read_sql_table_of_frame "RetroReco" rb [("truth", table_of_frame tb)]
               [(pulsemap, table_of_frame fb)] []). reflexivity.
  - unfold ret in H2. injection H2 as <- <-.
    cbn [tmp final] in *. rewrite open_db_put_assoc in T3.
    assert (Hn3 : assoc pulsemap (tables
              {| tables := [("truth", {| coldefs := map (fun c => (c, INFERRED)) (columns tb);
                                         rows := data tb |})];
                 indexes := [] |}) = None)
      by (cbn; now rewrite Hp1).
    destruct (to_sql_missing _ _ _ _ Hn3 T3) as (Hcf & ->).
    cbn [tables indexes app] in *.
    split; [reflexivity|]. split.
    { intros file Hf. now rewrite !assoc_put_assoc_other by assumption. }
    eexists. split; [apply assoc_put_assoc|].
    split; [apply (read_sql_table_of_frame "truth" tb [] _ []); reflexivity|].
    split.
    + apply (read_sql_table_of_frame pulsemap fb [("truth", table_of_frame tb)] [] []).
      cbn. now rewrite Hp1.
    + rewrite has_table_assoc. unfold assoc. cbn [tables].
      rewrite (proj2 (String.eqb_neq _ _) Hp3), (proj2 (String.eqb_neq _ _) Hp2').
      reflexivity.
Qed.

(** ** The shards of a worker *)

Lemma fold_process_inv_fs {A S} (I : S -> filesystem -> Prop)
  (body : S -> A -> process S) (l : list A) :
  (forall s x kill fs fs' kill' s',
      In x l -> I s fs -> body s x kill fs = (fs', kill', Done s') -> I s' fs') ->
  forall s kill fs fs' kill' s',
    I s fs -> fold_process l body s kill fs = (fs', kill', Done s') -> I s' fs'.
Proof.
  induction l as [|x l IH]; intros Hbody s kill fs fs' kill' s' HI H; cbn in H.
  - unfold ret in H. now injection H as <- <- <-.
  - apply bind_Done in H. destruct H as (s1 & fs1 & kill1 & H1 & H2).
    eapply IH; [|eapply Hbody; [now left|exact HI|exact H1]|exact H2].
    intros s0 y k0 f0 f0' k0' s0' Hy. apply Hbody. now right.
Qed.

Lemma append_inj_l (a b c : string) :
  (a ++ b)%string = (a ++ c)%string -> b = c.
Proof.
  induction a as [|x a IH]; cbn; [auto|]. intros [= H]. now apply IH.
Qed.

Lemma shard_name_inj_count id n m :
  shard_name id n = shard_name id m -> n = m.
Proof.
  unfold shard_name. intros H.
  apply append_inj_l, append_inj_l, append_inj_l in H.
  apply (append_separator_inj "."%char) in H;
    try (apply string_of_uint_no_char; repeat split; discriminate).
  destruct H as [Hn _]. now apply str_inj.
Qed.

Lemma apply_event_no_cells e r k df :
  apply_event_no e r k = Ok df ->
  forall v, In v (event_nos_of df) -> v = PyNum (start r + Z.of_nat k).
Proof.
  unfold apply_event_no, range_item. intros E v Hv.
  destruct (Z.of_nat k <? range_len r); [|discriminate].
  cbn in E. injection E as <-.
  unfold event_nos_of in Hv. apply in_map_iff in Hv.
  destruct Hv as (row & <- & Hrow).
  apply set_column_cells; [|assumption]. apply frame_of_rows.
Qed.

Lemma cells_within_empty s lo hi : cells_within s lo hi pd_DataFrame.
Proof. intros v []. Qed.

Lemma cells_within_weaken s lo hi lo' hi' df :
  (lo' <= lo)%nat -> (hi <= hi')%nat ->
  cells_within s lo hi df -> cells_within s lo' hi' df.
Proof.
  intros Hlo Hhi H v Hv. destruct (H v Hv) as (i & Hi & ->).
  exists i. split; [lia|reflexivity].
Qed.

Lemma cells_within_append s lo k a e df :
  cells_within s lo k a ->
  (lo <= k)%nat ->
  apply_event_no e (event_no_list s) k = Ok df ->
  cells_within s lo (S k) (df_append a df).
Proof.
  intros Ha Hlo E v Hv. rewrite event_nos_of_df_append in Hv.
  apply in_app_or in Hv. destruct Hv as [Hv|Hv].
  - destruct (Ha v Hv) as (i & Hi & ->). exists i. split; [lia|reflexivity].
  - exists k. split; [lia|]. eapply apply_event_no_cells; eassumption.
Qed.

Lemma buffer_frame_cells s fr l l1 :
  one_truth_row fr -> identifiers_consecutive s l ->
  buffer_frame s fr l = Ok l1 ->
  cells_within s (event_counter l - len (truth_big l)) (event_counter l)
               (feature_big l) ->
  cells_within s (event_counter l - len (truth_big l)) (event_counter l)
               (retro_big l) ->
  cells_within s (event_counter l1 - len (truth_big l1)) (event_counter l1)
               (feature_big l1) /\
  cells_within s (event_counter l1 - len (truth_big l1)) (event_counter l1)
               (retro_big l1).
Proof.
  intros Hone [Hle _] H Hf Hr.
  destruct (buffer_frame_counts s fr l l1 Hone H) as (Hec & Hlen & _).
  rewrite Hec, Hlen.
  replace (S (event_counter l) - S (len (truth_big l)))%nat
    with (event_counter l - len (truth_big l))%nat by lia.
  unfold buffer_frame in H.
  apply result_bind_Ok in H. destruct H as (truth & Htruth & H).
  apply result_bind_Ok in H. destruct H as (rb & Hrb & H).
  apply result_bind_Ok in H. destruct H as (empty & _ & H).
  apply result_bind_Ok in H. destruct H as (fb & Hfb & [= <-]).
  cbn [feature_big retro_big]. split.
  - destruct (negb empty).
    + apply result_bind_Ok in Hfb. destruct Hfb as (f' & Hf' & [= <-]).
      eapply cells_within_append; [exact Hf|lia|exact Hf'].
    + injection Hfb as <-.
      eapply cells_within_weaken; [| |exact Hf]; lia.
  - destruct (0 <? dict_len (retros fr))%nat.
    + apply result_bind_Ok in Hrb. destruct Hrb as (r' & Hr' & [= <-]).
      eapply cells_within_append; [exact Hr|lia|exact Hr'].
    + injection Hrb as <-.
      eapply cells_within_weaken; [| |exact Hr]; lia.
Qed.

Lemma len_event_nos_of df : List.length (event_nos_of df) = len df.
Proof. unfold event_nos_of, len. apply length_map. Qed.

(** Writing the buffers as the shard numbered [output_count]. *)
Lemma save_to_sql_progress s pulsemap m l kill fs fs' kill' u :
  pulsemap <> "truth" -> pulsemap <> "RetroReco" ->
  identifiers_consecutive s l ->
  event_counter l = (output_count l * m + len (truth_big l))%nat ->
  cells_within s (event_counter l - len (truth_big l)) (event_counter l)
               (feature_big l) ->
  cells_within s (event_counter l - len (truth_big l)) (event_counter l)
               (retro_big l) ->
  (forall k, (k < output_count l)%nat -> shard_holds s pulsemap fs k (k * m) m) ->
  (forall k, (output_count l <= k)%nat ->
     assoc (shard_name (id s) k) (tmp fs) = None) ->
  save_to_sql (feature_big l) (truth_big l) (retro_big l) (id s)
              (output_count l) pulsemap kill fs = (fs', kill', Done u) ->
  shard_holds s pulsemap fs' (output_count l) (output_count l * m)
              (len (truth_big l)) /\
  (forall k, (k < output_count l)%nat -> shard_holds s pulsemap fs' k (k * m) m) /\
  (forall k, (S (output_count l) <= k)%nat ->
     assoc (shard_name (id s) k) (tmp fs') = None).
Proof.
  intros Hp1 Hp2 [Hle Hids] Hec Hf Hr Hold Hnone H.
  apply save_to_sql_Done in H; [|apply Hnone; lia|assumption|assumption].
  destruct H as (_ & Hother & shard & Hs & Ht & Hfe & Hre).
  assert (Hlo : (event_counter l - len (truth_big l) = output_count l * m)%nat)
    by lia.
  rewrite Hlo in *.
  replace (event_counter l) with (output_count l * m + len (truth_big l))%nat
    in Hf, Hr by lia.
  split; [|split].
  - exists shard, (truth_big l), (feature_big l).
    split; [assumption|]. split; [assumption|]. split; [reflexivity|].
    split; [exact Hids|]. split; [assumption|]. split; [assumption|].
    unfold retro_of. destruct (0 <? len (retro_big l))%nat.
    + now rewrite Hre.
    + unfold read_sql. rewrite has_table_assoc in Hre.
      destruct (assoc "RetroReco" (tables shard)); [discriminate|].
      apply cells_within_empty.
  - intros k Hk. destruct (Hold k Hk) as (db & t & f & Ha & Hrest).
    exists db, t, f. split; [|exact Hrest].
    rewrite Hother; [assumption|].
    intros E. apply shard_name_inj_count in E. lia.
  - intros k Hk. rewrite Hother; [apply Hnone; lia|].
    intros E. apply shard_name_inj_count in E. lia.
Qed.

Lemma full_chunk k o m n :
  (k < o)%nat -> (o * m <= n)%nat -> Nat.min m (n - k * m) = m.
Proof.
  intros Hk Hn.
  assert (H : (S k * m <= o * m)%nat) by (apply Nat.mul_le_mono_r; lia).
  cbn in H. lia.
Qed.

Lemma before_chunk k o m : (k * m < o * m)%nat -> (k < o)%nat.
Proof.
  intros H. destruct (Nat.lt_ge_cases k o) as [Hlt|Hge]; [assumption|].
  assert (H' : (o * m <= k * m)%nat) by (apply Nat.mul_le_mono_r; lia). lia.
Qed.

Section WorkerShards.
Variables (self : SQLiteDataConverter) (s : settings) (m : nat).
Hypothesis max_m : max_dict_size s = Z.of_nat m.
Hypothesis m_pos : (0 < m)%nat.
Hypothesis not_truth : _pulsemap self <> "truth".
Hypothesis not_retro : _pulsemap self <> "RetroReco".

Lemma pop_and_extract_progress l p kill fs fs' kill' l' :
  (forall fr, p = PopFrame (Ok fr) -> one_truth_row fr) ->
  worker_progress s (_pulsemap self) m l fs ->
  pop_and_extract self s l p kill fs = (fs', kill', Done l') ->
  worker_progress s (_pulsemap self) m l' fs'.
Proof.
  intros Hp HW. destruct p as [| |[fr|e]]; cbn; unfold ret, raise.
  - now intros [= <- <- <-].
  - now intros [= <- <- <-].
  - destruct HW as ([Hc Hl] & Hids & Hf & Hr & Hold & Hnone).
    destruct (buffer_frame s fr l) as [l1|e] eqn:E; cbn; [|discriminate].
    specialize (Hp fr eq_refl).
    destruct (buffer_frame_counts _ _ _ _ Hp E) as (H1 & H2 & H3).
    pose proof (buffer_frame_identifiers _ _ _ _ Hp Hids E) as Hids1.
    destruct (buffer_frame_cells _ _ _ _ Hp Hids E Hf Hr) as (Hf1 & Hr1).
    unfold flush_if_full. rewrite max_m.
    destruct (Z.leb_spec (Z.of_nat m) (Z.of_nat (len (truth_big l1)))) as [Hfull|Hnot].
    + (* the buffer is full: it has [m] rows *)
      intros H. apply bind_Done in H. destruct H as ([] & fs1 & kill1 & Hsave & H).
      unfold ret in H. injection H as <- <- <-.
      assert (Hm : len (truth_big l1) = m) by lia.
      eapply (save_to_sql_progress s (_pulsemap self) m) in Hsave;
        [|assumption|assumption|exact Hids1|rewrite H3; lia|exact Hf1|exact Hr1
         |rewrite H3; exact Hold|rewrite H3; exact Hnone].
      destruct Hsave as (Hnew & Hold1 & Hnone1). rewrite Hm, H3 in *.
      split; [split; cbn; lia|]. split; [split; cbn; [lia|reflexivity]|].
      split; [apply cells_within_empty|]. split; [apply cells_within_empty|].
      cbn [output_count]. split.
      * intros k Hk. destruct (Nat.eq_dec k (output_count l)) as [->|Hne].
        -- exact Hnew.
        -- apply Hold1. lia.
      * exact Hnone1.
    + intros [= <- <- <-].
      split; [split; lia|]. split; [assumption|].
      split; [assumption|]. split; [assumption|].
      rewrite H3. split; assumption.
  - discriminate.
Qed.

Lemma extract_file_progress l u kill fs fs' kill' l' :
  (forall f fr, In f (input_files s) -> In fr (frames_of_file f) -> one_truth_row fr) ->
  worker_progress s (_pulsemap self) m l fs ->
  extract_file self s l u kill fs = (fs', kill', Done l') ->
  worker_progress s (_pulsemap self) m l' fs'.
Proof.
  intros Hall HW. unfold extract_file.
  destruct (nth_error (input_files s) u) as [[|records]|] eqn:E;
    destruct (nth_error (gcd_files s) u); try discriminate.
  intros H. apply bind_Done in H. destruct H as (l1 & fs1 & kill1 & F & H).
  unfold ret in H. injection H as <- <- <-.
  assert (H1 : worker_progress s (_pulsemap self) m l1 fs1).
  { eapply (fold_process_inv_fs (worker_progress s (_pulsemap self) m));
      [|exact HW|exact F].
    intros l0 p k0 f0 f0' k0' l0' Hin HW0 Hstep.
    eapply pop_and_extract_progress; [|exact HW0|exact Hstep].
    intros fr ->. eapply Hall; [eapply nth_error_In; exact E|].
    cbn. apply in_flat_map. exists (PopFrame (Ok fr)). split; [assumption|now left]. }
  exact H1.
Qed.

(** The shards a worker that returns has written into a directory that
    had none of its shards. *)
Lemma worker_shards kill fs fs' kill' l' :
  (forall f fr, In f (input_files s) -> In fr (frames_of_file f) -> one_truth_row fr) ->
  (forall k, assoc (shard_name (id s) k) (tmp fs) = None) ->
  _parallel_extraction self s kill fs = (fs', kill', Done l') ->
  let n := List.length (flat_map frames_of_file (input_files s)) in
  event_counter l' = n /\
  len (truth_big l') = O /\
  (n <= output_count l' * m < n + m)%nat /\
  (forall k, (k * m < n)%nat ->
     shard_holds s (_pulsemap self) fs' k (k * m) (Nat.min m (n - k * m))) /\
  (forall k, (n <= k * m)%nat ->
     assoc (shard_name (id s) k) (tmp fs') = None).
Proof.
  intros Hall Hfresh H n. unfold _parallel_extraction in H.
  apply bind_Done in H. destruct H as (l1 & fs1 & kill1 & F & H).
  assert (Hn : event_counter l1 = n).
  { pose proof (files_loop_Done self s (input_files s) 0 initial_locals
                  kill fs fs1 kill1 l1 eq_refl F) as (Hec & _).
    exact Hec. }
  assert (HW : worker_progress s (_pulsemap self) m l1 fs1).
  { eapply (fold_process_inv_fs (worker_progress s (_pulsemap self) m));
      [| |exact F].
    - intros l0 u k0 f0 f0' k0' l0' _ HW0 Hstep.
      eapply extract_file_progress; eassumption.
    - split; [split; cbn; lia|]. split; [split; cbn; [lia|reflexivity]|].
      split; [apply cells_within_empty|]. split; [apply cells_within_empty|].
      split; [cbn; intros k Hk; lia|]. intros k _. apply Hfresh. }
  destruct HW as ([Hc Hl] & Hids & Hf & Hr & Hold & Hnone).
  unfold flush_rest in H.
  destruct (Nat.ltb_spec 0 (len (truth_big l1))) as [Hrest|Hrest].
  - (* rows are left: one more shard *)
    apply bind_Done in H. destruct H as ([] & fs2 & kill2 & Hsave & H).
    unfold ret in H. injection H as <- <- <-.
    eapply (save_to_sql_progress s (_pulsemap self) m) in Hsave;
      [|assumption|assumption|exact Hids|exact Hc|exact Hf|exact Hr
       |exact Hold|exact Hnone].
    destruct Hsave as (Hnew & Hold1 & Hnone1).
    cbn [event_counter truth_big output_count].
    split; [assumption|]. split; [reflexivity|]. split; [cbn; lia|]. split.
    + intros k Hk. destruct (Nat.lt_ge_cases k (output_count l1)) as [Hlt|Hge].
      * rewrite (full_chunk k (output_count l1)) by lia. now apply Hold1.
      * assert (Hk' : (k < S (output_count l1))%nat).
        { apply (before_chunk k (S (output_count l1)) m). cbn. lia. }
        assert (k = output_count l1) as -> by lia.
        replace (Nat.min m (n - output_count l1 * m)) with (len (truth_big l1))
          by lia.
        exact Hnew.
    + intros k Hk. apply Hnone1.
      destruct (Nat.lt_ge_cases k (S (output_count l1))) as [Hlt|Hge]; [|assumption].
      assert (H' : (k * m <= output_count l1 * m)%nat)
        by (apply Nat.mul_le_mono_r; lia).
      lia.
  - unfold ret in H. injection H as <- <- <-.
    assert (Hz : len (truth_big l1) = O) by lia.
    split; [assumption|]. split; [lia|]. split; [lia|]. split.
    + intros k Hk.
      assert (Hk' : (k < output_count l1)%nat) by (apply (before_chunk k _ m); lia).
      rewrite (full_chunk k (output_count l1)) by lia. now apply Hold.
    + intros k Hk. apply Hnone.
      destruct (Nat.lt_ge_cases k (output_count l1)) as [Hlt|Hge]; [|assumption].
      assert (H' : (S k * m <= output_count l1 * m)%nat)
        by (apply Nat.mul_le_mono_r; lia).
      cbn in H'. lia.
Qed.
End WorkerShards.


(** X6.  A worker that returns, with a maximum of [m] rows, in a
    directory that had none of its shards, has written the files
    [worker-<id>-<k>.db] for [k] below [output_count] and no other shard of
    its own, and [output_count] is the number [n] of the events of its
    files divided by [m], rounded up. *)
Theorem worker_shard_count (self : SQLiteDataConverter) (s : settings)
  (m : nat) (kill kill' : option nat) (fs fs' : filesystem) (l' : locals) :
  max_dict_size s = Z.of_nat m -> (0 < m)%nat ->
  lower (_pulsemap self) <> "truth" -> lower (_pulsemap self) <> "retroreco" ->
  (forall f fr, In f (input_files s) -> In fr (frames_of_file f) -> one_truth_row fr) ->
  (forall k, assoc (shard_name (id s) k) (tmp fs) = None) ->
  _parallel_extraction self s kill fs = (fs', kill', Done l') ->
  let n := List.length (flat_map frames_of_file (input_files s)) in
  (n <= output_count l' * m < n + m)%nat /\
  forall k,
    assoc (shard_name (id s) k) (tmp fs') <> None <-> (k < output_count l')%nat.
Proof.
  intros Hm Hpos Hl1 Hl2 Hall Hfresh H n.
  assert (Hp1 : _pulsemap self <> "truth") by (apply lower_neq; exact Hl1).
  assert (Hp2 : _pulsemap self <> "RetroReco") by (apply lower_neq; exact Hl2).
  pose proof (worker_shards self s m Hm Hpos Hp1 Hp2 kill fs fs' kill' l'
                Hall Hfresh H) as Hw.
  cbv zeta in Hw. fold n in Hw. destruct Hw as (_ & _ & Hoc & Hin & Hout).
  split; [exact Hoc|].
  intros k. split.
  - intros Hk. destruct (Nat.lt_ge_cases k (output_count l')) as [Hlt|Hge];
      [assumption|].
    exfalso. apply Hk, Hout.
    assert (H' : (output_count l' * m <= k * m)%nat)
      by (apply Nat.mul_le_mono_r; lia).
    lia.
  - intros Hk.
    assert (H' : (S k * m <= output_count l' * m)%nat)
      by (apply Nat.mul_le_mono_r; lia).
    cbn in H'.
    destruct (Hin k ltac:(lia)) as (db & t & f & Ha & _). congruence.
Qed.

(** X8.  A worker that returns has opened every input file and no
    extraction has raised; it had a GCD file for every input file;
    [file_counter] is the number of input files, [event_counter] the
    number of frames that were popped, and nothing is left in the truth
    buffer.  Everything was written: with a maximum of [m] rows, in a
    directory that had none of its shards, the identifier of every event is
    in the truth table of the shard numbered by the event's number divided
    by [m]. *)
Theorem worker_done_has_read_everything (self : SQLiteDataConverter)
  (s : settings) (kill kill' : option nat) (fs fs' : filesystem) (l' : locals) :
  _parallel_extraction self s kill fs = (fs', kill', Done l') ->
  (forall f, In f (input_files s) -> read_without_error f) /\
  (List.length (input_files s) <= List.length (gcd_files s))%nat /\
  file_counter l' = List.length (input_files s) /\
  event_counter l' = List.length (flat_map frames_of_file (input_files s)) /\
  len (truth_big l') = O /\
  forall m,
    max_dict_size s = Z.of_nat m -> (0 < m)%nat ->
    lower (_pulsemap self) <> "truth" -> lower (_pulsemap self) <> "retroreco" ->
    (forall f fr, In f (input_files s) -> In fr (frames_of_file f) ->
                  one_truth_row fr) ->
    (forall k, assoc (shard_name (id s) k) (tmp fs) = None) ->
    forall i, (i < event_counter l')%nat ->
      exists db truth,
        assoc (shard_name (id s) (i / m)) (tmp fs') = Some db /\
        read_sql "truth" db = Ok truth /\
        In (PyNum (start (event_no_list s) + Z.of_nat i)) (event_nos_of truth).
Proof.
  intros Hrun. pose proof Hrun as H. unfold _parallel_extraction in H.
  apply bind_Done in H. destruct H as (l1 & fs1 & kill1 & Hfiles & Hrest).
  apply (files_loop_Done self s (input_files s) O) in Hfiles; [|reflexivity].
  destruct Hfiles as (Hec & Hfc & Hg & Hall). cbn in Hec, Hfc.
  assert (Hl : event_counter l' = event_counter l1 /\
               file_counter l' = file_counter l1 /\ len (truth_big l') = O).
  { unfold flush_rest in Hrest. destruct (Nat.ltb_spec 0 (len (truth_big l1))).
    - apply bind_Done in Hrest. destruct Hrest as ([] & fs2 & kill2 & _ & Hrest).
      unfold ret in Hrest. injection Hrest as <- <- <-. cbn. auto.
    - unfold ret in Hrest. injection Hrest as <- <- <-.
      repeat split. lia. }
  destruct Hl as (Hec' & Hfc' & Hlen).
  split; [assumption|]. split.
  { destruct (input_files s) eqn:E; [cbn; lia|].
    rewrite <- E in *. specialize (Hg ltac:(rewrite E; discriminate)). lia. }
  split; [congruence|]. split; [congruence|]. split; [assumption|].
  intros m Hm Hpos Hl1 Hl2 Hone Hfresh i Hi.
  assert (Hp1 : _pulsemap self <> "truth") by (apply lower_neq; exact Hl1).
  assert (Hp2 : _pulsemap self <> "RetroReco") by (apply lower_neq; exact Hl2).
  pose proof (worker_shards self s m Hm Hpos Hp1 Hp2 kill fs fs' kill' l'
                Hone Hfresh Hrun) as Hw.
  cbv zeta in Hw. destruct Hw as (Hn & _ & _ & Hin & _).
  rewrite <- Hn in Hin.
  pose proof (Nat.div_mod_eq i m) as Hdiv.
  pose proof (Nat.mod_upper_bound i m ltac:(lia)) as Hmod.
  rewrite (Nat.mul_comm m) in Hdiv.
  destruct (Hin (i / m)%nat ltac:(lia)) as (db & truth & f & Ha & Ht & _ & Hids & _).
  exists db, truth. split; [assumption|]. split; [assumption|].
  rewrite Hids. unfold ids_from. apply in_map_iff.
  exists i. split; [reflexivity|]. apply in_seq. lia.
Qed.

(** ** What the merge leaves in the final tables *)

Lemma submit_same key df db db' t :
  submit key df db = Ok db' -> assoc key (tables db) = Some t ->
  assoc key (tables db')
  = Some {| coldefs := coldefs t;
            rows := rows t ++ reindex (map fst (coldefs t)) df |}.
Proof.
  unfold submit. intros H Ht. destruct (Nat.eqb_spec (len df) 0) as [E|E].
  - injection H as <-. rewrite Ht. unfold reindex.
    unfold len in E. apply length_zero_iff_nil in E. rewrite E. cbn.
    rewrite app_nil_r. now destruct t.
  - now destruct (to_sql_existing _ _ _ _ _ Ht H) as (_ & _ & _ & ? & _).
Qed.

Lemma submit_other key df db db' name :
  submit key df db = Ok db' -> name <> key ->
  assoc name (tables db') = assoc name (tables db).
Proof.
  unfold submit. intros H Hne. destruct (len df =? 0)%nat; [now injection H as <-|].
  destruct (assoc key (tables db)) as [t|] eqn:E.
  - destruct (to_sql_existing _ _ _ _ _ E H) as (_ & _ & _ & _ & Ho). now apply Ho.
  - destruct (to_sql_missing _ _ _ _ E H) as (_ & ->). cbn [tables].
    rewrite assoc_app. destruct (assoc name (tables db)); [reflexivity|].
    cbn. apply String.eqb_neq in Hne. now rewrite Hne.
Qed.

Lemma merge_loop_rows name pulse_map tmp0 files :
  name <> "RetroReco" -> pulse_map <> "truth" ->
  name = "truth" \/ name = pulse_map ->
  forall kill st st' kill' u t,
    tmp st = tmp0 ->
    assoc name (tables (final st)) = Some t ->
    for_each files (merge_one pulse_map) kill st = (st', kill', Done u) ->
    assoc name (tables (final st'))
    = Some {| coldefs := coldefs t;
              rows := rows t ++
                List.concat (map (fun f => shard_rows name (map fst (coldefs t))
                                                      (open_db f tmp0)) files) |}.
Proof.
  intros Hnr Hpt Hname.
  induction files as [|f files IH]; intros kill st st' kill' u t Htmp Ht H.
  - cbn in H. unfold ret in H. injection H as <- <-. rewrite Ht. cbn.
    rewrite app_nil_r. now destruct t.
  - cbn [for_each] in H.
    apply bind_Done in H. destruct H as ([] & st1 & kill1 & H1 & H2).
    pose proof (keeps_tmp_merge_one pulse_map f kill st) as K.
    rewrite H1 in K. cbn in K.
    apply merge_one_Done in H1. cbv zeta in H1. rewrite Htmp in H1.
    destruct H1 as (truth & features & d1 & d2 & R1 & R2 & S1 & S2 & S3 & _).
    assert (Ht1 : assoc name (tables (final st1))
                  = Some {| coldefs := coldefs t;
                            rows := rows t ++ shard_rows name (map fst (coldefs t))
                                                         (open_db f tmp0) |}).
    { rewrite (submit_other _ _ _ _ name S3) by assumption.
      unfold shard_rows.
      destruct (String.eqb_spec name "truth") as [->|Hne].
      - rewrite (submit_other _ _ _ _ "truth" S2) by congruence.
        rewrite R1. eapply submit_same; eassumption.
      - destruct Hname as [-> | ->]; [congruence|].
        rewrite R2. eapply submit_same; [eassumption|].
        now rewrite (submit_other _ _ _ _ pulse_map S1). }
    assert (Htmp1 : tmp st1 = tmp0) by congruence.
    rewrite (IH _ _ _ _ _ _ Htmp1 Ht1 H2). cbn [coldefs rows map List.concat].
    now rewrite <- app_assoc.
Qed.

Lemma length_shard_rows name cols db :
  List.length (shard_rows name cols db) = shard_row_count name db.
Proof.
  unfold shard_rows, shard_row_count. destruct (read_sql name db); [|reflexivity].
  unfold reindex, len. apply length_map.
Qed.

(** X9.  After a merge into an empty final database that ends well, the
    truth table, and the pulsemap table when it is not called RetroReco,
    has the columns sampled from the first temporary database and as many
    rows as the tables of that name of all temporary databases together:
    no row is dropped and none is added. *)
Theorem merged_table_has_all_rows (self : SQLiteDataConverter)
  (kill kill' : option nat) (fs fs' : filesystem) (name : string) :
  final fs = empty_db ->
  tmp fs <> [] ->
  name = "truth" \/ (name = _pulsemap self /\ _pulsemap self <> "RetroReco") ->
  _merge_databases self kill fs = (fs', kill', Done tt) ->
  exists cols t,
    sampled_columns name fs = Some cols /\
    assoc name (tables (final fs')) = Some t /\
    map fst (coldefs t) = cols /\
    List.length (rows t)
    = list_sum (map (fun f => shard_row_count name (open_db f (tmp fs)))
                    (map fst (tmp fs))).
Proof.
  intros Hfresh Hne Hname H. unfold _merge_databases in H.
  apply bind_Done in H. destruct H as (db_files & fs0 & kill0 & Hg & H).
  unfold glob_tmp in Hg. injection Hg as <- <- <-.
  destruct (Nat.ltb_spec 0 (List.length (map fst (tmp fs)))) as [_|Hlen];
    [|destruct (tmp fs); [congruence|cbn in Hlen; lia]].
  apply bind_Done in H. destruct H as ([[tc pc] rc] & fs1 & kill1 & Hx & H).
  apply _extract_column_names_Done in Hx.
  destruct Hx as (-> & -> & f0 & rest & Hfiles & Htc & Hpc & _).
  assert (Hopen : forall n, table_columns n (open_db f0 (tmp fs)) = sampled_columns n fs).
  { intros n. unfold sampled_columns, open_db.
    destruct (tmp fs) as [|[f db] shards]; [discriminate|].
    cbn in Hfiles. injection Hfiles as -> _. cbn. now rewrite String.eqb_refl. }
  rewrite Hopen in Htc, Hpc.
  apply bind_Done in H. destruct H as ([] & fs2 & kill2 & Hcr & H).
  apply _create_empty_tables_Done in Hcr.
  destruct Hcr as (Htmp2 & Hfin2 & Hne1 & Hne2 & _).
  rewrite Hfresh in Hfin2. cbn [tables indexes empty_db app] in Hfin2.
  apply bind_Done in H. destruct H as ([] & fs3 & kill3 & Hm & H).
  apply write_Done in H. destruct H as (H & _). injection H as <-. cbn [final].
  unfold _merge_temporary_databases in Hm.
  assert (Hassoc : exists cols b,
             sampled_columns name fs = Some cols /\
             assoc name (tables (final fs2)) = Some (created_table cols b) /\
             name <> "RetroReco").
  { rewrite Hfin2. cbn [tables]. destruct Hname as [-> | [-> Hpr]].
    - exists tc, false. repeat split; [assumption|discriminate].
    - exists pc, true. split; [assumption|]. split; [|assumption].
      cbn [assoc]. apply String.eqb_neq in Hne1. rewrite Hne1.
      rewrite assoc_app.
      destruct (Nat.ltb_spec 1 (List.length rc)); cbn [assoc].
      + apply String.eqb_neq in Hpr. rewrite Hpr. cbn.
        now rewrite String.eqb_refl.
      + cbn. now rewrite String.eqb_refl. }
  destruct Hassoc as (cols & b & Hs & Ha & Hnr).
  pose proof (merge_loop_rows name (_pulsemap self) (tmp fs) (map fst (tmp fs))
                Hnr Hne1 ltac:(tauto) _ _ _ _ _ _ Htmp2 Ha Hm) as Hrows.
  eexists cols, _. split; [assumption|]. split; [exact Hrows|].
  cbn [coldefs rows created_table app]. split; [apply declarations_names|].
  rewrite length_concat, !map_map. f_equal. apply map_ext.
  intros shard. apply length_shard_rows.
Qed.

(** ** The RetroReco table of the final database *)

(** X11.  With more than one RetroReco column sampled, [_create_empty_tables] on
    an empty final database creates a RetroReco table of these columns,
    declared as the truth table is (event_no INTEGER PRIMARY KEY NOT NULL,
    the others FLOAT), without rows and without an index. *)
Theorem retro_table_created_like_truth (pulse_map : string)
  (truth_columns pulse_map_columns retro_columns : list string)
  (kill kill' : option nat) (fs fs' : filesystem) :
  final fs = empty_db ->
  (1 < List.length retro_columns)%nat ->
  _create_empty_tables pulse_map truth_columns pulse_map_columns retro_columns
                       kill fs = (fs', kill', Done tt) ->
  exists t,
    assoc "RetroReco" (tables (final fs')) = Some t /\
    map fst (coldefs t) = retro_columns /\
    rows t = [] /\
    (forall c d, In (c, d) (coldefs t) ->
       d = if String.eqb c "event_no"
           then INTEGER_PRIMARY_KEY_NOT_NULL else FLOAT) /\
    forall i, In i (indexes (final fs')) -> index_table i <> "RetroReco".
Proof.
  intros Hfresh Hlen H. apply _create_empty_tables_Done in H.
  destruct H as (_ & Hfin & _ & Hne & _).
  rewrite Hfin, Hfresh. cbn [tables indexes empty_db app].
  apply Nat.ltb_lt in Hlen as Hlt. rewrite Hlt.
  exists (created_table retro_columns false). cbn [assoc app].
  split; [reflexivity|]. cbn [created_table coldefs rows].
  split; [apply declarations_names|]. split; [reflexivity|]. split.
  - intros c d Hin. now apply declarations_In in Hin.
  - intros i [<-|[]]. cbn. now apply Hne.
Qed.

(** ** Where the columns are sampled *)

Lemma retro_sample_first dbs db rest cols retro_columns :
  Forall (fun d => has_table "RetroReco" d = false) dbs ->
  table_columns "RetroReco" db = Some cols -> cols <> [] ->
  retro_sample (dbs ++ db :: rest) retro_columns = Some cols.
Proof.
  intros Hno Hc Hne. revert retro_columns.
  induction Hno as [|d dbs Hd Hdbs IH]; intros rc; cbn [app retro_sample].
  - unfold table_columns in Hc. unfold read_sql_limit_1.
    destruct (assoc "RetroReco" (tables db)) as [t|]; [|discriminate].
    cbn in Hc. injection Hc as Hc. cbn [columns]. rewrite Hc.
    destruct cols; [congruence|reflexivity].
  - unfold read_sql_limit_1. rewrite has_table_assoc in Hd.
    destruct (assoc "RetroReco" (tables d)); [discriminate|]. apply IH.
Qed.

(** X12.  [_extract_column_names] changes nothing.  The truth and pulsemap
    columns it returns are those of the first temporary database listed;
    the RetroReco columns are those of the first database listed that has
    a RetroReco table, and there are none when no database has one. *)
Theorem columns_sampled_from_first_shards (db_files : list string)
  (pulsemap : string) (kill kill' : option nat) (fs fs' : filesystem)
  (tc pc rc : list string) :
  _extract_column_names db_files pulsemap kill fs = (fs', kill', Done (tc, pc, rc)) ->
  fs' = fs /\
  (exists first rest,
      db_files = first :: rest /\
      table_columns "truth" (open_db first (tmp fs)) = Some tc /\
      table_columns pulsemap (open_db first (tmp fs)) = Some pc) /\
  (forall before f after cols,
      db_files = before ++ f :: after ->
      (forall g, In g before -> has_table "RetroReco" (open_db g (tmp fs)) = false) ->
      table_columns "RetroReco" (open_db f (tmp fs)) = Some cols -> cols <> [] ->
      rc = cols) /\
  ((forall g, In g db_files -> has_table "RetroReco" (open_db g (tmp fs)) = false) ->
   rc = []).
Proof.
  intros H. apply _extract_column_names_Done in H.
  destruct H as (-> & _ & first & rest & Hfiles & Htc & Hpc & Hrc).
  split; [reflexivity|]. split; [now exists first, rest|]. split.
  - intros before f after cols Hsplit Hno Hc Hne.
    rewrite Hsplit, map_app in Hrc. cbn [map] in Hrc.
    rewrite (retro_sample_first _ _ _ cols) in Hrc; try assumption;
      [congruence|].
    apply Forall_forall. intros d Hd. apply in_map_iff in Hd.
    destruct Hd as (g & <- & Hg). now apply Hno.
  - intros Hno. rewrite retro_sample_no_retro in Hrc.
    + rewrite Hfiles in Hrc. cbn in Hrc. congruence.
    + apply Forall_forall. intros d Hd. apply in_map_iff in Hd.
      destruct Hd as (g & <- & Hg). now apply Hno.
Qed.

(** ** Merges that stop before they write *)

(** X13.  When the first temporary database listed lacks the truth table or the
    pulsemap table, the merge raises pandas' DatabaseError before it
    writes: the final database and the temporary databases stay as they
    are. *)
Theorem first_shard_without_table_stops_merge (self : SQLiteDataConverter)
  (kill : option nat) (fs : filesystem) (file : string) (db : database)
  (rest : list (string * database)) :
  tmp fs = (file, db) :: rest ->
  has_table "truth" db = false \/ has_table (_pulsemap self) db = false ->
  _merge_databases self kill fs = (fs, kill, Raised DatabaseError).
Proof.
  intros Htmp Hno. unfold _merge_databases, bind, glob_tmp. rewrite Htmp.
  cbn [map fst List.length Nat.ltb Nat.leb].
  unfold _extract_column_names, bind, connect_tmp, open_db. rewrite Htmp.
  cbn [assoc]. rewrite String.eqb_refl.
  unfold read_sql_limit_1. rewrite !has_table_assoc in Hno.
  destruct (assoc "truth" (tables db)); cbn [lift ret raise].
  - destruct Hno as [Hno|Hno]; [discriminate|].
    destruct (assoc (_pulsemap self) (tables db)); [discriminate|reflexivity].
  - reflexivity.
Qed.

Lemma _extract_column_names_reads_only db_files pulsemap kill fs :
  fst (_extract_column_names db_files pulsemap kill fs) = (fs, kill).
Proof.
  unfold _extract_column_names, bind.
  destruct db_files as [|f0 r]; [reflexivity|]. unfold connect_tmp.
  destruct (read_sql_limit_1 "truth" _); [|reflexivity]. cbn [lift ret].
  destruct (read_sql_limit_1 pulsemap _); [|reflexivity]. cbn [lift ret].
  rewrite retro_columns_loop_spec. now destruct (retro_sample _ None).
Qed.

(** X14.  A merge into a final database that has a truth table already, as after
    an earlier merge, ends with an exception and leaves the final database
    and the temporary databases as they are. *)
Theorem merge_refuses_existing_truth_table (self : SQLiteDataConverter)
  (fs : filesystem) :
  tmp fs <> [] ->
  has_table "truth" (final fs) = true ->
  exists e, run (_merge_databases self) fs = (fs, Raised e).
Proof.
  intros Hne Hhas. unfold run, _merge_databases, bind at 1, glob_tmp.
  destruct (Nat.ltb_spec 0 (List.length (map fst (tmp fs)))) as [_|Hlen];
    [|destruct (tmp fs); [congruence|cbn in Hlen; lia]].
  unfold bind at 1.
  pose proof (_extract_column_names_reads_only (map fst (tmp fs)) (_pulsemap self)
                None fs) as Hread.
  pose proof (never_crashes_extract_column_names (map fst (tmp fs)) (_pulsemap self) fs)
    as [_ Hnc].
  destruct (_extract_column_names _ _ None fs) as [[fs1 kill1] [[[tc pc] rc]|e|]];
    cbn in Hread, Hnc; injection Hread as -> ->; [| |congruence].
  - unfold _create_empty_tables, bind at 1, bind at 1, _create_table.
    destruct (snd (query_columns_loop tc false)) as [q|].
    + unfold bind at 1, _run_sql_code, write_final, write, sql_create_table.
      rewrite Hhas. cbn. now exists OperationalError.
    + cbn. now exists UnboundLocalError.
  - now exists e.
Qed.

(** ** The declarations after the merge *)

Lemma merge_one_keeps_schema db0 pulse_map file kill st st' kill' u :
  schema_kept db0 st ->
  merge_one pulse_map file kill st = (st', kill', Done u) ->
  schema_kept db0 st'.
Proof.
  intros [Hi Ht] H. apply merge_one_Done in H. cbv zeta in H.
  destruct H as (truth & features & d1 & d2 & _ & _ & S1 & S2 & S3 & _).
  apply submit_keeps_schema in S1, S2, S3.
  destruct S1 as [I1 T1], S2 as [I2 T2], S3 as [I3 T3]. split.
  - congruence.
  - intros name t Hn. destruct (Ht _ _ Hn) as (t0 & H0 & C0).
    destruct (T1 _ _ H0) as (t1 & H1 & C1).
    destruct (T2 _ _ H1) as (t2 & H2 & C2).
    destruct (T3 _ _ H2) as (t3 & H3 & C3).
    exists t3. split; [assumption|congruence].
Qed.

(** X10.  After a merge into an empty final database that ends well, the truth
    and the pulsemap table still have the declarations they were created
    with, for the columns sampled from the first temporary database, and
    the index on the pulsemap table's event_no is the only index. *)
Theorem merged_database_keeps_declarations (self : SQLiteDataConverter)
  (kill kill' : option nat) (fs fs' : filesystem) :
  final fs = empty_db ->
  tmp fs <> [] ->
  _merge_databases self kill fs = (fs', kill', Done tt) ->
  indexes (final fs') = [event_no_index (_pulsemap self)] /\
  (exists tc t,
      sampled_columns "truth" fs = Some tc /\
      assoc "truth" (tables (final fs')) = Some t /\
      coldefs t = declarations tc false) /\
  (exists pc t,
      sampled_columns (_pulsemap self) fs = Some pc /\
      assoc (_pulsemap self) (tables (final fs')) = Some t /\
      coldefs t = declarations pc true).
Proof.
  intros Hfresh Hne H. unfold _merge_databases in H.
  apply bind_Done in H. destruct H as (db_files & fs0 & kill0 & Hg & H).
  unfold glob_tmp in Hg. injection Hg as <- <- <-.
  destruct (Nat.ltb_spec 0 (List.length (map fst (tmp fs)))) as [_|Hlen];
    [|destruct (tmp fs); [congruence|cbn in Hlen; lia]].
  apply bind_Done in H. destruct H as ([[tc pc] rc] & fs1 & kill1 & Hx & H).
  apply _extract_column_names_Done in Hx.
  destruct Hx as (-> & -> & f0 & rest & Hfiles & Htc & Hpc & _).
  assert (Hopen : forall n, table_columns n (open_db f0 (tmp fs)) = sampled_columns n fs).
  { intros n. unfold sampled_columns, open_db.
    destruct (tmp fs) as [|[f db] shards]; [discriminate|].
    cbn in Hfiles. injection Hfiles as -> _. cbn. now rewrite String.eqb_refl. }
  rewrite Hopen in Htc, Hpc.
  apply bind_Done in H. destruct H as ([] & fs2 & kill2 & Hcr & H).
  apply _create_empty_tables_Done in Hcr.
  destruct Hcr as (Htmp2 & Hfin2 & Hne1 & Hne2 & _).
  rewrite Hfresh in Hfin2. cbn [tables indexes empty_db app] in Hfin2.
  apply bind_Done in H. destruct H as ([] & fs3 & kill3 & Hm & H).
  apply write_Done in H. destruct H as (H & _). injection H as <-. cbn [final].
  unfold _merge_temporary_databases in Hm.
  assert (H3 : schema_kept (final fs2) fs3).
  { eapply (for_each_Done_inv (schema_kept (final fs2))); [| |exact Hm].
    - intros x k0 st st' k0' u _ Hst Hstep.
      eapply merge_one_keeps_schema; eassumption.
    - split; [reflexivity|]. intros name t Ht. eauto. }
  destruct H3 as [Hi Ht]. split; [|split].
  - rewrite Hi, Hfin2. reflexivity.
  - destruct (Ht "truth" (created_table tc false)) as (t & Ha & Hc).
    { rewrite Hfin2. cbn [tables assoc]. reflexivity. }
    exists tc, t. repeat split; assumption.
  - destruct (Ht (_pulsemap self) (created_table pc true)) as (t & Ha & Hc).
    { rewrite Hfin2. cbn [tables assoc].
      apply String.eqb_neq in Hne1. rewrite Hne1.
      destruct (Nat.ltb_spec 1 (List.length rc)) as [Hrc|_]; cbn [app assoc].
      - specialize (Hne2 Hrc). apply String.eqb_neq in Hne2. rewrite Hne2.
        now rewrite String.eqb_refl.
      - now rewrite String.eqb_refl. }
    exists pc, t. repeat split; assumption.
Qed.

(* ================================================================== *)
(** * The extractors *)

(** ** The truth dict *)

(** X15.  Whenever [I3TruthExtractor] returns, its dict has the same sixteen
    keys in the same order, so it makes one row of the truth buffer; for
    a frame that is not Monte Carlo, or is noise, the ten fields of the
    primary particle and of the interaction hold the padding value. *)
Theorem truth_dict_has_fixed_keys (frame_has_key : i3frame -> string -> bool)
  (i3_file : string) (frame : i3frame) (padding_value : pyval) (d : extraction) :
  I3TruthExtractor_call frame_has_key i3_file frame padding_value = Returned d ->
  keys d = truth_keys /\
  one_truth_row {| truths := d; features := Lists []; retros := Scalars [] |} /\
  (frame_is_montecarlo frame_has_key frame = false \/
   frame_is_noise frame_has_key frame = true ->
   forall k, In k ["energy"; "position_x"; "position_y"; "position_z";
                   "interaction_time"; "azimuth"; "zenith"; "pid";
                   "interaction_type"; "elasticity"] ->
     exists items, d = Scalars items /\ assoc k items = Some padding_value).
Proof.
  unfold I3TruthExtractor_call. intros H.
  destruct (attempt_bind (frame_get frame "I3EventHeader") header_of) as [h|];
    [|discriminate].
  cbn [attempt_bind] in H.
  destruct (Bool.eqb (frame_is_montecarlo frame_has_key frame) true &&
            Bool.eqb (frame_is_noise frame_has_key frame) false) eqn:Emc.
  - destruct (get_primary_particle_interaction_type_and_elasticity _ _ _)
      as [[[o it] el]|]; [|discriminate].
    cbn [attempt_bind] in H.
    destruct (particle_of o) as [p|]; [|discriminate].
    cbn [attempt_bind] in H. injection H as <-.
    split; [reflexivity|]. split.
    + eexists. split; [reflexivity|]. cbn. discriminate.
    + intros [Hmc|Hn]; [rewrite Hmc in Emc|rewrite Hn in Emc];
        cbn in Emc; try discriminate.
      rewrite andb_false_r in Emc. discriminate.
  - injection H as <-. split; [reflexivity|]. split.
    + eexists. split; [reflexivity|]. discriminate.
    + intros _ k Hk. eexists. split; [reflexivity|].
      cbn in Hk. repeat (destruct Hk as [<-|Hk]; [reflexivity|]). destruct Hk.
Qed.

(** X16.  For a frame with an event header and the key MCInIcePrimary, read from
    a file whose path contains [noise], [I3TruthExtractor] raises
    AttributeError: the simulation type is noise, the primary particle is
    [None], and its energy is read. *)
Theorem truth_of_noise_file_raises (frame_has_key : i3frame -> string -> bool)
  (i3_file : string) (frame : i3frame) (padding_value : pyval) (h : I3EventHeader) :
  assoc "I3EventHeader" frame = Some (EventHeader h) ->
  frame_has_key frame "MCInIcePrimary" = true ->
  contains "noise" i3_file = true ->
  I3TruthExtractor_call frame_has_key i3_file frame padding_value
  = Raising AttributeError.
Proof.
  intros Hh Hk Hn. unfold I3TruthExtractor_call, frame_get. rewrite Hh.
  cbn [attempt_bind header_of].
  unfold frame_is_montecarlo, frame_is_noise. rewrite Hk.
  cbn [orb Bool.eqb andb].
  unfold get_primary_particle_interaction_type_and_elasticity.
  unfold find_data_type. rewrite Hn. reflexivity.
Qed.

(** ** The RetroReco dict *)

Lemma put_assoc_not_nil {V} k (v : V) l : put_assoc k v l <> [].
Proof.
  unfold put_assoc. destruct (assoc k l) eqn:E.
  - destruct l as [|[k' v'] l]; [discriminate|]. cbn.
    destruct (String.eqb k k'); discriminate.
  - destruct l; discriminate.
Qed.

Lemma put_assoc_keys {V} k (v : V) l k' :
  In k' (map fst (put_assoc k v l)) <-> k' = k \/ In k' (map fst l).
Proof.
  unfold put_assoc. destruct (assoc k l) eqn:E.
  - rewrite map_fst_replace_assoc. split; [auto|].
    intros [->|H]; [|assumption].
    apply assoc_In in E. now apply (in_map fst) in E.
  - rewrite map_app, in_app_iff. cbn. intuition congruence.
Qed.

Lemma dict_update_keys {V} (u d : list (string * V)) k :
  In k (map fst (dict_update d u)) <-> In k (map fst d) \/ In k (map fst u).
Proof.
  unfold dict_update. revert d. induction u as [|[k0 v0] u IH]; intros d; cbn.
  - tauto.
  - rewrite IH, put_assoc_keys. cbn. intuition congruence.
Qed.

Lemma add_classifiers_keys frame_has_key frame names :
  forall output output',
    add_classifiers frame_has_key frame names output = Returned output' ->
    forall k, In k (map fst output') <->
              In k (map fst output) \/ (In k names /\ frame_has_key frame k = true).
Proof.
  induction names as [|c names IH]; intros output output' H k; cbn in H.
  - injection H as <-. cbn. tauto.
  - destruct (frame_has_key frame c) eqn:Ec.
    + destruct (frame_get frame c) as [o|]; [|discriminate].
      cbn [attempt_bind] in H.
      destruct (dot_value o) as [v|]; [|discriminate].
      cbn [attempt_bind] in H.
      rewrite (IH _ _ H), put_assoc_keys. cbn.
      split; [intros [[->|?]|[? ?]]; auto|].
      intros [?|[[<-|?] ?]]; auto.
    + rewrite (IH _ _ H). cbn.
      split; [intros [?|[? ?]]; auto|].
      intros [?|[[<-|?] ?]]; auto. congruence.
Qed.

Lemma In_keys_dict_len (items : list (string * pyval)) k :
  In k (map fst items) -> dict_len (Scalars items) <> O.
Proof.
  unfold dict_len. cbn [keys]. intros Hin Hlen.
  apply length_zero_iff_nil in Hlen. rewrite Hlen in Hin. destruct Hin.
Qed.

Lemma frame_values_keys frame fields items :
  frame_values frame fields = Returned items -> map fst items = map fst fields.
Proof.
  revert items. induction fields as [|[k key] fields IH]; intros items H; cbn in H.
  - now injection H as <-.
  - destruct (frame_get frame key) as [o|]; [|discriminate]. cbn in H.
    destruct (dot_value o) as [v|]; [|discriminate]. cbn in H.
    destruct (frame_values frame fields) as [items'|]; [|discriminate].
    cbn in H. injection H as <-. cbn. f_equal. now apply IH.
Qed.

(** X17.  Whenever [I3RetroExtractor] returns, its dict is empty exactly when
    the frame has no reconstruction, no classifiers and is not Monte
    Carlo; a Monte Carlo frame always gets the key osc_weight, and with
    neither reconstruction nor classifiers the dict is osc_weight = -1
    alone. *)
Theorem retro_dict_empty_or_not (frame_has_key : i3frame -> string -> bool)
  (frame : i3frame) (d : extraction) :
  I3RetroExtractor_call frame_has_key frame = Returned d ->
  (dict_len d = O <->
   frame_contains_retro frame_has_key frame = false /\
   frame_contains_classifiers frame_has_key frame = false /\
   frame_is_montecarlo frame_has_key frame = false) /\
  (frame_is_montecarlo frame_has_key frame = true -> In "osc_weight" (keys d)) /\
  (frame_contains_retro frame_has_key frame = false ->
   frame_contains_classifiers frame_has_key frame = false ->
   frame_is_montecarlo frame_has_key frame = true ->
   d = Scalars [("osc_weight", PyNum (-1))]).
Proof.
  intros H.
  assert (Hone : frame_contains_retro frame_has_key frame = false ->
                 frame_contains_classifiers frame_has_key frame = false ->
                 frame_is_montecarlo frame_has_key frame = true ->
                 d = Scalars [("osc_weight", PyNum (-1))]).
  { intros Er Ec Em. unfold I3RetroExtractor_call in H.
    rewrite Er, Ec, Em in H. cbn in H. now injection H as <-. }
  enough (Hab : (dict_len d = O <->
                 frame_contains_retro frame_has_key frame = false /\
                 frame_contains_classifiers frame_has_key frame = false /\
                 frame_is_montecarlo frame_has_key frame = false) /\
                (frame_is_montecarlo frame_has_key frame = true ->
                 In "osc_weight" (keys d)))
    by (destruct Hab as [Ha Hb]; split; [exact Ha|split; [exact Hb|exact Hone]]).
  clear Hone.
  unfold I3RetroExtractor_call in H.
  destruct (frame_contains_retro frame_has_key frame) eqn:Er.
  - (* the frame has the reconstruction *)
    destruct (frame_values frame retro_fields) as [items|] eqn:Ev; [|discriminate].
    cbn [attempt_bind] in H.
    assert (Hz : In "zenith_retro" (map fst (dict_update [] items))).
    { apply dict_update_keys. right.
      rewrite (frame_values_keys _ _ _ Ev). cbn. tauto. }
    set (out1 := dict_update [] items) in *.
    destruct (if frame_contains_classifiers frame_has_key frame
              then add_classifiers frame_has_key frame classifiers out1
              else Returned out1) as [out2|] eqn:Ec; [|discriminate].
    cbn [attempt_bind] in H.
    assert (Hz2 : In "zenith_retro" (map fst out2)).
    { destruct (frame_contains_classifiers frame_has_key frame).
      - apply (add_classifiers_keys _ _ _ _ _ Ec). now left.
      - now injection Ec as <-. }
    destruct (frame_is_montecarlo frame_has_key frame) eqn:Em.
    + destruct (frame_get frame "I3MCWeightDict") as [w|]; [|discriminate].
      cbn [attempt_bind] in H.
      destruct (map_get w "weight") as [v|]; [|discriminate].
      cbn [attempt_bind] in H. injection H as <-.
      assert (Hin : In "osc_weight" (map fst (dict_update out2 [("osc_weight", v)])))
        by (apply dict_update_keys; right; now left).
      split; [|intros _; exact Hin].
      split; [|intros (? & _); discriminate].
      intros Hlen. now apply In_keys_dict_len in Hin.
    + cbn [attempt_bind] in H. injection H as <-. split; [|discriminate].
      split; [|intros (? & _); discriminate].
      intros Hlen. now apply In_keys_dict_len in Hz2.
  - cbn [attempt_bind] in H.
    destruct (frame_contains_classifiers frame_has_key frame) eqn:Ecl.
    + destruct (add_classifiers frame_has_key frame classifiers []) as [out2|] eqn:Ec;
        [|discriminate].
      cbn [attempt_bind] in H.
      assert (Hc : In "L4_MuonClassifier_Data_ProbNu" (map fst out2)).
      { apply (add_classifiers_keys _ _ _ _ _ Ec). right.
        split; [cbn; tauto|exact Ecl]. }
      destruct (frame_is_montecarlo frame_has_key frame) eqn:Em;
        cbn [attempt_bind] in H; injection H as <-.
      * assert (Hin : In "osc_weight"
                        (map fst (dict_update out2 [("osc_weight", PyNum (-1))])))
          by (apply dict_update_keys; right; now left).
        split; [|intros _; exact Hin].
        split; [|intros (_ & ? & _); discriminate].
        intros Hlen. now apply In_keys_dict_len in Hin.
      * split; [|discriminate].
        split; [|intros (_ & ? & _); discriminate].
        intros Hlen. now apply In_keys_dict_len in Hc.
    + cbn [attempt_bind] in H.
      destruct (frame_is_montecarlo frame_has_key frame) eqn:Em;
        cbn [attempt_bind] in H; injection H as <-.
      * split; [|intros _; cbn; tauto].
        split; [cbn; discriminate|intros (_ & _ & ?); discriminate].
      * split; [|discriminate]. split; [auto|reflexivity].
Qed.

(** ** The feature dict *)

Lemma append_pulses_columns x_geo rde pulses : forall rows,
  append_pulses (position_x x_geo) (position_y x_geo) (position_z x_geo)
                (area x_geo) rde pulses (feature_columns rows)
  = feature_columns (rows ++ map (fun p => (x_geo, rde, p)) pulses).
Proof.
  unfold append_pulses.
  induction pulses as [|p pulses IH]; intros rows; cbn [fold_left map].
  - now rewrite app_nil_r.
  - change (fold_left _ pulses ?o) with
      (append_pulses (position_x x_geo) (position_y x_geo) (position_z x_geo)
                     (area x_geo) rde pulses o) in *.
    unfold append_pulses in *.
    replace (rows ++ (x_geo, rde, p) :: map (fun p => (x_geo, rde, p)) pulses)
      with ((rows ++ [(x_geo, rde, p)]) ++ map (fun p => (x_geo, rde, p)) pulses)
      by now rewrite <- app_assoc.
    rewrite <- IH. f_equal.
    unfold feature_columns. cbn. now rewrite !map_app.
Qed.

Lemma append_oms_columns gcd_dict calibration data : forall rows output,
  append_oms gcd_dict calibration data (feature_columns rows) = Returned output ->
  output = feature_columns (rows ++ pulses_of gcd_dict calibration data) /\
  List.length (pulses_of gcd_dict calibration data)
  = List.length (flat_map snd data).
Proof.
  induction data as [|[om pulses] data IH]; intros rows output H;
    cbn [append_oms] in H.
  - injection H as <-. cbn. now rewrite app_nil_r.
  - unfold pulses_of. cbn [flat_map fst snd]. fold (pulses_of gcd_dict calibration data).
    unfold rde_of.
    destruct (om_get gcd_dict om) as [geo|]; [|discriminate].
    cbn [attempt_bind] in H.
    destruct (match calibration with
              | Some dom_cal => om_get dom_cal om
              | None => Returned (PyNum (-1))
              end) as [rde|]; [|discriminate].
    cbn [attempt_bind] in H.
    rewrite append_pulses_columns in H.
    destruct (IH _ _ H) as [-> Hlen]. split.
    + now rewrite <- app_assoc.
    + now rewrite !length_app, length_map, Hlen.
Qed.

Lemma rows_of_columns {A B} (F : A -> B) (rows : list A) (d : A) :
  map (fun i => F (nth i rows d)) (seq 0 (List.length rows)) = map F rows.
Proof.
  induction rows as [|r rows IH]; [reflexivity|].
  cbn [List.length seq map nth]. f_equal.
  rewrite <- seq_shift, map_map. exact IH.
Qed.

Lemma frame_of_feature_columns rows :
  frame_of (Lists (feature_columns rows))
  = {| columns := feature_keys; data := map feature_row rows |}.
Proof.
  unfold frame_of, feature_columns. cbn [map fst snd fold_right].
  rewrite !length_map, Nat.max_0_r, !Nat.max_id.
  f_equal.
  set (d := ({| position_x := PyNone; position_y := PyNone;
                position_z := PyNone; area := PyNone |}, PyNone,
             {| charge := PyNone; pulse_time := PyNone; width := PyNone |})).
  rewrite <- (rows_of_columns feature_row rows d).
  apply map_ext. intros i.
  change PyNone with (charge (snd d)) at 1.
  rewrite (map_nth (fun t => charge (snd t))).
  change PyNone with (pulse_time (snd d)) at 1.
  rewrite (map_nth (fun t => pulse_time (snd t))).
  change PyNone with (position_x (fst (fst d))) at 1.
  rewrite (map_nth (fun t => position_x (fst (fst t)))).
  change PyNone with (position_y (fst (fst d))) at 1.
  rewrite (map_nth (fun t => position_y (fst (fst t)))).
  change PyNone with (position_z (fst (fst d))) at 1.
  rewrite (map_nth (fun t => position_z (fst (fst t)))).
  change PyNone with (width (snd d)) at 1.
  rewrite (map_nth (fun t => width (snd t))).
  change PyNone with (area (fst (fst d))) at 1.
  rewrite (map_nth (fun t => area (fst (fst t)))).
  change PyNone with (snd (fst d)) at 1.
  rewrite (map_nth (fun t => snd (fst t))).
  destruct (nth i rows d) as [[geo rde] p]. reflexivity.
Qed.

(** X18.  Whenever [I3FeatureExtractorIceCube86] returns, its dict is not empty
    for [is_empty] and has the eight feature columns.  With a pulse
    series, its frame has one row per pulse, in the order of the OMs and
    of their pulses, that holds the pulse's charge, time and width and
    its OM's position, area and efficiency: the eight lists are aligned.
    Without one, after the KeyError of a missing pulsemap, it has no row. *)
Theorem features_one_row_per_pulse
  (om_keys_and_pulseseries : attempt (list (om_key * list pulse)))
  (gcd_dict : list (om_key * om_geo))
  (calibration : option (list (om_key * pyval))) (d : extraction) :
  I3FeatureExtractorIceCube86_call om_keys_and_pulseseries gcd_dict calibration
  = Returned d ->
  is_empty d = Ok false /\
  columns (frame_of d) = feature_keys /\
  match om_keys_and_pulseseries with
  | Returned pulseseries =>
      data (frame_of d)
      = map feature_row (pulses_of gcd_dict calibration pulseseries) /\
      len (frame_of d) = List.length (flat_map snd pulseseries)
  | Raising e => e = Builtin KeyError /\ len (frame_of d) = O
  end.
Proof.
  unfold I3FeatureExtractorIceCube86_call. intros H.
  destruct om_keys_and_pulseseries as [pulseseries|e].
  - change [("charge", []); ("dom_time", []); ("dom_x", []); ("dom_y", []);
            ("dom_z", []); ("width", []); ("pmt_area", []); ("rde", [])]
      with (feature_columns []) in H.
    destruct (append_oms gcd_dict calibration pulseseries (feature_columns []))
      as [output|] eqn:E; [|discriminate].
    cbn [attempt_bind] in H. injection H as <-.
    destruct (append_oms_columns _ _ _ _ _ E) as [-> Hlen].
    cbn [app]. rewrite frame_of_feature_columns. cbn [columns data].
    repeat split.
    unfold len. cbn [data]. now rewrite length_map.
  - destruct e as [| |[]]; try discriminate.
    injection H as <-. repeat split.
Qed.

(** X19.  The KeyError of an OM of the pulse series that the geometry does not
    have is not caught like that of a missing pulsemap:
    [I3FeatureExtractorIceCube86] raises. *)
Theorem om_without_geometry_raises
  (gcd_dict : list (om_key * om_geo))
  (calibration : option (list (om_key * pyval)))
  (pulseseries : list (om_key * list pulse)) (om : om_key) :
  In om (map fst pulseseries) ->
  om_get gcd_dict om = Raising (Builtin KeyError) ->
  exists e,
    I3FeatureExtractorIceCube86_call (Returned pulseseries) gcd_dict calibration
    = Raising e.
Proof.
  intros Hin Hom. unfold I3FeatureExtractorIceCube86_call.
  generalize [("charge", @nil pyval); ("dom_time", []); ("dom_x", []);
              ("dom_y", []); ("dom_z", []); ("width", []); ("pmt_area", []);
              ("rde", [])].
  induction pulseseries as [|[om' pulses] rest IH]; intros output;
    [destruct Hin|].
  cbn [append_oms].
  destruct (om_get gcd_dict om') as [geo|e] eqn:Eg; [|now exists e].
  cbn [attempt_bind].
  destruct (match calibration with
            | Some dom_cal => om_get dom_cal om'
            | None => Returned (PyNum (-1))
            end) as [rde|e]; [|now exists e].
  cbn [attempt_bind].
  destruct Hin as [Heq|Hin].
  - cbn in Heq. subst om'. congruence.
  - apply (IH Hin).
Qed.

(* ================================================================== *)
(** * Further instances *)

Lemma files_split_among_workers_witness :
  exists ss,
    _process_files_settings ex_self ex_files ex_gcds = Ok ss /\
    List.concat (map input_files ss) = ex_files /\
    List.concat (map gcd_files ss) = ex_gcds /\
    (List.length ex_gcds = List.length ex_files ->
     forall s, In s ss -> List.length (gcd_files s) = List.length (input_files s)).
Proof.
  eexists. split; [vm_compute; reflexivity|].
  apply (files_split_among_workers ex_self ex_files ex_gcds).
  vm_compute. reflexivity.
Defined.

Lemma every_worker_has_files_witness :
  exists ss,
    _process_files_settings ex_self ex_files ex_gcds = Ok ss /\
    (forall s, In s ss -> input_files s <> []) /\
    (forall s s', In s ss -> In s' ss ->
       Z.abs (Z.of_nat (List.length (input_files s))
              - Z.of_nat (List.length (input_files s'))) <= 1).
Proof.
  eexists. split; [vm_compute; reflexivity|].
  apply (every_worker_has_files ex_self ex_files ex_gcds).
  vm_compute. reflexivity.
Defined.

Lemma truth_buffer_identifiers_consecutive_witness :
  exists l',
    snd (fold_process [PopFrame (Ok ex_frame)] (pop_and_extract ex_self (ex_settings []))
           initial_locals None ex_fresh) = Done l' /\
    identifiers_consecutive (ex_settings []) l' /\
    NoDup (event_nos_of (truth_big l')).
Proof.
  eexists. split; [vm_compute; reflexivity|].
  eapply (truth_buffer_identifiers_consecutive ex_self (ex_settings [])
            [PopFrame (Ok ex_frame)] initial_locals _ None _ ex_fresh _).
  - intros fr [H|[]]. injection H as <-.
    eexists. split; [reflexivity|discriminate].
  - split; [vm_compute; lia|reflexivity].
  - vm_compute. reflexivity.
Defined.

Lemma shard_names_distinct_witness :
  _process_files_settings ex_self ex_files ex_gcds = Ok ex_workers /\
  (1 = 1 /\ 3 = 3)%nat.
Proof.
  split; [vm_compute; reflexivity|].
  apply (fun H => shard_names_distinct ex_self ex_files ex_gcds ex_workers H
                    1%nat 1%nat (nth 1 ex_workers (ex_settings []))
                    (nth 1 ex_workers (ex_settings [])) 3%nat 3%nat).
  - vm_compute. reflexivity.
  - vm_compute. reflexivity.
  - vm_compute. reflexivity.
  - reflexivity.
Defined.

Lemma retro_table_created_like_truth_witness :
  let fs' := fst (fst (_create_empty_tables "SRTInIcePulses"
                         ["energy"; "event_no"] ["dom_x"; "event_no"]
                         ["azimuth_retro"; "event_no"] None ex_fresh)) in
  exists t,
    assoc "RetroReco" (tables (final fs')) = Some t /\
    map fst (coldefs t) = ["azimuth_retro"; "event_no"] /\
    rows t = [] /\
    (forall c d, In (c, d) (coldefs t) ->
       d = if String.eqb c "event_no"
           then INTEGER_PRIMARY_KEY_NOT_NULL else FLOAT) /\
    forall i, In i (indexes (final fs')) -> index_table i <> "RetroReco".
Proof.
  intros fs'.
  eapply (retro_table_created_like_truth "SRTInIcePulses"
            ["energy"; "event_no"] ["dom_x"; "event_no"]
            ["azimuth_retro"; "event_no"] None _ ex_fresh fs').
  - reflexivity.
  - simpl. lia.
  - vm_compute. reflexivity.
Defined.

Lemma columns_sampled_from_first_shards_witness :
  let db_files := ["worker-0-0.db"; "worker-1-0.db"] in
  let fs := ex_retro_shards in
  exists tc pc rc,
    snd (_extract_column_names db_files "SRTInIcePulses" None fs) = Done (tc, pc, rc) /\
    fs = fs /\
    (exists first rest,
        db_files = first :: rest /\
        table_columns "truth" (open_db first (tmp fs)) = Some tc /\
        table_columns "SRTInIcePulses" (open_db first (tmp fs)) = Some pc) /\
    (forall before f after cols,
        db_files = before ++ f :: after ->
        (forall g, In g before -> has_table "RetroReco" (open_db g (tmp fs)) = false) ->
        table_columns "RetroReco" (open_db f (tmp fs)) = Some cols -> cols <> [] ->
        rc = cols) /\
    ((forall g, In g db_files -> has_table "RetroReco" (open_db g (tmp fs)) = false) ->
     rc = []).
Proof.
  intros db_files fs. eexists. eexists. eexists.
  split; [vm_compute; reflexivity|].
  eapply (columns_sampled_from_first_shards db_files "SRTInIcePulses" None _ fs fs).
  vm_compute. reflexivity.
Defined.

Lemma first_shard_without_table_stops_merge_witness :
  let fs := {| tmp := [("worker-0-0.db", empty_db); ("worker-1-0.db", ex_shard_0)];
               final := empty_db |} in
  _merge_databases ex_self None fs = (fs, None, Raised DatabaseError).
Proof.
  intros fs.
  apply (first_shard_without_table_stops_merge ex_self None fs "worker-0-0.db"
           empty_db [("worker-1-0.db", ex_shard_0)]).
  - reflexivity.
  - left. reflexivity.
Defined.

Lemma merge_refuses_existing_truth_table_witness :
  let fs := {| tmp := [("worker-0-0.db", ex_shard_0)]; final := ex_shard_0 |} in
  exists e, run (_merge_databases ex_self) fs = (fs, Raised e).
Proof.
  intros fs. apply (merge_refuses_existing_truth_table ex_self fs).
  - discriminate.
  - reflexivity.
Defined.

Lemma truth_dict_has_fixed_keys_witness :
  exists d,
    I3TruthExtractor_call ex_frame_has_key "genie_0001.i3" ex_mc_frame (PyNum (-1))
    = Returned d /\
    keys d = truth_keys /\
    one_truth_row {| truths := d; features := Lists []; retros := Scalars [] |} /\
    (frame_is_montecarlo ex_frame_has_key ex_mc_frame = false \/
     frame_is_noise ex_frame_has_key ex_mc_frame = true ->
     forall k, In k ["energy"; "position_x"; "position_y"; "position_z";
                     "interaction_time"; "azimuth"; "zenith"; "pid";
                     "interaction_type"; "elasticity"] ->
       exists items, d = Scalars items /\ assoc k items = Some (PyNum (-1))).
Proof.
  eexists. split; [vm_compute; reflexivity|].
  apply (truth_dict_has_fixed_keys ex_frame_has_key "genie_0001.i3" ex_mc_frame
           (PyNum (-1))).
  vm_compute. reflexivity.
Defined.

Lemma truth_of_noise_file_raises_witness :
  I3TruthExtractor_call ex_frame_has_key "noise_0001.i3" ex_mc_frame (PyNum (-1))
  = Raising AttributeError.
Proof.
  apply (truth_of_noise_file_raises ex_frame_has_key "noise_0001.i3" ex_mc_frame
           (PyNum (-1)) ex_header).
  - reflexivity.
  - reflexivity.
  - reflexivity.
Defined.

Lemma retro_dict_empty_or_not_witness :
  exists d,
    I3RetroExtractor_call ex_frame_has_key ex_mc_frame = Returned d /\
    (dict_len d = O <->
     frame_contains_retro ex_frame_has_key ex_mc_frame = false /\
     frame_contains_classifiers ex_frame_has_key ex_mc_frame = false /\
     frame_is_montecarlo ex_frame_has_key ex_mc_frame = false) /\
    (frame_is_montecarlo ex_frame_has_key ex_mc_frame = true ->
     In "osc_weight" (keys d)) /\
    (frame_contains_retro ex_frame_has_key ex_mc_frame = false ->
     frame_contains_classifiers ex_frame_has_key ex_mc_frame = false ->
     frame_is_montecarlo ex_frame_has_key ex_mc_frame = true ->
     d = Scalars [("osc_weight", PyNum (-1))]).
Proof.
  eexists. split; [vm_compute; reflexivity|].
  apply (retro_dict_empty_or_not ex_frame_has_key ex_mc_frame).
  vm_compute. reflexivity.
Defined.

Lemma features_one_row_per_pulse_witness :
  exists d,
    I3FeatureExtractorIceCube86_call (Returned ex_pulseseries) ex_gcd_dict None
    = Returned d /\
    is_empty d = Ok false /\
    columns (frame_of d) = feature_keys /\
    data (frame_of d) = map feature_row (pulses_of ex_gcd_dict None ex_pulseseries) /\
    len (frame_of d) = List.length (flat_map snd ex_pulseseries).
Proof.
  eexists. split; [vm_compute; reflexivity|].
  apply (features_one_row_per_pulse (Returned ex_pulseseries) ex_gcd_dict None).
  vm_compute. reflexivity.
Defined.

Lemma om_without_geometry_raises_witness :
  exists e,
    I3FeatureExtractorIceCube86_call (Returned ex_pulseseries)
      [((1, 1, 0), ex_geo)] None
    = Raising e.
Proof.
  apply (om_without_geometry_raises [((1, 1, 0), ex_geo)] None ex_pulseseries
           (1, 2, 0)).
  - simpl. right. left. reflexivity.
  - reflexivity.
Defined.

Lemma merged_database_keeps_declarations_witness :
  let fs := ex_two_shards ex_shard_narrow in
  let fs' := fst (run (_merge_databases ex_self) fs) in
  indexes (final fs') = [event_no_index (_pulsemap ex_self)] /\
  (exists tc t,
      sampled_columns "truth" fs = Some tc /\
      assoc "truth" (tables (final fs')) = Some t /\
      coldefs t = declarations tc false) /\
  (exists pc t,
      sampled_columns (_pulsemap ex_self) fs = Some pc /\
      assoc (_pulsemap ex_self) (tables (final fs')) = Some t /\
      coldefs t = declarations pc true).
Proof.
  intros fs fs'.
  eapply (merged_database_keeps_declarations ex_self None _ fs fs').
  - reflexivity.
  - discriminate.
  - vm_compute. reflexivity.
Defined.



Lemma worker_shard_count_witness :
  exists l',
    snd (_parallel_extraction ex_self ex_three_events None ex_fresh) = Done l' /\
    (3 <= output_count l' * 2 < 3 + 2)%nat /\
    forall k,
      assoc (shard_name "0" k)
            (tmp (fst (fst (_parallel_extraction ex_self ex_three_events None
                              ex_fresh)))) <> None
      <-> (k < output_count l')%nat.
Proof.
  eexists. split; [vm_compute; reflexivity|].
  eapply (worker_shard_count ex_self ex_three_events 2 None _ ex_fresh _ _).
  - reflexivity.
  - lia.
  - vm_compute. discriminate.
  - vm_compute. discriminate.
  - intros f fr [<-|[]] Hfr. simpl in Hfr.
    destruct Hfr as [<-|[<-|[<-|[]]]];
      (eexists; split; [reflexivity|discriminate]).
  - intros k. reflexivity.
  - vm_compute. reflexivity.
Defined.

Lemma worker_done_has_read_everything_witness :
  let s := ex_three_events in
  let fs' := fst (fst (_parallel_extraction ex_self s None ex_fresh)) in
  exists l',
    snd (_parallel_extraction ex_self s None ex_fresh) = Done l' /\
    (forall f, In f (input_files s) -> read_without_error f) /\
    (List.length (input_files s) <= List.length (gcd_files s))%nat /\
    file_counter l' = List.length (input_files s) /\
    event_counter l' = List.length (flat_map frames_of_file (input_files s)) /\
    len (truth_big l') = O /\
    forall i, (i < event_counter l')%nat ->
      exists db truth,
        assoc (shard_name (id s) (i / 2)) (tmp fs') = Some db /\
        read_sql "truth" db = Ok truth /\
        In (PyNum (start (event_no_list s) + Z.of_nat i)) (event_nos_of truth).
Proof.
  intros s fs'. eexists. split; [vm_compute; reflexivity|].
  destruct (worker_done_has_read_everything ex_self s None None ex_fresh fs' _
              ltac:(vm_compute; reflexivity))
    as (H1 & H2 & H3 & H4 & H5 & H6).
  split; [exact H1|]. split; [exact H2|]. split; [exact H3|].
  split; [exact H4|]. split; [exact H5|].
  apply (H6 2%nat).
  - reflexivity.
  - lia.
  - vm_compute. discriminate.
  - vm_compute. discriminate.
  - intros f fr [<-|[]] Hfr. simpl in Hfr.
    destruct Hfr as [<-|[<-|[<-|[]]]];
      (eexists; split; [reflexivity|discriminate]).
  - intros k. reflexivity.
Defined.

Lemma save_to_sql_tables_witness :
  let r := run (save_to_sql (feature_big ex_locals) (truth_big ex_locals)
                  (retro_big ex_locals) "0" 0 "SRTInIcePulses") ex_fresh in
  let shard := open_db (shard_name "0" 0) (tmp (fst r)) in
  final (fst r) = final ex_fresh /\
  read_sql "truth" shard = Ok (truth_big ex_locals) /\
  (len (retro_big ex_locals) = O -> has_table "RetroReco" shard = false) /\
  ((0 < len (retro_big ex_locals))%nat ->
   columns (retro_big ex_locals) <> [] ->
   NoDup (map lower (columns (retro_big ex_locals))) ->
   read_sql "RetroReco" shard = Ok (retro_big ex_locals)) /\
  (((0 < len (retro_big ex_locals))%nat ->
    columns (retro_big ex_locals) <> [] /\
    NoDup (map lower (columns (retro_big ex_locals)))) ->
   columns (feature_big ex_locals) <> [] ->
   NoDup (map lower (columns (feature_big ex_locals))) ->
   read_sql "SRTInIcePulses" shard = Ok (feature_big ex_locals) /\
   snd r = Done tt) /\
  (columns (feature_big ex_locals) = [] ->
   has_table "SRTInIcePulses" shard = false /\ exists e, snd r = Raised e).
Proof.
  apply (save_to_sql_tables (feature_big ex_locals) (truth_big ex_locals)
           (retro_big ex_locals) "0" 0 "SRTInIcePulses" ex_fresh).
  - reflexivity.
  - vm_compute. discriminate.
  - vm_compute. discriminate.
  - simpl. discriminate.
  - vm_compute. repeat constructor; simpl; intuition discriminate.
Defined.

Lemma merged_table_has_all_rows_witness :
  let fs := ex_two_shards ex_shard_narrow in
  let fs' := fst (run (_merge_databases ex_self) fs) in
  exists cols t,
    sampled_columns "truth" fs = Some cols /\
    assoc "truth" (tables (final fs')) = Some t /\
    map fst (coldefs t) = cols /\
    List.length (rows t)
    = list_sum (map (fun f => shard_row_count "truth" (open_db f (tmp fs)))
                    (map fst (tmp fs))).
Proof.
  intros fs fs'.
  eapply (merged_table_has_all_rows ex_self None _ fs fs' "truth").
  - reflexivity.
  - discriminate.
  - left. reflexivity.
  - vm_compute. reflexivity.
Defined.

